(** * PhotoGnark: proof-carrying image provenance on top of gnark

    A shallow embedding of the Go packages [image], [transformations],
    [generator], [prover], [verifier], [editor] and [camera], followed by
    the properties established about them.

    Conventions of the embedding.
    - A Go [int] is a [Z]; a [uint8] is a [Z] in [0, 256).
    - A [[]byte] is a [list byte]; the nil slice and the empty slice are both
      the empty list.
    - A fixed-size array [[N][N]T] is a [list (list T)]; every access checks
      the index and panics out of range, as the Go runtime does.
    - A Go value of interface type that may be nil is an [option].
    - A Go function that prints, and that may panic, is a computation in the
      monad [Run]: it yields the lines printed and either a result or the
      panic that stopped it.
    - gnark and gnark-crypto are external: their operations are the fields of
      a [Backend]. *)

From stdpp Require Import base option list gmap strings sorting.
From Stdlib Require Import ZArith Lia Ascii DecimalString.
From Stdlib.Strings Require Import Byte.

Local Open Scope string_scope.
Local Open Scope list_scope.
Local Open Scope Z_scope.

(** ** Printing and panicking computations *)

Inductive Outcome (A : Type) : Type :=
  | Ret (a : A)
  | Panic (msg : string).
Arguments Ret {A} a.
Arguments Panic {A} msg.

(** The lines written to standard output, then how the call ended. *)
Definition Run (A : Type) : Type := (list string * Outcome A)%type.

Definition lines {A} (m : Run A) : list string := fst m.
Definition res {A} (m : Run A) : Outcome A := snd m.

#[global] Instance Run_ret : MRet Run := λ A a, ([], Ret a).

#[global] Instance Run_bind : MBind Run := λ A B f m,
  match m with
  | (l, Ret a) => let '(l', r) := f a in (l ++ l', r)
  | (l, Panic msg) => (l, Panic msg)
  end.

Definition Println (s : string) : Run unit := ([s], Ret tt).

Definition panic {A} (msg : string) : Run A := ([], Panic msg).

(** [if err != nil { fmt.Println(prefix + err.Error() + suffix) }] *)
Definition print_err (prefix : string) (err : option string) (suffix : string)
  : Run unit :=
  match err with
  | Some e => Println (prefix +:+ e +:+ suffix)
  | None => mret tt
  end.

(** Calling a method on an interface value: a nil receiver panics. *)
Definition deref {A} (v : option A) : Run A :=
  match v with
  | Some a => mret a
  | None => panic "invalid memory address or nil pointer dereference"
  end.

(** [for i := start; i < start + count; i++ { s = body i s }] *)
Fixpoint for_range {St : Type} (start : Z) (count : nat)
    (body : Z → St → Run St) (s : St) : Run St :=
  match count with
  | O => mret s
  | S c => s' ← body start s; for_range (start + 1) c body s'
  end.

(** [for i := 0; i < n; i++] for an [int] bound [n]. *)
Definition for_upto {St : Type} (n : Z) (body : Z → St → Run St) (s : St)
  : Run St :=
  for_range 0 (Z.to_nat n) body s.

(** ** Arrays *)

Abbreviation Array2 A := (list (list A)) (only parsing).

(** [a[i]] read on a list standing for an array; [None] is out of range. *)
Definition at1 {A} (a : list A) (i : Z) : option A :=
  if decide (0 ≤ i < Z.of_nat (length a)) then a !! Z.to_nat i else None.

Definition at2 {A} (a : Array2 A) (i j : Z) : option A :=
  row ← at1 a i; at1 row j.

(** [a[i][j]] as an expression. *)
Definition index2 {A} (a : Array2 A) (i j : Z) : Run A :=
  match at2 a i j with
  | Some v => mret v
  | None => panic "index out of range"
  end.

(** [a[i][j] = f(a[i][j])] as a statement. *)
Definition modify2 {A} (a : Array2 A) (i j : Z) (f : A → A) : Run (Array2 A) :=
  match at1 a i with
  | Some row =>
      match at1 row j with
      | Some v => mret (<[Z.to_nat i := <[Z.to_nat j := f v]> row]> a)
      | None => panic "index out of range"
      end
  | None => panic "index out of range"
  end.

Definition store2 {A} (a : Array2 A) (i j : Z) (v : A) : Run (Array2 A) :=
  modify2 a i j (λ _, v).

(** ** The external values the repository handles *)

(** The types of gnark and gnark-crypto whose values the repository only
    passes on: [signature.PublicKey], [signature.Signer],
    [groth16.ProvingKey], [groth16.VerifyingKey], [groth16.Proof],
    [witness.Witness], [constraint.ConstraintSystem]; and [Entropy], what one
    read of [crypto/rand.Reader] delivers. *)
Record Types : Type := {
  signature_PublicKey : Type;
  signature_Signer : Type;
  groth16_ProvingKey : Type;
  groth16_VerifyingKey : Type;
  groth16_Proof : Type;
  witness_Witness : Type;
  constraint_ConstraintSystem : Type;
  Entropy : Type
}.

(** [encoding/json], as far as [json.Marshal] is applied to an image. *)
Module json.

Definition quote : string := String (ascii_of_N 34) "".

Definition hex (n : N) : string :=
  String (ascii_of_N (if (n <? 10)%N then 48 + n else 87 + n)) "".

(** One byte below 128 of a string literal: [Marshal] writes the short
    escapes of the quote, the backslash, backspace, form feed, line feed,
    carriage return and tab, and six-character escapes for the other
    control characters and for the characters that are unsafe in HTML. *)
Definition escape (c : ascii) : string :=
  let n := N_of_ascii c in
  if (n =? 34)%N then "\" +:+ quote
  else if (n =? 92)%N then "\\"
  else if (n =? 8)%N then "\b"
  else if (n =? 12)%N then "\f"
  else if (n =? 10)%N then "\n"
  else if (n =? 13)%N then "\r"
  else if (n =? 9)%N then "\t"
  else if ((n <? 32) || (n =? 60) || (n =? 62) || (n =? 38))%N
    then "\u00" +:+ hex (n / 16) +:+ hex (n mod 16)
  else String c "".

(** [lo <= c <= hi] on the code of a byte. *)
Definition within (c : ascii) (lo hi : N) : bool :=
  ((lo <=? N_of_ascii c) && (N_of_ascii c <=? hi))%N.

(** The bytes a second byte may take after the first byte [n] of a
    sequence of three or four bytes, as [unicode/utf8] accepts them. *)
Definition second_of_three (n : N) (c : ascii) : bool :=
  if (n =? 224)%N then within c 160 191
  else if (n =? 237)%N then within c 128 159
  else within c 128 191.

Definition second_of_four (n : N) (c : ascii) : bool :=
  if (n =? 240)%N then within c 144 191
  else if (n =? 244)%N then within c 128 143
  else within c 128 191.

(** The text of a string literal. From 128 on the bytes are read as UTF-8,
    one code point at a time: a well-formed sequence is copied, except
    U+2028 and U+2029, which are written as escapes; a byte that starts no
    well-formed sequence is written as the escape of U+FFFD, and the
    reading resumes at the next byte. *)
Fixpoint escape_all (s : string) : string :=
  match s with
  | EmptyString => ""
  | String c s1 =>
    let n := N_of_ascii c in
    let invalid := "\ufffd" +:+ escape_all s1 in
    if (n <? 128)%N then escape c +:+ escape_all s1
    else if ((194 <=? n) && (n <=? 223))%N then
      match s1 with
      | String c2 s2 =>
        if within c2 128 191 then String c (String c2 (escape_all s2)) else invalid
      | _ => invalid
      end
    else if ((224 <=? n) && (n <=? 239))%N then
      match s1 with
      | String c2 (String c3 s3) =>
        if second_of_three n c2 && within c3 128 191 then
          if ((n =? 226) && (N_of_ascii c2 =? 128) && within c3 168 169)%N
          then "\u202" +:+ hex (N_of_ascii c3 mod 16) +:+ escape_all s3
          else String c (String c2 (String c3 (escape_all s3)))
        else invalid
      | _ => invalid
      end
    else if ((240 <=? n) && (n <=? 244))%N then
      match s1 with
      | String c2 (String c3 (String c4 s4)) =>
        if second_of_four n c2 && within c3 128 191 && within c4 128 191
        then String c (String c2 (String c3 (String c4 (escape_all s4))))
        else invalid
      | _ => invalid
      end
    else invalid
  end.

Definition str (s : string) : string := quote +:+ escape_all s +:+ quote.

Definition num (z : Z) : string := NilZero.string_of_int (Z.to_int z).

(** ["name":value], a member of an object. *)
Definition member (name value : string) : string := str name +:+ ":" +:+ value.

Definition object (members : list string) : string :=
  "{" +:+ String.concat "," members +:+ "}".

Definition array (elements : list string) : string :=
  "[" +:+ String.concat "," elements +:+ "]".

End json.

(** The scalar field of BN254, [ecc.BN254.ScalarField()], and the part of
    [fr.Element] the repository uses. *)
Module fr.

Definition Modulus : Z :=
  21888242871839275222246405745257275088548364400416034343698204186575808495617.

Definition Bytes : Z := 32.

Definition byte_val (b : byte) : Z := Z.of_N (Byte.to_N b).

Definition val_byte (z : Z) : byte :=
  default x00 (Byte.of_N (Z.to_N (Z.land z 255))).

(** The unsigned integer a big-endian byte sequence denotes. *)
Definition big_endian (bs : list byte) : Z :=
  foldl (λ acc b, Z.lor (Z.shiftl acc 8) (byte_val b)) 0 bs.

(** [z.SetBytes(e)]: [e] read as a big-endian unsigned integer, reduced. *)
Definition SetBytes (e : list byte) : Z := big_endian e mod Modulus.

(** [z.Marshal()]: the 32 bytes of the element, most significant first. *)
Definition Marshal (z : Z) : list byte :=
  (λ i, val_byte (Z.shiftr z (8 * (Bytes - 1 - i)))) <$> seqZ 0 Bytes.

End fr.

(** [frontend.Variable], here [frontend.Var], is Go's empty interface. The
    repository stores in it nothing (nil), an integer (an [int] or a
    [uint8]) or a byte slice. What an API of gnark returns from a gate is
    none of these: the test engine returns a [*big.Int], here [big] with the
    field element it holds, and the builders return a linear expression. *)
Module frontend.

Inductive Var : Type :=
  | nil
  | int (v : Z)
  | bytes (b : list byte)
  | big (v : Z).

(** The operations of [frontend.API] the circuits call. *)
Record API : Type := {
  Add : Var → Var → Var;
  Sub : Var → Var → Var;
  Cmp : Var → Var → Var;
  IsZero : Var → Var;
  And : Var → Var → Var;
  Select : Var → Var → Var → Var;
  ConstantValue : Var → Var * bool
}.

(** The field element a variable stands for, if it is set. *)
Definition value (v : Var) : option Z :=
  match v with
  | nil => None
  | int z => Some (z mod fr.Modulus)
  | bytes b => Some (fr.SetBytes b)
  | big z => Some (z mod fr.Modulus)
  end.

(** A field element as a Go value: an [int] where an [int] of 64 bits
    holds it, a [*big.Int] where not. *)
Definition element (z : Z) : Var :=
  if decide (z < 2 ^ 63) then int z else big z.

Definition op1 (f : Z → Z) (a : Var) : Var :=
  match value a with
  | Some x => element (f x mod fr.Modulus)
  | None => nil
  end.

Definition op2 (f : Z → Z → Z) (a b : Var) : Var :=
  match value a, value b with
  | Some x, Some y => element (f x y mod fr.Modulus)
  | _, _ => nil
  end.

Definition op3 (f : Z → Z → Z → Z) (a b c : Var) : Var :=
  match value a, value b, value c with
  | Some x, Some y, Some z => element (f x y z mod fr.Modulus)
  | _, _, _ => nil
  end.

(** An API that evaluates every gate on field elements and returns the
    result as an [int] wherever an [int] holds it. No API of gnark does:
    this is the API the type assertions [.(int)] of [CropFrontendImage]
    presuppose, and the one on which the gates of the circuits can be
    followed past them. gnark panics on an unset operand; here the result
    of such a gate is [nil], which no later gate turns into a value.
    - [Cmp] is 1, 0 or -1 as the first operand is greater than, equal to or
      less than the second, both read as integers below the modulus;
    - [IsZero] is 1 on zero and 0 elsewhere;
    - [And] is the product of its (boolean) operands;
    - [Select b x y] is [y + b * (x - y)]: [x] when [b] is 1, [y] when 0. *)
Definition engine : API := {|
  Add := op2 Z.add;
  Sub := op2 Z.sub;
  Cmp := op2 (λ x y, match x ?= y with Gt => 1 | Eq => 0 | Lt => -1 end);
  IsZero := op1 (λ x, if decide (x = 0) then 1 else 0);
  And := op2 Z.mul;
  Select := op3 (λ b x y, y + b * (x - y));
  ConstantValue := λ v, (op1 id v, bool_decide (value v ≠ None))
|}.

(** [v] as the test engine of gnark returns it: a [*big.Int]. *)
Definition boxed (v : Var) : Var :=
  match v with
  | int z => big z
  | _ => v
  end.

(** The test engine of gnark: the gates of [engine], every result a
    [*big.Int]. *)
Definition test_engine : API := {|
  Add := λ a b, boxed (Add engine a b);
  Sub := λ a b, boxed (Sub engine a b);
  Cmp := λ a b, boxed (Cmp engine a b);
  IsZero := λ a, boxed (IsZero engine a);
  And := λ a b, boxed (And engine a b);
  Select := λ b x y, boxed (Select engine b x y);
  ConstantValue := λ v, (boxed (ConstantValue engine v).1, (ConstantValue engine v).2)
|}.

End frontend.

(** ** Package [image] *)
Module image.

Definition N : Z := 16.

Record RGBPixel : Type := { R : Z; G : Z; B : Z }.

(** A value of type [interface{}] held in the metadata: an [int], a string,
    or any other value, which is kept by what [json.Marshal] makes of it: its
    JSON text or the error it raises. *)
Inductive any : Type :=
  | int_ (v : Z)
  | string_ (s : string)
  | other (enc : string + string).

(** [M] is a Go map: a reference that may be nil. *)
Record I : Type := {
  Pixels : Array2 RGBPixel;
  M : option (gmap string any)
}.

Record FrontendPixel : Type := {
  Fr_R : frontend.Var;
  Fr_G : frontend.Var;
  Fr_B : frontend.Var
}.

Record FrontendImage : Type := { Fr_Pixels : Array2 FrontendPixel }.

(** The zero value of an [[N][N]T] array. *)
Definition zero_array {A} (a : A) : Array2 A :=
  replicate (Z.to_nat N) (replicate (Z.to_nat N) a).

Definition zero_RGBPixel : RGBPixel := {| R := 0; G := 0; B := 0 |}.

Definition zero_FrontendPixel : FrontendPixel :=
  {| Fr_R := frontend.nil; Fr_G := frontend.nil; Fr_B := frontend.nil |}.

Definition zero_FrontendImage : FrontendImage :=
  {| Fr_Pixels := zero_array zero_FrontendPixel |}.

Definition zero_I : I := {| Pixels := zero_array zero_RGBPixel; M := None |}.

(** The arrays have [N] rows of [N] cells. *)
Definition wf_array {A} (a : Array2 A) : Prop :=
  length a = Z.to_nat N ∧ Forall (λ row, length row = Z.to_nat N) a.

(** [m[key]] on a map that may be nil. *)
Definition M_lookup (img : I) (key : string) : option any :=
  m ← M img; m !! key.

(** [v.(int)] with the comma-ok form. *)
Definition as_int (v : option any) : option Z :=
  match v with
  | Some (int_ z) => Some z
  | _ => None
  end.

Definition SetPixel (img : I) (x y : Z) (color : RGBPixel) : I :=
  if decide (x >= 0 ∧ x < N ∧ y >= 0 ∧ y < N) then
    {| Pixels := alter (λ row, <[Z.to_nat x := color]> row) (Z.to_nat y) (Pixels img);
       M := M img |}
  else img.

Definition GetPixel (img : I) (x y : Z) : RGBPixel :=
  if decide (x >= 0 ∧ x < N ∧ y >= 0 ∧ y < N) then
    default zero_RGBPixel (at2 (Pixels img) y x)
  else zero_RGBPixel.

Definition NewImage : I :=
  {| Pixels := zero_array zero_RGBPixel; M := Some ∅ |}.

(** [img.M[key] = v]; the map is not nil wherever the repository assigns. *)
Definition M_store (img : I) (key : string) (v : any) : I :=
  {| Pixels := Pixels img; M := (λ m, <[key := v]> m) <$> M img |}.

Definition AllWhiteImage : I :=
  let img := NewImage in
  let img :=
    foldl (λ img x,
      foldl (λ img y, SetPixel img x y {| R := 255; G := 255; B := 255 |})
        img (seqZ 0 N))
      img (seqZ 0 N) in
  let img := M_store img "Author" (string_ "John Doe") in
  let img := M_store img "N" (int_ N) in
  let img := M_store img "height" (int_ N) in
  let img := M_store img "width" (int_ N) in
  img.

(** [Crop] works on the image behind the pointer; the embedding returns the
    image as the call leaves it, next to the error. After the bounds check
    no sum or difference leaves the range of [int]. *)
Definition Crop (img : I) (x0 y0 x1 y1 : Z) : Run (I * option string) :=
  match as_int (M_lookup img "width"), as_int (M_lookup img "height") with
  | Some width, Some height =>
    if decide (x0 < 0 ∨ y0 < 0 ∨ x1 >= width ∨ y1 >= height ∨ x0 > x1 ∨ y0 > y1)
    then mret (img, Some "invalid crop dimensions: out of bounds")
    else
      let cropWidth := x1 - x0 + 1 in
      let cropHeight := y1 - y0 + 1 in
      temp ← for_upto cropHeight (λ y temp,
                for_upto cropWidth (λ x temp,
                  p ← index2 (Pixels img) (y0 + y) (x0 + x);
                  store2 temp y x p) temp)
              (zero_array zero_RGBPixel);
      let blackPixel := {| R := 0; G := 0; B := 0 |} in
      pixels ← for_upto N (λ y pixels,
                  for_upto N (λ x pixels, store2 pixels y x blackPixel) pixels)
                (Pixels img);
      pixels ← for_upto cropHeight (λ y pixels,
                  for_upto cropWidth (λ x pixels,
                    p ← index2 temp y x;
                    store2 pixels y x p) pixels)
                pixels;
      let img := {| Pixels := pixels; M := M img |} in
      let img := M_store img "width" (int_ cropWidth) in
      let img := M_store img "height" (int_ cropHeight) in
      mret (img, None)
  | _, _ => mret (img, Some "invalid image metadata for width and height")
  end.

Definition json_RGBPixel (p : RGBPixel) : string :=
  json.object [json.member "R" (json.num (R p));
               json.member "G" (json.num (G p));
               json.member "B" (json.num (B p))].

Definition json_any (v : any) : string + string :=
  match v with
  | int_ z => inl (json.num z)
  | string_ s => inl (json.str s)
  | other enc => enc
  end.

(** The members of a map, given the entries in the order in which the
    runtime enumerates them: [json.Marshal] sorts them by key. The first
    value that cannot be encoded, in that order, is the error. *)
Fixpoint json_members (entries : list (string * any)) : list string + string :=
  match entries with
  | [] => inl []
  | (k, v) :: rest =>
      match json_any v with
      | inl text =>
          match json_members rest with
          | inl ms => inl (json.member k text :: ms)
          | inr e => inr e
          end
      | inr e => inr e
      end
  end.

Definition key_le (a b : string * any) : Prop := String.le a.1 b.1.

#[global] Instance key_le_dec : RelDecision key_le.
Proof. intros a b. unfold key_le. apply _. Defined.

Definition json_map (entries : option (list (string * any))) : string + string :=
  match entries with
  | None => inl "null"
  | Some l =>
      match json_members (merge_sort key_le l) with
      | inl ms => inl (json.object ms)
      | inr e => inr e
      end
  end.

(** [json.Marshal(img)] when the runtime enumerates [img.M] as [entries]. *)
Definition Marshal (entries : option (list (string * any))) (img : I)
  : string + string :=
  match json_map entries with
  | inl m =>
      inl (json.object
             [json.member "Pixels"
                (json.array ((λ row : list RGBPixel,
                              json.array (json_RGBPixel <$> row)) <$> Pixels img));
              json.member "M" m])
  | inr e => inr e
  end.

(** The entries of the metadata in the order of the keys' codes; a Go run
    may enumerate them in any other order. *)
Definition entries_of (img : I) : option (list (string * any)) :=
  map_to_list <$> M img.

Definition ToByte_with (entries : option (list (string * any))) (img : I)
  : Run (list byte) :=
  match Marshal entries img with
  | inl encoded_image => mret (String.list_byte_of_string encoded_image)
  | inr err =>
      Println ("Error while encoding image: " +:+ err);;
      mret []
  end.

Definition ToByte (img : I) : Run (list byte) := ToByte_with (entries_of img) img.

Definition ToString (img : I) : Run string :=
  b ← ToByte img; mret (String.string_of_list_byte b).

Definition ToBigEndian_with (entries : option (list (string * any))) (img : I)
  : Run (list byte) :=
  img_bytes ← ToByte_with entries img;
  let msgFr := fr.SetBytes img_bytes in
  let big_endian_bytes_Image := fr.Marshal msgFr in
  mret big_endian_bytes_Image.

Definition ToBigEndian (img : I) : Run (list byte) :=
  ToBigEndian_with (entries_of img) img.

(** The loops visit each cell of the two arrays once, within their bounds. *)
Definition ToFrontendImage (img : I) : FrontendImage :=
  {| Fr_Pixels :=
       (λ row : list RGBPixel, (λ p, {| Fr_R := frontend.int (R p);
                        Fr_G := frontend.int (G p);
                        Fr_B := frontend.int (B p) |}) <$> row) <$> Pixels img |}.

(** [type Z struct]; the integers are [BinNums.Z] from here to the end of
    the module. *)
Record Z (T : Types) : Type := {
  Image : I;
  PublicKey : option (signature_PublicKey T)
}.
Arguments Image {T} _.
Arguments PublicKey {T} _.

End image.

(** [std/signature/eddsa]: the in-circuit signature and public key are kept
    as the curve and the bytes they were assigned from; the zero value is
    unassigned. [Assign] reads the bytes as curve points and a scalar, and
    panics on bytes that are none. The embedding does not read them: it
    keeps the bytes, as those of a key or a signature that was assigned, and
    leaves their reading to the backend, which receives them in the
    circuit. *)
Module eddsa.

Inductive Signature : Type :=
  | no_Signature
  | Signature_of (curveID : Z) (buf : list byte).

Inductive PublicKey : Type :=
  | no_PublicKey
  | PublicKey_of (curveID : Z) (buf : list byte).

End eddsa.

(** [v.(int)]: the integer in the interface, a panic for anything else.
    With [frontend.engine] the value of a gate is an integer, and the
    assertion returns it; on what the APIs of gnark return it panics. *)
Definition assert_int (v : frontend.Var) : Run Z :=
  match v with
  | frontend.int z => mret z
  | frontend.nil => panic "interface conversion: interface {} is nil, not int"
  | frontend.bytes _ => panic "interface conversion: interface {} is []uint8, not int"
  | frontend.big _ => panic "interface conversion: interface {} is *big.Int, not int"
  end.

(** ** Package [transformations] *)
Module transformations.

Definition Identity : Z := 0.
Definition Crop : Z := 1.

(** [Params] is only read: a nil map reads like the empty one. *)
Record Transformation : Type := {
  T : Z;
  Params : gmap string Z
}.

Record CropParams : Type := {
  N : frontend.Var;
  X0 : frontend.Var;
  Y0 : frontend.Var;
  X1 : frontend.Var;
  Y1 : frontend.Var
}.

Record FrTransformation : Type := {
  Fr_T : frontend.Var;
  Fr_Params : CropParams
}.

Definition ToFr (t : Transformation) : FrTransformation :=
  let params := {| N := frontend.nil;
                   X0 := frontend.int (default 0 (Params t !! "x0"));
                   Y0 := frontend.int (default 0 (Params t !! "y0"));
                   X1 := frontend.int (default 0 (Params t !! "x1"));
                   Y1 := frontend.int (default 0 (Params t !! "y1")) |} in
  {| Fr_T := frontend.int (T t); Fr_Params := params |}.

Record IdentityCircuit : Type := {
  Id_PublicKey : eddsa.PublicKey;
  Id_ImageSignature : eddsa.Signature;
  Id_ImageBytes : frontend.Var
}.

Record CropCircuit : Type := {
  PublicKey : eddsa.PublicKey;
  ImageSignature : eddsa.Signature;
  ImageBytes : frontend.Var;
  FrImage : image.FrontendImage;
  CroppedImage_in : image.FrontendImage;
  Crop_Params : CropParams
}.

Record Fr_Location : Type := { X : frontend.Var; Y : frontend.Var }.

Record Fr_SquareArea : Type := {
  topLeft : Fr_Location;
  bottomRight : Fr_Location
}.

Definition InArea (api : frontend.API) (x y : frontend.Var) (area : Fr_SquareArea)
  : frontend.Var :=
  let inCropAreaX :=
    frontend.And api
      (frontend.And api
         (frontend.IsZero api (frontend.Cmp api (X (topLeft area)) x))
         (frontend.IsZero api (frontend.Cmp api x (X (bottomRight area)))))
      (frontend.And api
         (frontend.IsZero api
            (frontend.Add api (frontend.Cmp api (X (topLeft area)) x) (frontend.int 1)))
         (frontend.IsZero api
            (frontend.Add api (frontend.Cmp api x (X (bottomRight area))) (frontend.int 1))))
  in
  let inCropAreaY :=
    frontend.And api
      (frontend.And api
         (frontend.IsZero api (frontend.Cmp api (Y (topLeft area)) y))
         (frontend.IsZero api (frontend.Cmp api y (Y (bottomRight area)))))
      (frontend.And api
         (frontend.IsZero api
            (frontend.Add api (frontend.Cmp api (Y (topLeft area)) y) (frontend.int 1)))
         (frontend.IsZero api
            (frontend.Add api (frontend.Cmp api y (Y (bottomRight area))) (frontend.int 1))))
  in
  let inCropArea := frontend.And api inCropAreaX inCropAreaY in
  inCropArea.

Definition set_R (v : frontend.Var) (p : image.FrontendPixel) : image.FrontendPixel :=
  {| image.Fr_R := v; image.Fr_G := image.Fr_G p; image.Fr_B := image.Fr_B p |}.

Definition set_G (v : frontend.Var) (p : image.FrontendPixel) : image.FrontendPixel :=
  {| image.Fr_R := image.Fr_R p; image.Fr_G := v; image.Fr_B := image.Fr_B p |}.

Definition set_B (v : frontend.Var) (p : image.FrontendPixel) : image.FrontendPixel :=
  {| image.Fr_R := image.Fr_R p; image.Fr_G := image.Fr_G p; image.Fr_B := v |}.

(** The body of the two loops of [CropFrontendImage], at the grid
    coordinate [(x, y)]. *)
Definition CropFrontendImage_at (api : frontend.API)
    (oldImage : image.FrontendImage) (cropArea imageBounds : Fr_SquareArea)
    (blackPixel : image.FrontendPixel) (x y : Z)
    (newImage : image.FrontendImage) : Run image.FrontendImage :=
  let xFr := frontend.int x in
  let yFr := frontend.int y in
  let inCropArea := InArea api xFr yFr cropArea in
  let newXFr := frontend.Sub api xFr (X (topLeft cropArea)) in
  newX ← assert_int newXFr;
  let newYFr := frontend.Sub api xFr (Y (topLeft cropArea)) in
  newY ← assert_int newYFr;
  let inBounds := InArea api newXFr newYFr imageBounds in
  currentPixel ← index2 (image.Fr_Pixels oldImage) x y;
  pixels ← modify2 (image.Fr_Pixels newImage) newX newY
    (set_R (frontend.Select api inBounds
              (frontend.Select api inCropArea
                 (image.Fr_R currentPixel) (image.Fr_R blackPixel))
              (image.Fr_R blackPixel)));
  pixels ← modify2 pixels newX newY
    (set_G (frontend.Select api inBounds
              (frontend.Select api inCropArea
                 (image.Fr_G currentPixel) (image.Fr_G blackPixel))
              (image.Fr_G blackPixel)));
  pixels ← modify2 pixels newX newY
    (set_B (frontend.Select api inBounds
              (frontend.Select api inCropArea
                 (image.Fr_B currentPixel) (image.Fr_B blackPixel))
              (image.Fr_B blackPixel)));
  mret {| image.Fr_Pixels := pixels |}.

Definition CropFrontendImage (circuit : CropCircuit) (api : frontend.API)
  : Run image.FrontendImage :=
  let zero := (frontend.ConstantValue api (frontend.int 0)).1 in
  let one := (frontend.ConstantValue api (frontend.int 1)).1 in
  let N := N (Crop_Params circuit) in
  let N_minus_one := frontend.Sub api N one in
  let blackPixel :=
    {| image.Fr_R := zero; image.Fr_G := zero; image.Fr_B := zero |} in
  let oldImage := FrImage circuit in
  let newImage := image.zero_FrontendImage in
  let cropArea :=
    {| topLeft := {| X := X0 (Crop_Params circuit); Y := Y0 (Crop_Params circuit) |};
       bottomRight := {| X := X1 (Crop_Params circuit); Y := Y1 (Crop_Params circuit) |} |} in
  let imageBounds :=
    {| topLeft := {| X := zero; Y := zero |};
       bottomRight := {| X := N_minus_one; Y := N_minus_one |} |} in
  for_upto image.N (λ y newImage,
    for_upto image.N (λ x newImage,
      CropFrontendImage_at api oldImage cropArea imageBounds blackPixel x y newImage)
      newImage)
    newImage.

End transformations.

(** ** gnark and gnark-crypto *)

(** [frontend.Circuit]: the interface both circuits implement. *)
Inductive Circuit : Type :=
  | crop_circuit (c : transformations.CropCircuit)
  | identity_circuit (c : transformations.IdentityCircuit).

(** The calls into the two libraries. A result of interface type may be nil;
    an [error] is the message [err.Error()] returns, [None] being the nil
    error. The hash handed to [Sign] and [Verify] is always a new
    [hash.MIMC_BN254]; the curve is always BN254.

    The fields are functions: they say what a call returns when it returns.
    [groth16.Setup] does not return on the nil constraint system a failed
    compilation leaves, nor [groth16.Verify] on a nil witness or a nil key:
    [generator.Generator] and [verifier.Verifier] panic there, before the
    field is applied. [prover.Prover] applies the fields to what it has: a
    statement about a proof it returns is about a run in which gnark
    returns. *)
Record Backend (T : Types) : Type := {
  ceddsa_New : Entropy T → option (signature_Signer T) * option string;
  Signer_Public : signature_Signer T → signature_PublicKey T;
  Signer_Sign : signature_Signer T → list byte → list byte * option string;
  PublicKey_Bytes : signature_PublicKey T → list byte;
  PublicKey_Verify :
    signature_PublicKey T → list byte → list byte → bool * option string;
  frontend_NewWitness : Circuit → option (witness_Witness T) * option string;
  frontend_Compile :
    Circuit → option (constraint_ConstraintSystem T) * option string;
  groth16_Setup :
    constraint_ConstraintSystem T →
    option (groth16_ProvingKey T) * option (groth16_VerifyingKey T) * option string;
  groth16_Prove :
    option (constraint_ConstraintSystem T) → option (groth16_ProvingKey T) →
    option (witness_Witness T) → option (groth16_Proof T) * option string;
  groth16_Verify :
    groth16_Proof T → option (groth16_VerifyingKey T) →
    option (witness_Witness T) → option string;
  Witness_Public : witness_Witness T → option (witness_Witness T) * option string
}.
Arguments ceddsa_New {T} _.
Arguments Signer_Public {T} _.
Arguments Signer_Sign {T} _.
Arguments PublicKey_Bytes {T} _.
Arguments PublicKey_Verify {T} _.
Arguments frontend_NewWitness {T} _.
Arguments frontend_Compile {T} _.
Arguments groth16_Setup {T} _.
Arguments groth16_Prove {T} _.
Arguments groth16_Verify {T} _.
Arguments Witness_Public {T} _.

(** The line feed of the Go string literal ["\n"]. *)
Definition nl : string := String (ascii_of_N 10) "".

(** ** Package [generator] *)
Module generator.

Record VK_PP (T : Types) : Type := {
  VerifyingKey : option (groth16_VerifyingKey T);
  VK_PublicKey : option (signature_PublicKey T)
}.
Arguments VerifyingKey {T} _.
Arguments VK_PublicKey {T} _.

Record PK_PP (T : Types) : Type := {
  ProvingKey : option (groth16_ProvingKey T);
  PK_PublicKey : option (signature_PublicKey T)
}.
Arguments ProvingKey {T} _.
Arguments PK_PublicKey {T} _.

Record SK_PP (T : Types) : Type := {
  SecretKey : option (signature_Signer T)
}.
Arguments SecretKey {T} _.

Section generator.
Context {T : Types} (B : Backend T).

(** [rnd] is what this call reads from [rand.Reader]. *)
Definition Sign (img : image.I) (rnd : Entropy T)
  : Run (list byte * signature_PublicKey T * signature_Signer T * list byte) :=
  let '(secretKey, err) := ceddsa_New B rnd in
  print_err "" err "";;
  secretKey ← deref secretKey;
  let publicKey := Signer_Public B secretKey in
  big_endian_bytes_Image ← image.ToBigEndian img;
  let '(normalSignature, err) := Signer_Sign B secretKey big_endian_bytes_Image in
  print_err "" err "";;
  mret (normalSignature, publicKey, secretKey, big_endian_bytes_Image).

Definition Generator (img : image.I) (t : transformations.Transformation)
    (rnd : Entropy T)
  : Run (PK_PP T * VK_PP T * SK_PP T * option string) :=
  '(normalSignature, publicKey, secretKey, big_endian_bytes_Image) ← Sign img rnd;
  let eddsa_signature := eddsa.Signature_of 1 normalSignature in
  let eddsa_publicKey := eddsa.PublicKey_of 1 (PublicKey_Bytes B publicKey) in
  let frT := transformations.ToFr t in
  let frT :=
    if decide (transformations.T t = transformations.Identity) then
      {| transformations.Fr_T := transformations.Fr_T frT;
         transformations.Fr_Params :=
           {| transformations.N := transformations.N (transformations.Fr_Params frT);
              transformations.X0 := frontend.int 0;
              transformations.Y0 := frontend.int 0;
              transformations.X1 := frontend.int (image.N - 1);
              transformations.Y1 := frontend.int (image.N - 1) |} |}
    else frT in
  let circuit :=
    {| transformations.PublicKey := eddsa_publicKey;
       transformations.ImageSignature := eddsa_signature;
       transformations.ImageBytes := frontend.bytes big_endian_bytes_Image;
       transformations.FrImage := image.ToFrontendImage img;
       transformations.CroppedImage_in := image.ToFrontendImage img;
       transformations.Crop_Params := transformations.Fr_Params frT |} in
  let frontendCircuit := crop_circuit circuit in
  let '(compliance_predicate, err) := frontend_Compile B frontendCircuit in
  print_err "" err "";;
  (* [groth16.Setup] switches on the type of the constraint system *)
  compliance_predicate ←
    match compliance_predicate with
    | Some r1cs => mret r1cs
    | None => panic "unrecognized R1CS curve type"
    end;
  let '(provingKey, verifyingKey, err) := groth16_Setup B compliance_predicate in
  print_err "" err "";;
  let vk_PCD := {| VerifyingKey := verifyingKey; VK_PublicKey := Some publicKey |} in
  let pk_PCD := {| ProvingKey := provingKey; PK_PublicKey := Some publicKey |} in
  mret (pk_PCD, vk_PCD, {| SecretKey := Some secretKey |}, err).

End generator.
End generator.

(** ** Package [prover] *)
Module prover.

Record Proof (T : Types) : Type := {
  PCD_proof : option (groth16_Proof T);
  Z : image.Z T;
  ImageSignature : list byte;
  Public_Witness : option (witness_Witness T)
}.
Arguments PCD_proof {T} _.
Arguments Z {T} _.
Arguments ImageSignature {T} _.
Arguments Public_Witness {T} _.

(** [Proof{}] *)
Definition zero_Proof (T : Types) : Proof T :=
  {| PCD_proof := None;
     Z := {| image.Image := image.zero_I; image.PublicKey := None |};
     ImageSignature := [];
     Public_Witness := None |}.

Section prover.
Context {T : Types} (B : Backend T).

(** [proof_in] is passed by value: the pixels the call crops are its own
    copy, the metadata map is the caller's. [rnd] is what [gen.Sign] reads
    from [rand.Reader] in the second branch. *)
Definition Prover (pk_pcd : generator.PK_PP T)
    (verifyingKey : option (groth16_VerifyingKey T))
    (proof_in : Proof T) (t : transformations.Transformation) (rnd : Entropy T)
  : Run (Proof T) :=
  match PCD_proof proof_in with
  | None =>
    let eddsa_signature := eddsa.Signature_of 1 (ImageSignature proof_in) in
    publicKey ← deref (generator.PK_PublicKey pk_pcd);
    let eddsa_publicKey := eddsa.PublicKey_of 1 (PublicKey_Bytes B publicKey) in
    big_endian ← image.ToBigEndian (image.Image (Z proof_in));
    let circuit :=
      {| transformations.PublicKey := eddsa_publicKey;
         transformations.ImageSignature := eddsa_signature;
         transformations.ImageBytes := frontend.bytes big_endian;
         transformations.FrImage := image.ToFrontendImage (image.Image (Z proof_in));
         transformations.CroppedImage_in :=
           image.ToFrontendImage (image.Image (Z proof_in));
         transformations.Crop_Params :=
           transformations.Fr_Params (transformations.ToFr t) |} in
    let frontendCircuit := crop_circuit circuit in
    let '(secret_witness, err) := frontend_NewWitness B frontendCircuit in
    print_err ("Error while creating Witness: " +:+ nl) err
      (nl +:+ "-----------------");;
    let '(compliance_predicate, err) := frontend_Compile B frontendCircuit in
    print_err "" err "";;
    let '(proof_out, err) :=
      groth16_Prove B compliance_predicate (generator.ProvingKey pk_pcd)
        secret_witness in
    print_err ("Error while creating Proof: " +:+ nl) err
      (nl +:+ "-----------------");;
    witness ← deref secret_witness;
    let '(publicWitness, err) := Witness_Public B witness in
    print_err ("Error while creating Public Witness: " +:+ nl) err
      (nl +:+ "-----------------");;
    mret {| PCD_proof := proof_out;
            Z := Z proof_in;
            ImageSignature := ImageSignature proof_in;
            Public_Witness := publicWitness |}
  | Some pcd_proof =>
    if decide (transformations.T t = transformations.Crop
               ∨ transformations.T t = transformations.Identity) then
      let frT := transformations.ToFr t in
      let frT :=
        if decide (transformations.T t = transformations.Identity) then
          {| transformations.Fr_T := transformations.Fr_T frT;
             transformations.Fr_Params :=
               {| transformations.N := transformations.N (transformations.Fr_Params frT);
                  transformations.X0 := frontend.int 0;
                  transformations.Y0 := frontend.int 0;
                  transformations.X1 := frontend.int (image.N - 1);
                  transformations.Y1 := frontend.int (image.N - 1) |} |}
        else frT in
      match groth16_Verify B pcd_proof verifyingKey (Public_Witness proof_in) with
      | Some _ => Println "FAIL: Image did not pass verification against PCD Proof."
      | None => Println "SUCCESS: Image verified against PCD Proof."
      end;;
      let z_in := Z proof_in in
      x0 ← assert_int (transformations.X0 (transformations.Fr_Params frT));
      y0 ← assert_int (transformations.Y0 (transformations.Fr_Params frT));
      x1 ← assert_int (transformations.X1 (transformations.Fr_Params frT));
      y1 ← assert_int (transformations.Y1 (transformations.Fr_Params frT));
      (* the error [Crop] returns is dropped *)
      '(image_out, _) ← image.Crop (image.Image (Z proof_in)) x0 y0 x1 y1;
      (* [z_in] keeps the pixels it copied and sees the map as [Crop] left it *)
      let z_in :=
        {| image.Image := {| image.Pixels := image.Pixels (image.Image z_in);
                             image.M := image.M image_out |};
           image.PublicKey := image.PublicKey z_in |} in
      '(normalSignature, publicKey, _, big_endian_bytes_Image) ←
        generator.Sign B image_out rnd;
      let z_out := {| image.Image := image_out; image.PublicKey := Some publicKey |} in
      let eddsa_signature := eddsa.Signature_of 1 normalSignature in
      let eddsa_publicKey := eddsa.PublicKey_of 1 (PublicKey_Bytes B publicKey) in
      let circuit :=
        {| transformations.PublicKey := eddsa_publicKey;
           transformations.ImageSignature := eddsa_signature;
           transformations.ImageBytes := frontend.bytes big_endian_bytes_Image;
           transformations.FrImage := image.ToFrontendImage (image.Image z_in);
           transformations.CroppedImage_in :=
             image.ToFrontendImage (image.Image z_out);
           transformations.Crop_Params := transformations.Fr_Params frT |} in
      let frontendCircuit := crop_circuit circuit in
      let '(secret_witness, err) := frontend_NewWitness B frontendCircuit in
      print_err ("Error while creating Witness: " +:+ nl) err
        (nl +:+ "-----------------");;
      let '(compliance_predicate, err) := frontend_Compile B frontendCircuit in
      print_err "" err "";;
      let '(proof_out, err) :=
        groth16_Prove B compliance_predicate (generator.ProvingKey pk_pcd)
          secret_witness in
      print_err ("Error while creating Proof: " +:+ nl) err
        (nl +:+ "-----------------");;
      witness ← deref secret_witness;
      let '(publicWitness, err) := Witness_Public B witness in
      print_err ("Error while creating Public Witness: " +:+ nl) err
        (nl +:+ "-----------------");;
      mret {| PCD_proof := proof_out;
              Z := z_out;
              ImageSignature := [];
              Public_Witness := publicWitness |}
    else mret (zero_Proof T)
  end.

End prover.
End prover.

(** ** Package [prover], the earlier revision kept in the repository

    It proves the base case with [IdentityCircuit] and takes the image apart
    from the proof. *)
Module prover0.

Record Proof (T : Types) : Type := {
  PCD_proof : option (groth16_Proof T);
  Z_in : image.Z T;
  Digital_Sig : list byte;
  Public_Witness : option (witness_Witness T)
}.
Arguments PCD_proof {T} _.
Arguments Z_in {T} _.
Arguments Digital_Sig {T} _.
Arguments Public_Witness {T} _.

Definition zero_Z (T : Types) : image.Z T :=
  {| image.Image := image.zero_I; image.PublicKey := None |}.

Definition zero_Proof (T : Types) : Proof T :=
  {| PCD_proof := None;
     Z_in := zero_Z T;
     Digital_Sig := [];
     Public_Witness := None |}.

Section prover0.
Context {T : Types} (B : Backend T).

Definition Prover (pk_pcd : generator.PK_PP T) (z_in : image.Z T)
    (proof_in : Proof T) (t : transformations.Transformation)
  : Run (Proof T * image.Z T) :=
  match PCD_proof proof_in with
  | None =>
    let eddsa_signature := eddsa.Signature_of 1 (Digital_Sig proof_in) in
    publicKey ← deref (generator.PK_PublicKey pk_pcd);
    let eddsa_publicKey := eddsa.PublicKey_of 1 (PublicKey_Bytes B publicKey) in
    big_endian ← image.ToBigEndian (image.Image z_in);
    let circuit :=
      {| transformations.Id_PublicKey := eddsa_publicKey;
         transformations.Id_ImageSignature := eddsa_signature;
         transformations.Id_ImageBytes := frontend.bytes big_endian |} in
    let frontendCircuit := identity_circuit circuit in
    let '(secret_witness, err) := frontend_NewWitness B frontendCircuit in
    print_err ("Error while creating Witness: " +:+ nl) err
      (nl +:+ "-----------------");;
    let '(compliance_predicate, err) := frontend_Compile B frontendCircuit in
    print_err "" err "";;
    let '(proof_out, _) :=
      groth16_Prove B compliance_predicate (generator.ProvingKey pk_pcd)
        secret_witness in
    witness ← deref secret_witness;
    let '(publicWitness, err) := Witness_Public B witness in
    print_err ("Error while creating Public Witness: " +:+ nl) err
      (nl +:+ "-----------------");;
    mret ({| PCD_proof := proof_out;
             Z_in := z_in;
             Digital_Sig := [];
             Public_Witness := publicWitness |}, z_in)
  | Some _ => mret (zero_Proof T, zero_Z T)
  end.

End prover0.
End prover0.

(** ** Package [verifier] *)
Module verifier.
Section verifier.
Context {T : Types} (B : Backend T).

Definition Verifier (vk_pp : generator.VK_PP T) (proof : prover.Proof T) : Run bool :=
  match prover.PCD_proof proof with
  | None =>
    msg ← image.ToByte (image.Image (prover.Z proof));
    let msgFr := fr.SetBytes msg in
    let msg := fr.Marshal msgFr in
    publicKey ← deref (generator.VK_PublicKey vk_pp);
    let '(isVerified, err) :=
      PublicKey_Verify B publicKey (prover.ImageSignature proof) msg in
    print_err "" err "";;
    if isVerified then
      Println "SUCCESS: Image verified against original image's Digital Signature.";;
      mret true
    else
      Println "FAIL: Image did not pass verification against original image's Digital Signature.";;
      mret false
  | Some pcd_proof =>
    (* [groth16.Verify] reads the vector of the witness, then asserts the
       type of the key *)
    publicWitness ← deref (prover.Public_Witness proof);
    verifyingKey ←
      match generator.VerifyingKey vk_pp with
      | Some vk => mret vk
      | None =>
          panic "interface conversion: groth16.VerifyingKey is nil, not *groth16.VerifyingKey"
      end;
    match groth16_Verify B pcd_proof (Some verifyingKey) (Some publicWitness) with
    | Some _ =>
      Println "FAIL: Image did not pass verification against PCD Proof.";;
      mret false
    | None =>
      Println "SUCCESS: Image verified against PCD Proof.";;
      mret true
    end
  end.

End verifier.
End verifier.

(** ** Package [editor] *)
Module editor.
Section editor.
Context {T : Types} (B : Backend T).

Definition EditorCrop (pk_pcd : generator.PK_PP T)
    (verifyingKey : option (groth16_VerifyingKey T)) (proof : prover.Proof T)
    (params : gmap string Z) (rnd : Entropy T) : Run (prover.Proof T) :=
  prover.Prover B pk_pcd verifyingKey proof
    {| transformations.T := transformations.Crop;
       transformations.Params := params |} rnd.

End editor.
End editor.

(** ** Package [image], the earlier revision kept in the repository

    It has the same [I], [SetPixel] and [GetPixel]; its [Crop] blackens the
    pixels outside the rectangle where they are: nothing moves, the bounds
    are those of the grid, and the metadata is not read. [SetPixel] checks
    its indices, so the loops neither print nor panic. *)
Module image0.

Definition Crop (img : image.I) (x0 y0 x1 y1 : Z) : image.I * option string :=
  if decide (x0 < 0 ∨ y0 < 0 ∨ x1 >= image.N ∨ y1 >= image.N ∨ x0 > x1 ∨ y0 > y1)
  then (img, Some "invalid crop dimensions")
  else
    let img :=
      foldl (λ img y,
        foldl (λ img x,
          if decide (x < x0 ∨ x > x1 ∨ y < y0 ∨ y > y1)
          then image.SetPixel img x y {| image.R := 0; image.G := 0; image.B := 0 |}
          else img)
          img (seqZ 0 image.N))
        img (seqZ 0 image.N) in
    (img, None).

End image0.

(** ** Package [image], the method that calls the signer

    [func (img *I) Sign(secretKey signature.Signer) []byte]. A nil signer
    makes the call panic; the argument [img.ToBigEndian()] is evaluated
    before that, so what the encoding prints comes first. *)
Module image_signing.
Section image_signing.
Context {T : Types} (B : Backend T).

Definition Sign (img : image.I) (secretKey : option (signature_Signer T))
  : Run (list byte) :=
  big_endian ← image.ToBigEndian img;
  secretKey ← deref secretKey;
  let '(signature, err) := Signer_Sign B secretKey big_endian in
  print_err "Error while signing image: " err "";;
  mret signature.

End image_signing.
End image_signing.

(** ** Package [camera]

    The camera is the receiver the methods update; a method returns the
    camera as it leaves it. [CameraGenerator] formats the keys of gnark
    with [fmt.Printf] and is not part of the embedding. *)
Module camera.

Record SecureCamera (T : Types) : Type := {
  secretKey : generator.SK_PP T;
  provingKey : generator.PK_PP T;
  verifyingKey : generator.VK_PP T;
  picture : image.I
}.
Arguments secretKey {T} _.
Arguments provingKey {T} _.
Arguments verifyingKey {T} _.
Arguments picture {T} _.

(** [camera.SecureCamera{}] *)
Definition zero_SecureCamera (T : Types) : SecureCamera T :=
  {| secretKey := {| generator.SecretKey := None |};
     provingKey := {| generator.ProvingKey := None; generator.PK_PublicKey := None |};
     verifyingKey :=
       {| generator.VerifyingKey := None; generator.VK_PublicKey := None |};
     picture := image.zero_I |}.

Definition TakePicture {T} (cam : SecureCamera T) : SecureCamera T :=
  {| secretKey := secretKey cam;
     provingKey := provingKey cam;
     verifyingKey := verifyingKey cam;
     picture := image.AllWhiteImage |}.

Section camera.
Context {T : Types} (B : Backend T).

(** [rnd] is handed on to [Prover], which reads it in its second branch
    only. *)
Definition CameraProver (cam : SecureCamera T) (rnd : Entropy T)
  : Run (prover.Proof T) :=
  signedImage ←
    image_signing.Sign B (picture cam) (generator.SecretKey (secretKey cam));
  let z := {| image.Image := picture cam;
              image.PublicKey := generator.PK_PublicKey (provingKey cam) |} in
  let proof := {| prover.PCD_proof := None;
                  prover.Z := z;
                  prover.ImageSignature := signedImage;
                  prover.Public_Witness := None |} in
  prover.Prover B (provingKey cam) (generator.VerifyingKey (verifyingKey cam)) proof
    {| transformations.T := transformations.Identity;
       transformations.Params := ∅ |} rnd.

End camera.
End camera.

(** * Vocabulary of the statements *)

(** ** Arrays as functions of their indices *)

(** [cells a f]: the array [a] has its [N] by [N] cells, and [f i j] is the
    cell [a[i][j]]. *)
Definition cells {A} (a : list (list A)) (f : Z → Z → A) : Prop :=
  image.wf_array a ∧
  ∀ i j, 0 ≤ i < image.N → 0 ≤ j < image.N → at2 a i j = Some (f i j).

(** [f] after the assignment [a[i][j] = v]. *)
Definition upd {A} (f : Z → Z → A) (i j : Z) (v : A) : Z → Z → A :=
  λ i' j', if decide (i' = i ∧ j' = j) then v else f i' j'.

(** The pixels [Crop] leaves: the rectangle moved to the top left corner,
    black around it. *)
Definition cropped (f : Z → Z → image.RGBPixel) (x0 y0 x1 y1 : Z)
  : Z → Z → image.RGBPixel :=
  λ i j, if decide (i < y1 - y0 + 1 ∧ j < x1 - x0 + 1) then f (y0 + i) (x0 + j)
         else image.zero_RGBPixel.

(** The width and the height the metadata records, where it records them as
    [int], do not exceed the grid: an image is never larger than [N] by [N]. *)
Definition dims_within (img : image.I) : Prop :=
  ∀ key n, key = "width" ∨ key = "height" →
    image.M_lookup img key = Some (image.int_ n) → n ≤ image.N.

(** ** Circuits *)

Definition Fr_of (p : image.RGBPixel) : image.FrontendPixel :=
  {| image.Fr_R := frontend.int (image.R p);
     image.Fr_G := frontend.int (image.G p);
     image.Fr_B := frontend.int (image.B p) |}.

Definition Fr_black : image.FrontendPixel :=
  {| image.Fr_R := frontend.int 0; image.Fr_G := frontend.int 0;
     image.Fr_B := frontend.int 0 |}.

(** The rectangle with corners [(x0, y0)] and [(x1, y1)]. *)
Definition area (x0 y0 x1 y1 : Z) : transformations.Fr_SquareArea :=
  {| transformations.topLeft :=
       {| transformations.X := frontend.int x0; transformations.Y := frontend.int y0 |};
     transformations.bottomRight :=
       {| transformations.X := frontend.int x1; transformations.Y := frontend.int y1 |} |}.

(** The assignment both branches of [Prover] and [Generator] give to the
    Crop circuit. *)
Definition crop_witness (publicKey signature big_endian : list byte)
    (pre post : image.I) (params : transformations.CropParams) : Circuit :=
  crop_circuit
    {| transformations.PublicKey := eddsa.PublicKey_of 1 publicKey;
       transformations.ImageSignature := eddsa.Signature_of 1 signature;
       transformations.ImageBytes := frontend.bytes big_endian;
       transformations.FrImage := image.ToFrontendImage pre;
       transformations.CroppedImage_in := image.ToFrontendImage post;
       transformations.Crop_Params := params |}.

(** The assignment of the Identity circuit: a signature, the key it is
    checked under, and the bytes it signs. *)
Definition identity_witness (publicKey signature big_endian : list byte) : Circuit :=
  identity_circuit
    {| transformations.Id_PublicKey := eddsa.PublicKey_of 1 publicKey;
       transformations.Id_ImageSignature := eddsa.Signature_of 1 signature;
       transformations.Id_ImageBytes := frontend.bytes big_endian |}.

(** [Crop(0, 0, N-1, N-1)] *)
Definition full_bounds : transformations.Transformation :=
  {| transformations.T := transformations.Crop;
     transformations.Params :=
       <["x0" := 0]> (<["y0" := 0]> (<["x1" := image.N - 1]>
         (<["y1" := image.N - 1]> ∅))) |}.

(** ** Runs *)

(** The value a run returns, [d] if it panics. *)
Definition returned {A} (d : A) (m : Run A) : A :=
  match res m with Ret a => a | Panic _ => d end.

(** [entries] is an order in which a run may enumerate the metadata of
    [img]: Go fixes no order for the entries of a map. *)
Definition enumerates (img : image.I) (entries : option (list (string * image.any)))
  : Prop :=
  match image.M img, entries with
  | Some m, Some l => l ≡ₚ map_to_list m
  | None, None => True
  | _, _ => False
  end.

(** ** Backends *)

(** [B] with another [groth16.Verify]. *)
Definition with_Verify {T} (B : Backend T)
    (verify : groth16_Proof T → option (groth16_VerifyingKey T) →
              option (witness_Witness T) → option string) : Backend T :=
  {| ceddsa_New := ceddsa_New B;
     Signer_Public := Signer_Public B;
     Signer_Sign := Signer_Sign B;
     PublicKey_Bytes := PublicKey_Bytes B;
     PublicKey_Verify := PublicKey_Verify B;
     frontend_NewWitness := frontend_NewWitness B;
     frontend_Compile := frontend_Compile B;
     groth16_Setup := groth16_Setup B;
     groth16_Prove := groth16_Prove B;
     groth16_Verify := verify;
     Witness_Public := Witness_Public B |}.

(** [B] where every circuit proof verifies. *)
Definition accepting {T} (B : Backend T) : Backend T :=
  with_Verify B (λ _ _ _, None).

(** The verdict of the cryptographic check the Verifier dispatches to: the
    plain signature over the canonical bytes of the image when the proof
    carries no circuit proof, the circuit proof against the verifying key
    and the public witness when it does. It is the verdict of the Verifier
    where the key, and the witness, the check reads are there. *)
Definition verdict {T} (B : Backend T) (vk_pp : generator.VK_PP T)
    (publicKey : signature_PublicKey T) (proof : prover.Proof T) : bool :=
  match prover.PCD_proof proof with
  | None =>
      (PublicKey_Verify B publicKey (prover.ImageSignature proof)
         (returned [] (image.ToBigEndian (image.Image (prover.Z proof))))).1
  | Some pcd_proof =>
      bool_decide (groth16_Verify B pcd_proof (generator.VerifyingKey vk_pp)
                     (prover.Public_Witness proof) = None)
  end.

(** ** Inputs that run *)

(** Bytes of the sizes the libraries write: a compressed point of the
    curve has 32 bytes, a signature a point and a scalar. These are the
    neutral point, and the neutral point with the scalar 0. *)
Definition sample_key_bytes : list byte := x01 :: replicate 31 x00.

Definition sample_signature : list byte := sample_key_bytes ++ replicate 32 x00.

(** A backend small enough to evaluate: every opaque value is [tt];
    compilation and proof verification succeed or fail as the two flags
    say. *)
Definition sample_Types : Types :=
  {| signature_PublicKey := unit; signature_Signer := unit;
     groth16_ProvingKey := unit; groth16_VerifyingKey := unit;
     groth16_Proof := unit; witness_Witness := unit;
     constraint_ConstraintSystem := unit; Entropy := unit |}.

Definition sample_Backend (compiles verifies : bool) : Backend sample_Types :=
  Build_Backend sample_Types
    (* ceddsa_New *) (λ _, (Some tt, None))
    (* Signer_Public *) (λ _, tt)
    (* Signer_Sign *) (λ _ _, (sample_signature, None))
    (* PublicKey_Bytes *) (λ _, sample_key_bytes)
    (* PublicKey_Verify *) (λ _ _ _, (verifies, None))
    (* frontend_NewWitness *) (λ _, (Some tt, None))
    (* frontend_Compile *)
    (λ _, if compiles then (Some tt, None) else (None, Some "compile failed"))
    (* groth16_Setup *) (λ _, (Some tt, Some tt, None))
    (* groth16_Prove *) (λ _ _ _, (Some tt, None))
    (* groth16_Verify *)
    (λ _ _ _, if verifies then None else Some "pairing check failed")
    (* Witness_Public *) (λ _, (Some tt, None)).

Definition sample_PK : generator.PK_PP sample_Types :=
  generator.Build_PK_PP sample_Types (Some tt) (Some tt).

Definition sample_VK : generator.VK_PP sample_Types :=
  generator.Build_VK_PP sample_Types (Some tt) (Some tt).

Definition sample_Z : image.Z sample_Types :=
  image.Build_Z sample_Types image.AllWhiteImage (Some tt).

(** A proof in the first state: image and signature, no circuit proof. *)
Definition signed_proof : prover.Proof sample_Types :=
  prover.Build_Proof sample_Types None sample_Z sample_signature None.

(** A proof in the second state: it carries a circuit proof. *)
Definition proven_proof : prover.Proof sample_Types :=
  prover.Build_Proof sample_Types (Some tt) sample_Z [] (Some tt).

Definition crop_of (x0 y0 x1 y1 : Z) : transformations.Transformation :=
  {| transformations.T := transformations.Crop;
     transformations.Params :=
       <["x0" := x0]> (<["y0" := y0]> (<["x1" := x1]> (<["y1" := y1]> ∅))) |}.

(** The Identity transformation as the camera passes it. *)
Definition identity_t : transformations.Transformation :=
  {| transformations.T := transformations.Identity; transformations.Params := ∅ |}.

(** The Crop circuit over the all-white image, with [N] set. *)
Definition white_circuit (x0 y0 x1 y1 : Z) : transformations.CropCircuit :=
  {| transformations.PublicKey := eddsa.no_PublicKey;
     transformations.ImageSignature := eddsa.no_Signature;
     transformations.ImageBytes := frontend.nil;
     transformations.FrImage := image.ToFrontendImage image.AllWhiteImage;
     transformations.CroppedImage_in := image.ToFrontendImage image.AllWhiteImage;
     transformations.Crop_Params :=
       {| transformations.N := frontend.int image.N;
          transformations.X0 := frontend.int x0;
          transformations.Y0 := frontend.int y0;
          transformations.X1 := frontend.int x1;
          transformations.Y1 := frontend.int y1 |} |}.

(** Black on the diagonal, unset everywhere else. *)
Definition black_diagonal : image.FrontendImage :=
  {| image.Fr_Pixels :=
       (λ i, (λ j, if decide (i = j) then Fr_black else image.zero_FrontendPixel)
               <$> seqZ 0 image.N) <$> seqZ 0 image.N |}.

(** The all-white image with a recorded size beyond the grid, which no
    image of the data model has. *)
Definition oversized : image.I :=
  image.M_store (image.M_store image.AllWhiteImage "width" (image.int_ 20))
    "height" (image.int_ 20).

(** ** Vocabulary of the further properties *)

(** The pixels the earlier [Crop] leaves: the rectangle where it was, black
    around it. *)
Definition masked (f : Z → Z → image.RGBPixel) (x0 y0 x1 y1 : Z)
  : Z → Z → image.RGBPixel :=
  λ i j, if decide (x0 ≤ j ≤ x1 ∧ y0 ≤ i ≤ y1) then f i j else image.zero_RGBPixel.

(** A parameter as [ToFr] reads it: 0 when the map has no such key. *)
Definition param (t : transformations.Transformation) (key : string) : Z :=
  default 0 (transformations.Params t !! key).

(** The nil pointer dereference of the Go runtime. *)
Definition nil_dereference : string :=
  "invalid memory address or nil pointer dereference".

(** The line the Verifier ends its report with: which check it ran, and
    the verdict. *)
Definition report (pcd ok : bool) : string :=
  match pcd, ok with
  | false, true => "SUCCESS: Image verified against original image's Digital Signature."
  | false, false =>
      "FAIL: Image did not pass verification against original image's Digital Signature."
  | true, true => "SUCCESS: Image verified against PCD Proof."
  | true, false => "FAIL: Image did not pass verification against PCD Proof."
  end.

(** A proof in the first state: the image [img] and a signature. *)
Definition signed {T} (img : image.I) (publicKey : option (signature_PublicKey T))
    (signature : list byte) : prover.Proof T :=
  {| prover.PCD_proof := None;
     prover.Z := {| image.Image := img; image.PublicKey := publicKey |};
     prover.ImageSignature := signature;
     prover.Public_Witness := None |}.

(** [B] with another key generation, another [frontend.NewWitness]. *)
Definition with_New {T} (B : Backend T)
    (new : Entropy T → option (signature_Signer T) * option string) : Backend T :=
  {| ceddsa_New := new;
     Signer_Public := Signer_Public B;
     Signer_Sign := Signer_Sign B;
     PublicKey_Bytes := PublicKey_Bytes B;
     PublicKey_Verify := PublicKey_Verify B;
     frontend_NewWitness := frontend_NewWitness B;
     frontend_Compile := frontend_Compile B;
     groth16_Setup := groth16_Setup B;
     groth16_Prove := groth16_Prove B;
     groth16_Verify := groth16_Verify B;
     Witness_Public := Witness_Public B |}.

Definition with_NewWitness {T} (B : Backend T)
    (newWitness : Circuit → option (witness_Witness T) * option string) : Backend T :=
  {| ceddsa_New := ceddsa_New B;
     Signer_Public := Signer_Public B;
     Signer_Sign := Signer_Sign B;
     PublicKey_Bytes := PublicKey_Bytes B;
     PublicKey_Verify := PublicKey_Verify B;
     frontend_NewWitness := newWitness;
     frontend_Compile := frontend_Compile B;
     groth16_Setup := groth16_Setup B;
     groth16_Prove := groth16_Prove B;
     groth16_Verify := groth16_Verify B;
     Witness_Public := Witness_Public B |}.

(** A crop given without "y0" and with an entry the Prover does not know. *)
Definition sparse_crop : transformations.Transformation :=
  {| transformations.T := transformations.Crop;
     transformations.Params :=
       <["x0" := 3]> (<["x1" := 6]> (<["y1" := 6]> (<["angle" := 90]> ∅))) |}.

(** [proven_proof] with its image replaced by the image without pixels or
    metadata, its key removed and a signature put in. *)
Definition forged_proof : prover.Proof sample_Types :=
  prover.Build_Proof sample_Types (Some tt)
    (image.Build_Z sample_Types image.zero_I None) [x07] (Some tt).

(** The sample backend when no key pair can be made, and when no witness
    can. *)
Definition keyless_Backend : Backend sample_Types :=
  with_New (sample_Backend true true) (λ _, (None, Some "no entropy")).

Definition witnessless_Backend : Backend sample_Types :=
  with_NewWitness (sample_Backend true true)
    (λ _, (None, Some "witness is missing an assignment")).

(** The all-white image with a metadata value [json.Marshal] refuses. *)
Definition unencodable : image.I :=
  image.M_store image.AllWhiteImage "Sensor"
    (image.other (inr "json: unsupported type: chan int")).

Definition px (r g b : Z) : image.RGBPixel :=
  {| image.R := r; image.G := g; image.B := b |}.

(** A picture with the given first two rows, gray below, and the metadata
    of [AllWhiteImage]. *)
Definition picture (first_rows : list image.RGBPixel) : image.I :=
  {| image.Pixels :=
       take 16 first_rows :: drop 16 first_rows
         :: replicate 14 (replicate 16 (px 155 155 155));
     image.M := image.M image.AllWhiteImage |}.

(** Two pictures whose encodings differ by a multiple of the modulus. *)
Definition first_rows_a : list image.RGBPixel :=
  [px 184 168 158; px 193 136 158; px 127 166 141; px 166 166 137;
   px 157 154 136; px 116 169 159; px 122 144 135; px 166 192 136;
   px 182 153 164; px 195 146 187; px 156 174 126; px 166 135 145;
   px 165 156 144; px 155 156 155; px 155 165 155; px 155 155 155;
   px 155 155 155; px 155 156 155; px 155 165 155; px 155 155 155;
   px 155 155 155; px 155 155 155; px 155 155 155; px 155 155 155;
   px 155 155 155; px 155 155 155; px 155 155 155; px 155 155 155;
   px 155 155 155; px 155 155 155; px 155 155 155; px 155 155 158].

Definition first_rows_b : list image.RGBPixel :=
  [px 136 153 152; px 118 174 152; px 184 155 179; px 144 144 174;
   px 164 157 175; px 195 152 152; px 198 176 176; px 144 118 175;
   px 128 158 147; px 115 174 134; px 164 136 194; px 155 176 166;
   px 145 165 166; px 155 155 156; px 155 155 155; px 155 155 155;
   px 155 155 155; px 155 155 155; px 155 155 155; px 155 155 155;
   px 155 155 155; px 155 155 155; px 155 155 155; px 155 155 155;
   px 155 155 155; px 155 155 155; px 155 155 155; px 155 155 155;
   px 155 155 155; px 155 155 155; px 155 155 155; px 155 155 153].

(** ** What gnark asks of an assignment *)

Definition unset (v : frontend.Var) : bool :=
  match v with
  | frontend.nil => true
  | _ => false
  end.

(** The key and the signature of a circuit hold variables that [Assign]
    sets together: each stands here for one variable, nil until assigned. *)
Definition key_variable (k : eddsa.PublicKey) : frontend.Var :=
  match k with
  | eddsa.no_PublicKey => frontend.nil
  | eddsa.PublicKey_of _ buf => frontend.bytes buf
  end.

Definition signature_variable (s : eddsa.Signature) : frontend.Var :=
  match s with
  | eddsa.no_Signature => frontend.nil
  | eddsa.Signature_of _ buf => frontend.bytes buf
  end.

Definition pixel_variables (img : image.FrontendImage) : list frontend.Var :=
  flat_map (λ p, [image.Fr_R p; image.Fr_G p; image.Fr_B p])
    (concat (image.Fr_Pixels img)).

Definition parameter_variables (p : transformations.CropParams) : list frontend.Var :=
  [transformations.N p; transformations.X0 p; transformations.Y0 p;
   transformations.X1 p; transformations.Y1 p].

(** The variables of a circuit, in the order of its fields. *)
Definition variables (c : Circuit) : list frontend.Var :=
  match c with
  | crop_circuit c =>
      [key_variable (transformations.PublicKey c);
       signature_variable (transformations.ImageSignature c);
       transformations.ImageBytes c]
      ++ pixel_variables (transformations.FrImage c)
      ++ pixel_variables (transformations.CroppedImage_in c)
      ++ parameter_variables (transformations.Crop_Params c)
  | identity_circuit c =>
      [key_variable (transformations.Id_PublicKey c);
       signature_variable (transformations.Id_ImageSignature c);
       transformations.Id_ImageBytes c]
  end.

(** An assignment misses a variable when it leaves one nil. *)
Definition missing_assignment (c : Circuit) : bool := existsb unset (variables c).

(** The rule of gnark's [frontend.NewWitness]: for an assignment that
    misses a variable it returns an error and the nil witness. *)
Definition wants_every_variable {T} (B : Backend T) : Prop :=
  ∀ c, missing_assignment c = true → (frontend_NewWitness B c).1 = None.

(** The sample backend with that rule. *)
Definition strict_Backend : Backend sample_Types :=
  with_NewWitness (sample_Backend true true)
    (λ c, if missing_assignment c then (None, Some "missing assignment")
          else (Some tt, None)).

(** The rectangle of an assignment, as text. *)
Definition rectangle_of (p : transformations.CropParams) : string :=
  String.concat ","
    ((λ v, match v with frontend.int z => json.num z | _ => "?" end)
       <$> [transformations.X0 p; transformations.Y0 p;
            transformations.X1 p; transformations.Y1 p]).

(** The sample backend whose [NewWitness] refuses every assignment of the
    Crop circuit and names its rectangle in the error. *)
Definition telling_Backend : Backend sample_Types :=
  with_NewWitness (sample_Backend true true)
    (λ c, match c with
          | crop_circuit c =>
              (None, Some ("N is not assigned; the rectangle is "
                           +:+ rectangle_of (transformations.Crop_Params c)))
          | identity_circuit _ => (Some tt, None)
          end).

(** The line [Prover] prints for the error of [frontend.NewWitness]. *)
Definition witness_error (e : string) : string :=
  ("Error while creating Witness: " +:+ nl) +:+ e +:+ (nl +:+ "-----------------").

(** The caller's rectangle, as [ToFr] reads it, [N] left unset. *)
Definition rectangle_of_caller (t : transformations.Transformation)
  : transformations.CropParams :=
  {| transformations.N := frontend.nil;
     transformations.X0 := frontend.int (param t "x0");
     transformations.Y0 := frontend.int (param t "y0");
     transformations.X1 := frontend.int (param t "x1");
     transformations.Y1 := frontend.int (param t "y1") |}.

(** A proof that carries a circuit proof and no public witness. *)
Definition unwitnessed_proof : prover.Proof sample_Types :=
  prover.Build_Proof sample_Types (Some tt) sample_Z [] None.

(** * Properties *)

(** ** Runs *)

Lemma bind_mret {A B} (a : A) (f : A → Run B) : mret a ≫= f = f a.
Proof. cbn. destruct (f a); reflexivity. Qed.

Lemma res_bind {A B} (m : Run A) (f : A → Run B) :
  res (m ≫= f) = match res m with Ret a => res (f a) | Panic msg => Panic msg end.
Proof.
  destruct m as [l [a|msg]]; cbn; [|reflexivity].
  destruct (f a); reflexivity.
Qed.

Lemma res_bind_Ret {A B} (m : Run A) (k : A → Run B) a :
  res m = Ret a → res (m ≫= k) = res (k a).
Proof. intros H. by rewrite res_bind, H. Qed.

Lemma res_Println_bind {A} s (k : unit → Run A) : res (Println s ≫= k) = res (k tt).
Proof. cbn. destruct (k tt); reflexivity. Qed.

Lemma lines_Println_bind {A} s (k : unit → Run A) :
  lines (Println s ≫= k) = s :: lines (k tt).
Proof. cbn. destruct (k tt); reflexivity. Qed.

Lemma res_print_err_bind {A} p e s (k : unit → Run A) :
  res (print_err p e s ≫= k) = res (k tt).
Proof. destruct e; [apply res_Println_bind|]. unfold print_err. by rewrite bind_mret. Qed.

Lemma bind_run {A B} (l : list string) (a : A) (f : A → Run B) :
  (l, Ret a) ≫= f = (l ++ lines (f a), res (f a)).
Proof. cbn. by destruct (f a). Qed.

Lemma run_eta {A} (m : Run A) : m = (lines m, res m).
Proof. by destruct m. Qed.

Lemma lines_bind_Ret {A B} (m : Run A) (f : A → Run B) a :
  res m = Ret a → lines (m ≫= f) = lines m ++ lines (f a).
Proof. destruct m as [l r]. cbn. intros ->. by destruct (f a). Qed.

Lemma lines_print_err_bind {A} p e s (k : unit → Run A) :
  lines (print_err p e s ≫= k) = lines (print_err p e s) ++ lines (k tt).
Proof. apply lines_bind_Ret. by destruct e. Qed.

Lemma append_empty_r (s : string) : s +:+ "" = s.
Proof.
  induction s as [|c s IH]; [done|].
  change (String c (s +:+ "") = String c s). by rewrite IH.
Qed.

(** A loop whose first round panics. *)
Lemma for_range_first_panics {St} start c (body : Z → St → Run St) s msg :
  body start s = panic msg → for_range start (S c) body s = panic msg.
Proof. intros H. cbn [for_range]. by rewrite H. Qed.

(** Reporting a verdict does not change what follows. *)
Lemma res_report_bind {A} (o : option string) a b (k : unit → Run A) :
  res (match o with Some _ => Println a | None => Println b end ≫= k) = res (k tt).
Proof. destruct o; apply res_Println_bind. Qed.

(** A loop keeps an invariant its body keeps, and ends, when the body
    neither prints nor panics under the invariant. *)
Lemma for_range_inv {St} (P : Z → St → Prop) (body : Z → St → Run St) count start s :
  P start s →
  (∀ i t, start ≤ i < start + Z.of_nat count → P i t →
          ∃ t', body i t = mret t' ∧ P (i + 1) t') →
  ∃ s', for_range start count body s = mret s' ∧ P (start + Z.of_nat count) s'.
Proof.
  revert start s. induction count as [|c IH]; intros start s Hs Hbody.
  - exists s. split; [reflexivity|]. by replace (start + Z.of_nat 0) with start by lia.
  - destruct (Hbody start s) as (t & Ht & HP); [lia|done|].
    destruct (IH (start + 1) t) as (s' & Hs' & HP'); [done| |].
    + intros i u Hi. apply Hbody. lia.
    + exists s'. split.
      * cbn [for_range]. rewrite Ht, bind_mret. done.
      * by replace (start + Z.of_nat (S c)) with (start + 1 + Z.of_nat c) by lia.
Qed.

Lemma for_upto_inv {St} (P : Z → St → Prop) (body : Z → St → Run St) n s :
  0 ≤ n → P 0 s →
  (∀ i t, 0 ≤ i < n → P i t → ∃ t', body i t = mret t' ∧ P (i + 1) t') →
  ∃ s', for_upto n body s = mret s' ∧ P n s'.
Proof.
  intros Hn Hs Hbody. unfold for_upto.
  destruct (for_range_inv P body (Z.to_nat n) 0 s) as (s' & ? & ?); [done| |].
  - intros i t Hi. apply Hbody. lia.
  - exists s'. split; [done|]. by replace n with (0 + Z.of_nat (Z.to_nat n)) by lia.
Qed.

(** ** Arrays *)

Lemma at1_lookup {A} (a : list A) i :
  0 ≤ i < Z.of_nat (length a) → at1 a i = a !! Z.to_nat i.
Proof. intros. unfold at1. by rewrite decide_True. Qed.

Lemma at1_None {A} (a : list A) i :
  ¬ 0 ≤ i < Z.of_nat (length a) → at1 a i = None.
Proof. intros. unfold at1. by rewrite decide_False. Qed.

Lemma at1_is_Some {A} (a : list A) i :
  0 ≤ i < Z.of_nat (length a) → is_Some (at1 a i).
Proof. intros. rewrite at1_lookup by done. apply lookup_lt_is_Some. lia. Qed.

Lemma wf_array_row {A} (a : list (list A)) i row :
  image.wf_array a → at1 a i = Some row → length row = Z.to_nat image.N.
Proof.
  intros [_ Hrows] Hi. unfold at1 in Hi. case_decide; [|done].
  by eapply (Forall_lookup_1 _ _ _ _ Hrows).
Qed.

Lemma cells_ext {A} (a : list (list A)) f g :
  (∀ i j, 0 ≤ i < image.N → 0 ≤ j < image.N → f i j = g i j) →
  cells a f → cells a g.
Proof. intros Hfg [Hwf Hf]. split; [done|]. intros i j ??. rewrite Hf, Hfg; done. Qed.

Lemma cells_index {A} (a : list (list A)) f i j :
  cells a f → 0 ≤ i < image.N → 0 ≤ j < image.N → index2 a i j = mret (f i j).
Proof. intros [_ Hf] ??. unfold index2. by rewrite Hf. Qed.

Lemma cells_modify {A} (a : list (list A)) f i j (g : A → A) :
  cells a f → 0 ≤ i < image.N → 0 ≤ j < image.N →
  ∃ a', modify2 a i j g = mret a' ∧ cells a' (upd f i j (g (f i j))).
Proof.
  intros [Hwf Hf] Hi Hj. pose proof (Hf i j Hi Hj) as Hij.
  unfold at2 in Hij. destruct (at1 a i) as [row|] eqn:Hrow; [|done].
  cbn in Hij. unfold modify2. rewrite Hrow, Hij.
  eexists. split; [reflexivity|].
  pose proof (wf_array_row _ _ _ Hwf Hrow) as Hlen.
  destruct Hwf as [Hlen_a Hrows].
  assert (Hrow' : a !! Z.to_nat i = Some row).
  { unfold at1 in Hrow. by case_decide. }
  split.
  - split; [by rewrite length_insert|].
    apply Forall_insert; [done|]. by rewrite length_insert.
  - intros i' j' Hi' Hj'. unfold upd, at2.
    rewrite at1_lookup by (rewrite length_insert; lia).
    destruct (decide (i' = i)) as [->|Hne].
    + rewrite list_lookup_insert_eq by lia. cbn.
      rewrite at1_lookup by (rewrite length_insert; lia).
      destruct (decide (j' = j)) as [->|Hnej].
      * rewrite list_lookup_insert_eq by lia. by rewrite decide_True.
      * rewrite list_lookup_insert_ne by lia. rewrite decide_False by tauto.
        specialize (Hf i j' Hi Hj'). unfold at2 in Hf. rewrite Hrow in Hf. cbn in Hf.
        rewrite <- Hf. symmetry. apply at1_lookup. lia.
    + rewrite list_lookup_insert_ne by lia. rewrite decide_False by tauto.
      specialize (Hf i' j' Hi' Hj'). unfold at2 in Hf.
      rewrite at1_lookup in Hf by lia. done.
Qed.

Lemma cells_store {A} (a : list (list A)) f i j (v : A) :
  cells a f → 0 ≤ i < image.N → 0 ≤ j < image.N →
  ∃ a', store2 a i j v = mret a' ∧ cells a' (upd f i j v).
Proof. intros. unfold store2. by apply (cells_modify a f i j (λ _, v)). Qed.

Lemma cells_zero_array {A} (v : A) : cells (image.zero_array v) (λ _ _, v).
Proof.
  split.
  - unfold image.zero_array. split; [by rewrite length_replicate|].
    apply Forall_replicate, length_replicate.
  - intros i j Hi Hj. unfold at2, image.zero_array.
    rewrite at1_lookup by (rewrite length_replicate; lia).
    rewrite lookup_replicate_2 by lia. cbn.
    rewrite at1_lookup by (rewrite length_replicate; lia).
    by rewrite lookup_replicate_2 by lia.
Qed.

Lemma cells_eq {A} (a b : list (list A)) f : cells a f → cells b f → a = b.
Proof.
  intros [[Hla Hra] Hf] [[Hlb Hrb] Hg].
  apply list_eq_same_length with (Z.to_nat image.N); [done..|].
  intros i ra rb Hi Ha Hb.
  apply list_eq_same_length with (Z.to_nat image.N);
    [by eapply (Forall_lookup_1 _ _ _ _ Hrb)|by eapply (Forall_lookup_1 _ _ _ _ Hra)|].
  intros j x y Hj Hx Hy.
  assert (Hi' : 0 ≤ Z.of_nat i < image.N) by lia.
  assert (Hj' : 0 ≤ Z.of_nat j < image.N) by lia.
  specialize (Hf _ _ Hi' Hj'). specialize (Hg _ _ Hi' Hj').
  unfold at2 in Hf, Hg.
  rewrite at1_lookup, Nat2Z.id, Ha in Hf by lia.
  rewrite at1_lookup, Nat2Z.id, Hb in Hg by lia. cbn in Hf, Hg.
  rewrite at1_lookup, Nat2Z.id, Hx in Hf
    by (rewrite (Forall_lookup_1 _ _ _ _ Hra Ha); lia).
  rewrite at1_lookup, Nat2Z.id, Hy in Hg
    by (rewrite (Forall_lookup_1 _ _ _ _ Hrb Hb); lia).
  congruence.
Qed.

(** Every array of the right size is described by its own cells. *)
Lemma cells_self {A} (d : A) (a : list (list A)) :
  image.wf_array a → cells a (λ i j, default d (at2 a i j)).
Proof.
  intros Hwf. split; [done|]. intros i j Hi Hj.
  destruct Hwf as [Hl Hr].
  unfold at2. destruct (at1_is_Some a i) as [row Hrow]; [lia|].
  rewrite Hrow. cbn.
  assert (length row = Z.to_nat image.N) by (by eapply wf_array_row).
  destruct (at1_is_Some row j) as [v Hv]; [lia|]. by rewrite Hv.
Qed.

(** ** The loops over the grid *)

(** Two nested loops whose body assigns [v y x] to the cell [(y, x)]. *)
Lemma fill_loops {A} (h w : Z)
    (body : Z → Z → list (list A) → Run (list (list A))) (v : Z → Z → A) a g :
  0 ≤ h ≤ image.N → 0 ≤ w ≤ image.N →
  (∀ y x t g', 0 ≤ y < h → 0 ≤ x < w → cells t g' →
     ∃ t', body y x t = mret t' ∧ cells t' (upd g' y x (v y x))) →
  cells a g →
  ∃ a', for_upto h (λ y t, for_upto w (λ x t, body y x t) t) a = mret a' ∧
        cells a' (λ i j, if decide (i < h ∧ j < w) then v i j else g i j).
Proof.
  intros Hh Hw Hbody Ha.
  apply (for_upto_inv
    (λ y t, cells t (λ i j, if decide (i < y ∧ j < w) then v i j else g i j))
    (λ y t, for_upto w (λ x t, body y x t) t) h a); [lia| |].
  { eapply cells_ext; [|exact Ha]. intros i j ??. case_decide; [lia|done]. }
  intros y t Hy Ht.
  destruct (for_upto_inv
    (λ x t, cells t (λ i j, if decide ((i < y ∧ j < w) ∨ (i = y ∧ j < x))
                            then v i j else g i j))
    (λ x t, body y x t) w t) as (t' & Ht' & Hcells); [lia| | |].
  - eapply cells_ext; [|exact Ht]. intros i j ??.
    repeat case_decide; (done || lia).
  - intros x u Hx Hu.
    destruct (Hbody y x u _ Hy Hx Hu) as (u' & Hu' & Hcu).
    exists u'. split; [done|].
    eapply cells_ext; [|exact Hcu]. intros i j ??. unfold upd.
    repeat case_decide; (done || (f_equal; lia) || lia).
  - exists t'. split; [done|].
    eapply cells_ext; [|exact Hcells]. intros i j ??.
    repeat case_decide; (done || lia).
Qed.

(** Copying an [h] by [w] block of [src], taken at [(y0, x0)], to the top
    left corner of [dst]. *)
Lemma copy_loops {A} (src dst : list (list A)) f g (y0 x0 h w : Z) :
  cells src f → cells dst g →
  0 ≤ y0 → 0 ≤ x0 → 0 ≤ h → 0 ≤ w → y0 + h ≤ image.N → x0 + w ≤ image.N →
  ∃ dst',
    for_upto h (λ y t,
      for_upto w (λ x t, p ← index2 src (y0 + y) (x0 + x); store2 t y x p) t) dst
    = mret dst' ∧
    cells dst' (λ i j, if decide (i < h ∧ j < w) then f (y0 + i) (x0 + j) else g i j).
Proof.
  intros Hsrc Hdst ??????.
  apply (fill_loops h w
    (λ y x t, p ← index2 src (y0 + y) (x0 + x); store2 t y x p)
    (λ i j, f (y0 + i) (x0 + j))); [lia|lia| |done].
  intros y x t g' Hy Hx Ht.
  rewrite (cells_index src f); [|done|lia|lia]. rewrite bind_mret.
  apply cells_store; [done|lia|lia].
Qed.

(** Blackening the whole image. *)
Lemma black_loops {A} (a : list (list A)) g (v : A) :
  cells a g →
  ∃ a', for_upto image.N (λ y t,
          for_upto image.N (λ x t, store2 t y x v) t) a = mret a' ∧
        cells a' (λ _ _, v).
Proof.
  intros Ha.
  destruct (fill_loops image.N image.N (λ y x t, store2 t y x v) (λ _ _, v) a g)
    as (a' & Ha' & Hc); [done|done| |done|].
  - intros y x t g' ???. by apply cells_store.
  - exists a'. split; [done|]. eapply cells_ext; [|exact Hc].
    intros i j ??. cbv beta. case_decide; [done|lia].
Qed.

(** ** [image.Crop] *)

(** Within the bounds, [Crop] moves the rectangle to the top left corner,
    blackens the rest and records the new width and height. *)
Lemma Crop_accepts img f x0 y0 x1 y1 width height :
  cells (image.Pixels img) f →
  image.as_int (image.M_lookup img "width") = Some width →
  image.as_int (image.M_lookup img "height") = Some height →
  0 ≤ x0 ≤ x1 → x1 < width → x1 < image.N →
  0 ≤ y0 ≤ y1 → y1 < height → y1 < image.N →
  ∃ pixels,
    image.Crop img x0 y0 x1 y1 =
      mret (image.M_store
              (image.M_store {| image.Pixels := pixels; image.M := image.M img |}
                 "width" (image.int_ (x1 - x0 + 1)))
              "height" (image.int_ (y1 - y0 + 1)), None) ∧
    cells pixels (cropped f x0 y0 x1 y1).
Proof.
  intros Hf Hw Hh Hx Hxw HxN Hy Hyh HyN.
  unfold image.Crop. rewrite Hw, Hh.
  rewrite decide_False by lia.
  destruct (copy_loops (image.Pixels img) (image.zero_array image.zero_RGBPixel)
              f (λ _ _, image.zero_RGBPixel) y0 x0 (y1 - y0 + 1) (x1 - x0 + 1))
    as (temp & Htemp & Hctemp); [done|apply cells_zero_array|lia..|].
  rewrite Htemp, bind_mret.
  destruct (black_loops (image.Pixels img) f image.zero_RGBPixel)
    as (black & Hblack & Hcblack); [done|].
  change {| image.R := 0; image.G := 0; image.B := 0 |} with image.zero_RGBPixel.
  rewrite Hblack, bind_mret.
  destruct (copy_loops temp black _ _ 0 0 (y1 - y0 + 1) (x1 - x0 + 1) Hctemp Hcblack)
    as (pixels & Hpixels & Hcpixels); [lia..|].
  change (for_upto (y1 - y0 + 1) (λ y t, for_upto (x1 - x0 + 1)
            (λ x t0, p ← index2 temp y x; store2 t0 y x p) t) black = mret pixels)
    in Hpixels.
  rewrite Hpixels, bind_mret.
  exists pixels. split; [reflexivity|].
  eapply cells_ext; [|exact Hcpixels].
  intros i j ??. unfold cropped. cbv beta.
  repeat case_decide; (done || lia).
Qed.

(** Outside the bounds, [Crop] returns an error and leaves the image alone. *)
Lemma Crop_rejects img x0 y0 x1 y1 width height :
  image.as_int (image.M_lookup img "width") = Some width →
  image.as_int (image.M_lookup img "height") = Some height →
  x0 < 0 ∨ y0 < 0 ∨ x1 >= width ∨ y1 >= height ∨ x0 > x1 ∨ y0 > y1 →
  image.Crop img x0 y0 x1 y1 =
    mret (img, Some "invalid crop dimensions: out of bounds").
Proof. intros Hw Hh Hbad. unfold image.Crop. rewrite Hw, Hh. by rewrite decide_True. Qed.

Lemma as_int_Some v z : image.as_int v = Some z → v = Some (image.int_ z).
Proof. destruct v as [[]|]; cbn; congruence. Qed.

Lemma M_store_same img key v :
  image.M_lookup img key = Some v → image.M_store img key v = img.
Proof.
  destruct img as [px [m|]]; unfold image.M_lookup, image.M_store; cbn; [|done].
  intros Hk. by rewrite insert_id.
Qed.

(** Cropping to the full bounds changes nothing, whether [Crop] accepts
    the call or not. *)
Lemma Crop_full_bounds img :
  image.wf_array (image.Pixels img) → dims_within img →
  ∃ err, image.Crop img 0 0 (image.N - 1) (image.N - 1) = mret (img, err).
Proof.
  intros Hwf Hdims.
  destruct (image.as_int (image.M_lookup img "width")) as [width|] eqn:Hw.
  2:{ eexists. unfold image.Crop. rewrite Hw. reflexivity. }
  destruct (image.as_int (image.M_lookup img "height")) as [height|] eqn:Hh.
  2:{ eexists. unfold image.Crop. rewrite Hw, Hh. reflexivity. }
  destruct (decide (image.N - 1 >= width ∨ image.N - 1 >= height)) as [Hsmall|Hbig].
  { eexists. apply (Crop_rejects _ _ _ _ _ width height); [done|done|]. lia. }
  pose proof (Hdims "width" width (or_introl eq_refl) (as_int_Some _ _ Hw)).
  pose proof (Hdims "height" height (or_intror eq_refl) (as_int_Some _ _ Hh)).
  assert (width = image.N) as -> by lia.
  assert (height = image.N) as -> by lia.
  destruct (Crop_accepts img _ 0 0 (image.N - 1) (image.N - 1) image.N image.N
              (cells_self image.zero_RGBPixel _ Hwf) Hw Hh)
    as (pixels & HCrop & Hcells); [done..|].
  exists None. rewrite HCrop. do 2 f_equal.
  assert (pixels = image.Pixels img) as ->.
  { eapply cells_eq; [exact Hcells|]. eapply cells_ext; [|by apply cells_self].
    intros i j ??. unfold cropped. rewrite decide_True by (unfold image.N in *; lia).
    done. }
  replace (image.N - 1 - 0 + 1) with image.N by done.
  assert ({| image.Pixels := image.Pixels img; image.M := image.M img |} = img) as ->
    by (by destruct img).
  rewrite (M_store_same img "width") by (by apply as_int_Some).
  by rewrite (M_store_same img "height") by (by apply as_int_Some).
Qed.

(** ** The Crop circuit on [frontend.engine] *)

(** One axis of [InArea]: "equal to the bound" and "strictly inside the
    bound" are conjoined, and never hold together. *)
Lemma axis_never_inside (lo v hi : Z) :
  frontend.And frontend.engine
    (frontend.And frontend.engine
       (frontend.IsZero frontend.engine
          (frontend.Cmp frontend.engine (frontend.int lo) (frontend.int v)))
       (frontend.IsZero frontend.engine
          (frontend.Cmp frontend.engine (frontend.int v) (frontend.int hi))))
    (frontend.And frontend.engine
       (frontend.IsZero frontend.engine
          (frontend.Add frontend.engine
             (frontend.Cmp frontend.engine (frontend.int lo) (frontend.int v))
             (frontend.int 1)))
       (frontend.IsZero frontend.engine
          (frontend.Add frontend.engine
             (frontend.Cmp frontend.engine (frontend.int v) (frontend.int hi))
             (frontend.int 1))))
  = frontend.int 0.
Proof.
  cbv beta iota delta
    [frontend.And frontend.IsZero frontend.Cmp frontend.Add frontend.engine
     frontend.op1 frontend.op2 frontend.value].
  destruct (lo mod fr.Modulus ?= v mod fr.Modulus),
           (v mod fr.Modulus ?= hi mod fr.Modulus); vm_compute; reflexivity.
Qed.

Lemma InArea_engine (x y tlx tly brx bry : Z) :
  transformations.InArea frontend.engine (frontend.int x) (frontend.int y)
    (area tlx tly brx bry)
  = frontend.int 0.
Proof.
  unfold transformations.InArea.
  cbv beta iota zeta delta
    [area transformations.X transformations.Y transformations.topLeft
     transformations.bottomRight].
  rewrite !axis_never_inside. vm_compute. reflexivity.
Qed.

Lemma cells_ToFrontendImage img f :
  cells (image.Pixels img) f →
  cells (image.Fr_Pixels (image.ToFrontendImage img)) (λ i j, Fr_of (f i j)).
Proof.
  intros [[Hl Hr] Hf]. cbn. split.
  - split; [by rewrite length_fmap|].
    apply Forall_fmap. eapply Forall_impl; [exact Hr|].
    intros row Hrow. cbn. rewrite length_fmap. exact Hrow.
  - intros i j Hi Hj. specialize (Hf i j Hi Hj). unfold at2 in *.
    rewrite at1_lookup in Hf by lia.
    rewrite at1_lookup by (rewrite length_fmap; lia).
    rewrite list_lookup_fmap.
    destruct (image.Pixels img !! Z.to_nat i) as [row|] eqn:Hrow; [|by cbn in Hf].
    cbn in *.
    assert (length row = Z.to_nat image.N)
      by (by eapply (Forall_lookup_1 _ _ _ _ Hr)).
    rewrite at1_lookup in Hf by lia.
    rewrite at1_lookup by (rewrite length_fmap; lia).
    rewrite list_lookup_fmap, Hf. done.
Qed.

(** Within the grid the field does not wrap. *)
Lemma Sub_engine_small (a b : Z) :
  0 ≤ b ≤ a → a < image.N →
  frontend.Sub frontend.engine (frontend.int a) (frontend.int b) = frontend.int (a - b).
Proof.
  intros Hb Ha. cbn. unfold frontend.op2. cbn.
  assert (image.N < fr.Modulus) by done.
  rewrite (Z.mod_small a), (Z.mod_small b), Z.mod_small by lia.
  unfold frontend.element. rewrite decide_True; [done|]. unfold image.N in Ha. lia.
Qed.

Lemma Select_engine_false (c : Z) :
  frontend.Select frontend.engine (frontend.int 0) (frontend.int c) (frontend.int 0)
  = frontend.int 0.
Proof.
  cbv beta iota delta [frontend.Select frontend.engine frontend.op3 frontend.value].
  change (0 mod fr.Modulus) with 0. rewrite Z.mul_0_l. reflexivity.
Qed.

(** What the body of the loops does at [(x, y)]: it assigns black to the
    cell [(x - x0, x - y0)]. *)
Lemma CropFrontendImage_at_spec img f newImage g x y x0 y0 x1 y1 bx1 by1 :
  cells (image.Pixels img) f →
  cells (image.Fr_Pixels newImage) g →
  0 ≤ x < image.N → 0 ≤ y < image.N → 0 ≤ x0 ≤ x → 0 ≤ y0 ≤ x →
  ∃ out,
    transformations.CropFrontendImage_at frontend.engine (image.ToFrontendImage img)
      (area x0 y0 x1 y1) (area 0 0 bx1 by1) Fr_black x y newImage = mret out ∧
    cells (image.Fr_Pixels out) (upd g (x - x0) (x - y0) Fr_black).
Proof.
  intros Hf Hg Hx Hy Hx0 Hy0.
  unfold transformations.CropFrontendImage_at.
  rewrite !InArea_engine.
  cbv beta iota zeta delta
    [area transformations.X transformations.Y transformations.topLeft
     transformations.bottomRight].
  rewrite !Sub_engine_small by lia.
  change (transformations.InArea frontend.engine (frontend.int (x - x0))
            (frontend.int (x - y0))
            {| transformations.topLeft :=
                 {| transformations.X := frontend.int 0;
                    transformations.Y := frontend.int 0 |};
               transformations.bottomRight :=
                 {| transformations.X := frontend.int bx1;
                    transformations.Y := frontend.int by1 |} |})
    with (transformations.InArea frontend.engine (frontend.int (x - x0))
            (frontend.int (x - y0)) (area 0 0 bx1 by1)).
  rewrite !InArea_engine.
  cbn [assert_int]. rewrite !bind_mret.
  rewrite (cells_index _ _ x y (cells_ToFrontendImage _ _ Hf)) by done.
  rewrite bind_mret. cbn [Fr_of Fr_black image.Fr_R image.Fr_G image.Fr_B].
  rewrite !Select_engine_false.
  destruct (cells_modify _ _ (x - x0) (x - y0)
              (transformations.set_R (frontend.int 0)) Hg)
    as (a1 & -> & H1); [lia..|]. rewrite bind_mret.
  destruct (cells_modify _ _ (x - x0) (x - y0)
              (transformations.set_G (frontend.int 0)) H1)
    as (a2 & -> & H2); [lia..|]. rewrite bind_mret.
  destruct (cells_modify _ _ (x - x0) (x - y0)
              (transformations.set_B (frontend.int 0)) H2)
    as (a3 & -> & H3); [lia..|]. rewrite bind_mret.
  eexists. split; [reflexivity|]. cbn [image.Fr_Pixels].
  eapply cells_ext; [|exact H3]. intros i j ??. unfold upd.
  repeat case_decide; (done || tauto).
Qed.

(** ** The byte encodings *)

(** Encoding prints at most an error: it always returns. *)
Lemma res_ToByte_with entries img : ∃ b, res (image.ToByte_with entries img) = Ret b.
Proof. unfold image.ToByte_with. destruct (image.Marshal entries img); eauto. Qed.

Lemma res_ToByte img :
  res (image.ToByte img) = Ret (returned [] (image.ToByte img)).
Proof.
  unfold returned, image.ToByte.
  destruct (res_ToByte_with (image.entries_of img) img) as [b ->]. reflexivity.
Qed.

Lemma res_ToBigEndian img :
  res (image.ToBigEndian img) = Ret (returned [] (image.ToBigEndian img)).
Proof.
  unfold returned, image.ToBigEndian, image.ToBigEndian_with.
  rewrite res_bind. destruct (res_ToByte_with (image.entries_of img) img) as [b ->].
  reflexivity.
Qed.

(** The bytes the Verifier derives from [ToByte] are those [ToBigEndian]
    returns, which the signer signed. *)
Lemma ToBigEndian_ToByte img :
  returned [] (image.ToBigEndian img)
  = fr.Marshal (fr.SetBytes (returned [] (image.ToByte img))).
Proof.
  unfold returned at 1. unfold image.ToBigEndian, image.ToBigEndian_with.
  rewrite res_bind. fold (image.ToByte img). rewrite res_ToByte. reflexivity.
Qed.

#[local] Instance key_le_trans : Transitive image.key_le.
Proof. intros a b c. unfold image.key_le. apply transitivity. Qed.

#[local] Instance key_le_total : Total image.key_le.
Proof. intros a b. unfold image.key_le. apply total, _. Qed.

Lemma NoDup_fst_unique {A B} (l : list (A * B)) x y1 y2 :
  NoDup l.*1 → (x, y1) ∈ l → (x, y2) ∈ l → y1 = y2.
Proof.
  induction l as [|[a b] l IH]; intros Hnd H1 H2; [by inv H1|].
  cbn in Hnd. apply NoDup_cons in Hnd as [Hnotin Hnd].
  apply elem_of_cons in H1, H2.
  destruct H1 as [H1|H1], H2 as [H2|H2]; simplify_eq; [done| | |by apply IH].
  - destruct Hnotin. apply list_elem_of_fmap. by exists (a, y2).
  - destruct Hnotin. apply list_elem_of_fmap. by exists (a, y1).
Qed.

(** Entries with distinct keys have one sorted order. *)
Lemma sorted_by_key_unique (l1 l2 : list (string * image.any)) :
  NoDup l1.*1 → l1 ≡ₚ l2 →
  merge_sort image.key_le l1 = merge_sort image.key_le l2.
Proof.
  intros Hnd Hperm.
  apply (Sorted_unique_strong image.key_le).
  - intros [k1 v1] [k2 v2] H1 H2 Hle1 Hle2.
    rewrite merge_sort_Permutation in H1, H2. rewrite <- Hperm in H2.
    assert (k1 = k2) as ->.
    { unfold image.key_le in *. cbn in *. by apply (anti_symm String.le). }
    f_equal. by eapply NoDup_fst_unique.
  - apply Sorted_merge_sort, _.
  - apply Sorted_merge_sort, _.
  - by rewrite !merge_sort_Permutation.
Qed.

Lemma json_map_enumeration img e1 e2 :
  enumerates img e1 → enumerates img e2 → image.json_map e1 = image.json_map e2.
Proof.
  unfold enumerates. destruct (image.M img) as [m|], e1 as [l1|], e2 as [l2|];
    try done.
  intros H1 H2. unfold image.json_map.
  rewrite (sorted_by_key_unique l1 l2); [done| |by rewrite H1, H2].
  rewrite H1. apply NoDup_fst_map_to_list.
Qed.

Lemma enumerates_entries_of img : enumerates img (image.entries_of img).
Proof. unfold enumerates, image.entries_of. destruct (image.M img); by cbn. Qed.

(** ** The sample inputs *)

Lemma wf_array_cells {A} (d : A) (a : list (list A)) :
  image.wf_array a → ∃ f, cells a f.
Proof. intros. eexists. by apply (cells_self d). Qed.

Lemma wf_AllWhiteImage : image.wf_array (image.Pixels image.AllWhiteImage).
Proof.
  split; [reflexivity|].
  apply Forall_forall. intros row Hrow. vm_compute in Hrow.
  repeat (apply elem_of_cons in Hrow as [->|Hrow]; [reflexivity|]).
  by apply elem_of_nil in Hrow.
Qed.

Lemma dims_AllWhiteImage : dims_within image.AllWhiteImage.
Proof. intros key n [-> | ->]; vm_compute; intros [= <-]; discriminate. Qed.

(** ** Generator and Prover *)

Section backend_facts.
Context {T : Types} (B : Backend T).

(** When the key pair is made, [Sign] returns the signature of the encoded
    image next to the keys and the encoding. *)
Lemma res_Sign img rnd sk e :
  ceddsa_New B rnd = (Some sk, e) →
  res (generator.Sign B img rnd)
  = Ret ((Signer_Sign B sk (returned [] (image.ToBigEndian img))).1,
         Signer_Public B sk, sk, returned [] (image.ToBigEndian img)).
Proof.
  intros Hnew. unfold generator.Sign. rewrite Hnew.
  rewrite res_print_err_bind. cbn [deref]. rewrite bind_mret.
  rewrite (res_bind_Ret _ _ _ (res_ToBigEndian img)).
  destruct (Signer_Sign B sk _) as [sig e']. cbn [fst].
  by rewrite res_print_err_bind.
Qed.


(** The base case of the earlier [Prover]. *)
Lemma Prover0_base pk z_in (proof_in : prover0.Proof T) t publicKey w e :
  prover0.PCD_proof proof_in = None →
  generator.PK_PublicKey pk = Some publicKey →
  let c := identity_witness (PublicKey_Bytes B publicKey) (prover0.Digital_Sig proof_in)
             (returned [] (image.ToBigEndian (image.Image z_in))) in
  frontend_NewWitness B c = (Some w, e) →
  res (prover0.Prover B pk z_in proof_in t)
  = Ret ({| prover0.PCD_proof :=
              (groth16_Prove B (frontend_Compile B c).1 (generator.ProvingKey pk)
                 (Some w)).1;
            prover0.Z_in := z_in;
            prover0.Digital_Sig := [];
            prover0.Public_Witness := (Witness_Public B w).1 |}, z_in).
Proof.
  intros Hpcd Hpk c Hw. unfold prover0.Prover. rewrite Hpcd, Hpk.
  cbn [deref]. rewrite bind_mret.
  rewrite (res_bind_Ret _ _ _ (res_ToBigEndian _)).
  subst c. unfold identity_witness in *. rewrite Hw, res_print_err_bind.
  destruct (frontend_Compile B _) as [cs e1]. rewrite res_print_err_bind.
  cbn [fst]. destruct (groth16_Prove B cs _ (Some w)) as [p e2].
  cbn [deref fst]. rewrite bind_mret.
  destruct (Witness_Public B w) as [pw e3]. by rewrite res_print_err_bind.
Qed.

(** On a proof that carries a circuit proof, [Prover] runs the Identity
    transformation as it runs the crop to the full bounds. *)
Lemma Prover_Identity_is_full_Crop pk vk (proof_in : prover.Proof T) t rnd pcd :
  prover.PCD_proof proof_in = Some pcd →
  transformations.T t = transformations.Identity →
  prover.Prover B pk vk proof_in t rnd
  = prover.Prover B pk vk proof_in full_bounds rnd.
Proof.
  intros Hpcd Ht. unfold prover.Prover. rewrite Hpcd.
  rewrite (decide_True (P := transformations.T t = _ ∨ _)) by (by right).
  rewrite (decide_True (P := transformations.T full_bounds = _ ∨ _)) by (by left).
  rewrite (decide_True (P := transformations.T t = transformations.Identity)) by done.
  rewrite (decide_False (P := transformations.T full_bounds = transformations.Identity))
    by done.
  assert (transformations.Fr_Params (transformations.ToFr full_bounds)
          = {| transformations.N := frontend.nil;
               transformations.X0 := frontend.int 0;
               transformations.Y0 := frontend.int 0;
               transformations.X1 := frontend.int (image.N - 1);
               transformations.Y1 := frontend.int (image.N - 1) |}) as ->
    by (vm_compute; reflexivity).
  reflexivity.
Qed.

(** An assignment of the Crop circuit that leaves [N] unset misses a
    variable. *)
Lemma missing_N (c : transformations.CropCircuit) :
  transformations.N (transformations.Crop_Params c) = frontend.nil →
  missing_assignment (crop_circuit c) = true.
Proof.
  intros HN. apply existsb_exists. exists frontend.nil. split; [|done].
  unfold variables, parameter_variables. rewrite !in_app_iff. do 3 right.
  left. exact HN.
Qed.

(** The steps both branches of [Prover] end with, when there is no
    witness: the errors are printed, [groth16.Prove] is called, and the
    call for the public part of the nil witness panics. *)
Lemma prove_steps_without_witness (c : Circuit) pk e
    (mk : option (groth16_Proof T) → option (witness_Witness T) → prover.Proof T) :
  frontend_NewWitness B c = (None, e) →
  let steps :=
    (let '(secret_witness, err) := frontend_NewWitness B c in
     print_err ("Error while creating Witness: " +:+ nl) err
       (nl +:+ "-----------------");;
     let '(compliance_predicate, err) := frontend_Compile B c in
     print_err "" err "";;
     let '(proof_out, err) :=
       groth16_Prove B compliance_predicate pk secret_witness in
     print_err ("Error while creating Proof: " +:+ nl) err
       (nl +:+ "-----------------");;
     witness ← deref secret_witness;
     let '(publicWitness, err) := Witness_Public B witness in
     print_err ("Error while creating Public Witness: " +:+ nl) err
       (nl +:+ "-----------------");;
     mret (mk proof_out publicWitness)) in
  res steps = Panic nil_dereference ∧
  ∃ l, lines steps
       = lines (print_err ("Error while creating Witness: " +:+ nl) e
                  (nl +:+ "-----------------")) ++ l.
Proof.
  intros Hw steps. subst steps. rewrite Hw. split.
  - rewrite res_print_err_bind.
    destruct (frontend_Compile B c) as [cs e1]. rewrite res_print_err_bind.
    destruct (groth16_Prove B cs pk None) as [p e2]. rewrite res_print_err_bind.
    reflexivity.
  - rewrite lines_print_err_bind. by eexists.
Qed.

(** The base case of [Prover] when [frontend.NewWitness] yields no
    witness. *)
Lemma Prover_base_without_witness pk vk (proof_in : prover.Proof T) t rnd publicKey e :
  prover.PCD_proof proof_in = None →
  generator.PK_PublicKey pk = Some publicKey →
  let img := image.Image (prover.Z proof_in) in
  let c := crop_witness (PublicKey_Bytes B publicKey) (prover.ImageSignature proof_in)
             (returned [] (image.ToBigEndian img)) img img
             (transformations.Fr_Params (transformations.ToFr t)) in
  frontend_NewWitness B c = (None, e) →
  res (prover.Prover B pk vk proof_in t rnd) = Panic nil_dereference ∧
  ∃ l, lines (prover.Prover B pk vk proof_in t rnd)
       = lines (image.ToBigEndian img)
         ++ lines (print_err ("Error while creating Witness: " +:+ nl) e
                     (nl +:+ "-----------------")) ++ l.
Proof.
  intros Hpcd Hpk img c Hw.
  destruct (prove_steps_without_witness c (generator.ProvingKey pk) e
              (λ p pw, {| prover.PCD_proof := p; prover.Z := prover.Z proof_in;
                          prover.ImageSignature := prover.ImageSignature proof_in;
                          prover.Public_Witness := pw |}) Hw) as [Hres [l Hl]].
  unfold prover.Prover. rewrite Hpcd, Hpk. cbn [deref]. rewrite bind_mret. split.
  - rewrite (res_bind_Ret _ _ _ (res_ToBigEndian _)). exact Hres.
  - exists l. rewrite (lines_bind_Ret _ _ _ (res_ToBigEndian _)). f_equal. exact Hl.
Qed.

(** Under the rule of gnark for assignments the base case of [Prover]
    does not return: [ToFr] leaves [N] unset. *)
Lemma Prover_base_panics pk vk (proof_in : prover.Proof T) t rnd :
  wants_every_variable B →
  prover.PCD_proof proof_in = None →
  ∃ msg, res (prover.Prover B pk vk proof_in t rnd) = Panic msg.
Proof.
  intros Hrule Hpcd. destruct (generator.PK_PublicKey pk) as [publicKey|] eqn:Hpk.
  - set (img := image.Image (prover.Z proof_in)).
    set (c := crop_witness (PublicKey_Bytes B publicKey) (prover.ImageSignature proof_in)
                (returned [] (image.ToBigEndian img)) img img
                (transformations.Fr_Params (transformations.ToFr t))).
    assert (missing_assignment c = true) as Hmiss by (by apply missing_N).
    pose proof (Hrule c Hmiss) as Hnone.
    destruct (frontend_NewWitness B c) as [w e] eqn:Hw. cbn in Hnone. subst w.
    exists nil_dereference.
    by apply (Prover_base_without_witness pk vk proof_in t rnd publicKey e Hpcd Hpk Hw).
  - exists nil_dereference. unfold prover.Prover. by rewrite Hpcd, Hpk.
Qed.

(** Nor does the second branch, for the same reason, whatever the crop and
    the key generation do before. *)
Lemma Prover_transition_panics pk vk (proof_in : prover.Proof T) t rnd pcd :
  wants_every_variable B →
  prover.PCD_proof proof_in = Some pcd →
  transformations.T t = transformations.Crop
  ∨ transformations.T t = transformations.Identity →
  ∃ msg, res (prover.Prover B pk vk proof_in t rnd) = Panic msg.
Proof.
  intros Hrule Hpcd Ht. unfold prover.Prover. rewrite Hpcd.
  rewrite decide_True by done. rewrite res_report_bind.
  set (frT := if decide (transformations.T t = transformations.Identity) then _ else _).
  assert (∃ x0 y0 x1 y1,
            transformations.Fr_Params frT
            = {| transformations.N := frontend.nil;
                 transformations.X0 := frontend.int x0;
                 transformations.Y0 := frontend.int y0;
                 transformations.X1 := frontend.int x1;
                 transformations.Y1 := frontend.int y1 |}) as (x0 & y0 & x1 & y1 & ->).
  { unfold frT. case_decide; by eexists _, _, _, _. }
  cbn [assert_int transformations.X0 transformations.Y0 transformations.X1
       transformations.Y1]. rewrite !bind_mret.
  rewrite res_bind.
  destruct (res (image.Crop _ x0 y0 x1 y1)) as [[image_out err]|msg]; [|by eexists].
  rewrite res_bind.
  destruct (res (generator.Sign B image_out rnd)) as [[[[sig pub] sk] big]|msg];
    [|by eexists].
  match goal with |- context [frontend_NewWitness B (crop_circuit ?c)] =>
    pose proof (Hrule (crop_circuit c) (missing_N c eq_refl)) as Hnone;
    destruct (frontend_NewWitness B (crop_circuit c)) as [w e];
    destruct (frontend_Compile B (crop_circuit c)) as [cs e1]
  end.
  cbn in Hnone. subst w. rewrite !res_print_err_bind.
  destruct (groth16_Prove B cs _ None) as [p e2]. rewrite res_print_err_bind.
  by eexists.
Qed.

End backend_facts.

(** * The claims *)

(** C1, where the code departs from the claim. The claim has [InArea] true
    exactly on the rectangle, bounds included. As written, each axis
    conjoins "equal to the bound" with "strictly inside the bound", so on
    the evaluating API [InArea] is false (the signal 0) at every point of
    every rectangle: at (3,3) and (2,2) of the rectangle (2,2)-(5,5) as well
    as at (1,1) and (6,6). *)
Theorem InArea_never_true (x y tlx tly brx bry : Z) :
  transformations.InArea frontend.engine (frontend.int x) (frontend.int y)
    (area tlx tly brx bry)
  = frontend.int 0.
Proof. apply InArea_engine. Qed.

(** The four points the specification names. *)
Example InArea_2_5 :
  let inside x y :=
    transformations.InArea frontend.engine (frontend.int x) (frontend.int y)
      (area 2 2 5 5) in
  (inside 3 3, inside 2 2, inside 1 1, inside 6 6)
  = (frontend.int 0, frontend.int 0, frontend.int 0, frontend.int 0).
Proof. vm_compute. reflexivity. Qed.

(** C2, where the code departs from the claim. The claim has the pixel of
    the grid coordinate (x, y) written at (x - x0, y - y0), as the input
    pixel when in the crop area and in bounds. The body of the loops takes
    both destination coordinates from x: it writes the cell
    (x - x0, x - y0), whatever y is, and what it writes is black, since
    [InArea] is never true. Every other cell is left as it was. *)
Theorem CropFrontendImage_at_destination img newImage x y x0 y0 x1 y1 bx1 by1 :
  image.wf_array (image.Pixels img) →
  image.wf_array (image.Fr_Pixels newImage) →
  0 ≤ x < image.N → 0 ≤ y < image.N → 0 ≤ x0 ≤ x → 0 ≤ y0 ≤ x →
  ∃ out,
    transformations.CropFrontendImage_at frontend.engine (image.ToFrontendImage img)
      (area x0 y0 x1 y1) (area 0 0 bx1 by1) Fr_black x y newImage = mret out ∧
    at2 (image.Fr_Pixels out) (x - x0) (x - y0) = Some Fr_black ∧
    ∀ i j, 0 ≤ i < image.N → 0 ≤ j < image.N → i ≠ x - x0 ∨ j ≠ x - y0 →
      at2 (image.Fr_Pixels out) i j = at2 (image.Fr_Pixels newImage) i j.
Proof.
  intros Himg Hnew Hx Hy Hx0 Hy0.
  destruct (wf_array_cells image.zero_RGBPixel _ Himg) as [f Hf].
  destruct (wf_array_cells image.zero_FrontendPixel _ Hnew) as [g Hg].
  destruct (CropFrontendImage_at_spec img f newImage g x y x0 y0 x1 y1 bx1 by1)
    as (out & Hout & [Hwf Hcells]); [done..|].
  exists out. split; [done|]. split.
  - rewrite Hcells by lia. unfold upd. by rewrite decide_True.
  - intros i j Hi Hj Hne. rewrite Hcells by done. unfold upd.
    rewrite decide_False by tauto. symmetry. by apply Hg.
Qed.

(** At the grid coordinate (0, 1) of the full-bounds crop the cell written
    is (0, 0), not (0, 1). *)
Lemma CropFrontendImage_at_destination_witness :
  ∃ out,
    transformations.CropFrontendImage_at frontend.engine
      (image.ToFrontendImage image.AllWhiteImage)
      (area 0 0 15 15) (area 0 0 15 15) Fr_black 0 1 image.zero_FrontendImage
    = mret out ∧
    at2 (image.Fr_Pixels out) (0 - 0) (0 - 0) = Some Fr_black ∧
    ∀ i j, 0 ≤ i < image.N → 0 ≤ j < image.N → i ≠ 0 - 0 ∨ j ≠ 0 - 0 →
      at2 (image.Fr_Pixels out) i j
      = at2 (image.Fr_Pixels image.zero_FrontendImage) i j.
Proof.
  apply (CropFrontendImage_at_destination image.AllWhiteImage
           image.zero_FrontendImage 0 1 0 0 15 15 15 15).
  - apply wf_AllWhiteImage.
  - apply (cells_zero_array image.zero_FrontendPixel).
  - unfold image.N; lia.
  - unfold image.N; lia.
  - lia.
  - lia.
Defined.

(** The whole circuit on the all-white image: the full-bounds crop yields
    a black diagonal in an otherwise unset image, not the white image. *)
Example CropFrontendImage_full_bounds :
  transformations.CropFrontendImage (white_circuit 0 0 15 15) frontend.engine
  = mret black_diagonal.
Proof. vm_compute. reflexivity. Qed.

(** With a rectangle that does not start at the origin the first
    difference is negative: a field element no [int] holds, on which the
    type assertion panics. *)
Example CropFrontendImage_3_3_6_6 :
  transformations.CropFrontendImage (white_circuit 3 3 6 6) frontend.engine
  = panic "interface conversion: interface {} is *big.Int, not int".
Proof. vm_compute. reflexivity. Qed.

(** [image.Crop], by contrast, derives each coordinate from its own axis. *)
Example Crop_3_3_6_6 :
  ∃ img, image.Crop image.AllWhiteImage 3 3 6 6 = mret (img, None) ∧
    image.GetPixel img 3 3 = {| image.R := 255; image.G := 255; image.B := 255 |} ∧
    image.GetPixel img 4 0 = image.zero_RGBPixel ∧
    image.M_lookup img "width" = Some (image.int_ 4).
Proof. eexists. split; [vm_compute; reflexivity|]. repeat split. Qed.

(** C3, where the code departs from the claim. The claim has a failed
    verification of the incoming circuit proof end the transition. The
    Prover verifies the proof, prints FAIL when the verification fails, and
    goes on: what it returns is what it returns when every proof verifies. *)
Theorem Prover_goes_on_after_failed_verification {T} (B : Backend T) pk vk
    (proof_in : prover.Proof T) t rnd pcd err :
  prover.PCD_proof proof_in = Some pcd →
  transformations.T t = transformations.Crop
  ∨ transformations.T t = transformations.Identity →
  groth16_Verify B pcd vk (prover.Public_Witness proof_in) = Some err →
  (∃ l, lines (prover.Prover B pk vk proof_in t rnd)
        = "FAIL: Image did not pass verification against PCD Proof." :: l) ∧
  res (prover.Prover B pk vk proof_in t rnd)
  = res (prover.Prover (accepting B) pk vk proof_in t rnd).
Proof.
  intros Hpcd Ht Hverify. unfold prover.Prover. rewrite Hpcd.
  destruct (decide _) as [_|]; [|done].
  cbn [accepting with_Verify groth16_Verify]. rewrite Hverify. split.
  - eexists. apply lines_Println_bind.
  - rewrite !res_Println_bind. reflexivity.
Qed.

Lemma Prover_goes_on_after_failed_verification_witness :
  (∃ l, lines (prover.Prover (sample_Backend true false) sample_PK (Some tt)
                 proven_proof (crop_of 3 3 6 6) tt)
        = "FAIL: Image did not pass verification against PCD Proof." :: l) ∧
  res (prover.Prover (sample_Backend true false) sample_PK (Some tt)
         proven_proof (crop_of 3 3 6 6) tt)
  = res (prover.Prover (accepting (sample_Backend true false)) sample_PK (Some tt)
           proven_proof (crop_of 3 3 6 6) tt).
Proof.
  apply (Prover_goes_on_after_failed_verification (sample_Backend true false)
           sample_PK (Some tt) proven_proof (crop_of 3 3 6 6) tt tt
           "pairing check failed").
  - reflexivity.
  - left. reflexivity.
  - reflexivity.
Defined.

(** The run whose incoming proof does not verify prints FAIL and returns a
    new circuit proof over the cropped image. *)
Example Prover_after_failed_verification :
  ∃ out,
    prover.Prover (sample_Backend true false) sample_PK (Some tt)
      proven_proof (crop_of 3 3 6 6) tt
    = (["FAIL: Image did not pass verification against PCD Proof."], Ret out) ∧
    prover.PCD_proof out = Some tt ∧
    image.M_lookup (image.Image (prover.Z out)) "width" = Some (image.int_ 4).
Proof. eexists. split; [vm_compute; reflexivity|]. split; reflexivity. Qed.



(** C5, where the code departs from the claim. The claim has the base case
    build the witness of the Identity circuit, obtain a circuit proof and
    return it with the unchanged image. The Prover builds an assignment of
    the Crop circuit from the caller's parameters, and [ToFr] never sets
    [N]: the assignment misses a variable. [frontend.NewWitness] refuses
    such an assignment and hands back the nil witness, with which the call
    goes on until it panics. Whatever the image, the signature, the keys and
    the transformation are, the base case returns no proof. *)
Theorem Prover_base_case_makes_no_proof {T} (B : Backend T) pk vk
    (proof_in : prover.Proof T) t rnd :
  wants_every_variable B →
  prover.PCD_proof proof_in = None →
  let img := image.Image (prover.Z proof_in) in
  (∀ publicKey,
     missing_assignment
       (crop_witness (PublicKey_Bytes B publicKey) (prover.ImageSignature proof_in)
          (returned [] (image.ToBigEndian img)) img img
          (transformations.Fr_Params (transformations.ToFr t))) = true) ∧
  ∃ msg, res (prover.Prover B pk vk proof_in t rnd) = Panic msg.
Proof.
  intros Hrule Hpcd img. split.
  - intros publicKey. by apply missing_N.
  - by apply Prover_base_panics.
Qed.

(** The call the camera makes: the all-white picture, its signature, the
    Identity transformation. *)
Lemma Prover_base_case_makes_no_proof_witness :
  (∀ publicKey,
     missing_assignment
       (crop_witness (PublicKey_Bytes strict_Backend publicKey)
          (prover.ImageSignature signed_proof)
          (returned [] (image.ToBigEndian (image.Image (prover.Z signed_proof))))
          (image.Image (prover.Z signed_proof)) (image.Image (prover.Z signed_proof))
          (transformations.Fr_Params (transformations.ToFr identity_t))) = true) ∧
  ∃ msg, res (prover.Prover strict_Backend sample_PK (Some tt) signed_proof
                identity_t tt) = Panic msg.
Proof.
  apply (Prover_base_case_makes_no_proof strict_Backend sample_PK (Some tt)
           signed_proof identity_t tt).
  - intros c Hc. cbn. rewrite Hc. reflexivity.
  - reflexivity.
Defined.

(** The same run in full: the error of [frontend.NewWitness] is printed,
    nothing is returned. *)
Example Prover_base_case_of_the_camera :
  prover.Prover strict_Backend sample_PK (Some tt) signed_proof identity_t tt
  = ([witness_error "missing assignment"], Panic nil_dereference).
Proof. vm_compute. reflexivity. Qed.

(** C6, where the code departs from the claim. The claim has the Verifier
    return false for every proof that does not verify, a malformed one
    included. A proof that carries a circuit proof and no public witness,
    or one checked without a verifying key, is handed to [groth16.Verify]
    as it is: the call panics, and the Verifier neither prints a verdict
    nor returns one. *)
Theorem Verifier_panics_on_a_malformed_proof {T} (B : Backend T) vk_pp
    (proof : prover.Proof T) pcd :
  prover.PCD_proof proof = Some pcd →
  prover.Public_Witness proof = None ∨ generator.VerifyingKey vk_pp = None →
  ∃ msg, verifier.Verifier B vk_pp proof = panic msg.
Proof.
  intros Hpcd Hnil. unfold verifier.Verifier. rewrite Hpcd.
  destruct (prover.Public_Witness proof) as [w|]; [|by eexists].
  destruct Hnil as [|Hvk]; [done|]. rewrite Hvk. by eexists.
Qed.

Lemma Verifier_panics_on_a_malformed_proof_witness :
  ∃ msg, verifier.Verifier (sample_Backend true true) sample_VK unwitnessed_proof
         = panic msg.
Proof.
  apply (Verifier_panics_on_a_malformed_proof (sample_Backend true true) sample_VK
           unwitnessed_proof tt).
  - reflexivity.
  - left. reflexivity.
Defined.

(** C7, where the code departs from the claim. The claim has the Prover
    use the rectangle (0, 0, N-1, N-1) when it is given the Identity
    transformation. The second branch does; the base case, the only one the
    camera reaches, hands the caller's own parameters to gnark, a missing
    one read as 0: on an image with a signature of the signer, the
    assignment [frontend.NewWitness] receives, and refuses, is the one of
    the caller's rectangle, and its error is the one printed before the
    call panics. *)
Theorem Identity_in_the_base_case {T} (B : Backend T) pk vk
    (proof_in : prover.Proof T) t rnd publicKey sk e :
  prover.PCD_proof proof_in = None →
  generator.PK_PublicKey pk = Some publicKey →
  transformations.T t = transformations.Identity →
  let img := image.Image (prover.Z proof_in) in
  let big := returned [] (image.ToBigEndian img) in
  Signer_Sign B sk big = (prover.ImageSignature proof_in, None) →
  let c := crop_witness (PublicKey_Bytes B publicKey) (prover.ImageSignature proof_in)
             big img img (rectangle_of_caller t) in
  frontend_NewWitness B c = (None, Some e) →
  ∃ l msg, prover.Prover B pk vk proof_in t rnd
           = (lines (image.ToBigEndian img) ++ witness_error e :: l, Panic msg).
Proof.
  intros Hpcd Hpk _ img big _ c Hw.
  destruct (Prover_base_without_witness B pk vk proof_in t rnd publicKey (Some e)
              Hpcd Hpk Hw) as [Hres [l Hl]].
  exists l, nil_dereference.
  rewrite (run_eta (prover.Prover B pk vk proof_in t rnd)), Hres, Hl. reflexivity.
Qed.

(** The call of the camera: Identity without parameters is handed on as the
    rectangle (0, 0, 0, 0). *)
Lemma Identity_in_the_base_case_witness :
  ∃ l msg, prover.Prover telling_Backend sample_PK (Some tt) signed_proof identity_t tt
           = (lines (image.ToBigEndian (image.Image (prover.Z signed_proof)))
              ++ witness_error "N is not assigned; the rectangle is 0,0,0,0" :: l,
              Panic msg).
Proof.
  apply (Identity_in_the_base_case telling_Backend sample_PK (Some tt) signed_proof
           identity_t tt tt tt "N is not assigned; the rectangle is 0,0,0,0").
  - reflexivity.
  - reflexivity.
  - reflexivity.
  - reflexivity.
  - vm_compute. reflexivity.
Defined.

(** On the same proof the crop to the full bounds is handed on as
    (0, 0, 15, 15): in the base case the two transformations are told
    apart. *)
Example full_bounds_in_the_base_case :
  prover.Prover telling_Backend sample_PK (Some tt) signed_proof full_bounds tt
  = ([witness_error "N is not assigned; the rectangle is 0,0,15,15"],
     Panic nil_dereference).
Proof. vm_compute. reflexivity. Qed.

(** Cropping to the full bounds, by contrast, is the identity on the
    images of the data model (lemma [Crop_full_bounds]); were the recorded
    size beyond the grid, the crop would keep the pixels and record the size
    of the grid. *)
Example Crop_full_bounds_oversized :
  ∃ img, image.Crop oversized 0 0 (image.N - 1) (image.N - 1) = mret (img, None) ∧
    image.Pixels img = image.Pixels oversized ∧
    image.M_lookup img "width" = Some (image.int_ 16).
Proof. eexists. split; [vm_compute; reflexivity|]. split; reflexivity. Qed.

(** C8, where the code departs from the claim. The claim has every
    compilation or setup error surfaced in the error the Generator returns.
    Once the image is signed, the Generator prints the error of
    [frontend.Compile] and goes on to [groth16.Setup] with the nil
    constraint system the failed compilation left, on which the setup
    panics: the compilation error reaches the caller neither as the
    returned error nor next to any key, the call does not return. *)
Theorem Generator_panics_after_a_compile_error {T} (B : Backend T) img t rnd sk e
    signature err :
  ceddsa_New B rnd = (Some sk, e) →
  let big := returned [] (image.ToBigEndian img) in
  Signer_Sign B sk big = (signature, None) →
  let params :=
    if decide (transformations.T t = transformations.Identity) then
      {| transformations.N := frontend.nil;
         transformations.X0 := frontend.int 0;
         transformations.Y0 := frontend.int 0;
         transformations.X1 := frontend.int (image.N - 1);
         transformations.Y1 := frontend.int (image.N - 1) |}
    else transformations.Fr_Params (transformations.ToFr t) in
  let c := crop_witness (PublicKey_Bytes B (Signer_Public B sk)) signature big img img
             params in
  frontend_Compile B c = (None, Some err) →
  ∃ l msg, generator.Generator B img t rnd = (l ++ [err], Panic msg).
Proof.
  intros Hnew big Hsig params c Hcompile. unfold generator.Generator.
  assert (signature = (Signer_Sign B sk big).1) as -> by (by rewrite Hsig).
  pose proof (res_Sign B img rnd sk e Hnew) as HSign.
  destruct (generator.Sign B img rnd) as [ls r]. cbn in HSign. subst r.
  rewrite bind_run.
  assert (transformations.Fr_Params
            (if decide (transformations.T t = transformations.Identity) then
               {| transformations.Fr_T := transformations.Fr_T (transformations.ToFr t);
                  transformations.Fr_Params :=
                    {| transformations.N :=
                         transformations.N
                           (transformations.Fr_Params (transformations.ToFr t));
                       transformations.X0 := frontend.int 0;
                       transformations.Y0 := frontend.int 0;
                       transformations.X1 := frontend.int (image.N - 1);
                       transformations.Y1 := frontend.int (image.N - 1) |} |}
             else transformations.ToFr t) = params) as ->.
  { unfold params. by destruct (decide _). }
  fold big. unfold c, crop_witness in Hcompile. rewrite Hcompile.
  exists ls. eexists. cbn. by rewrite append_empty_r.
Qed.

(** A backend whose compilation fails: the Generator prints the error and
    panics in the setup. *)
Lemma Generator_panics_after_a_compile_error_witness :
  ∃ l msg, generator.Generator (sample_Backend false true) image.AllWhiteImage
             identity_t tt
           = (l ++ ["compile failed"], Panic msg).
Proof.
  apply (Generator_panics_after_a_compile_error (sample_Backend false true)
           image.AllWhiteImage identity_t tt tt None sample_signature "compile failed").
  - reflexivity.
  - reflexivity.
  - reflexivity.
Defined.

(** The same run in full. *)
Example Generator_compile_failure :
  generator.Generator (sample_Backend false true) image.AllWhiteImage identity_t tt
  = (["compile failed"], Panic "unrecognized R1CS curve type").
Proof. vm_compute. reflexivity. Qed.

(** C9. The encoding of an image is deterministic: the only thing a run of
    the encoder does not take from the image is the order in which the
    runtime enumerates the metadata, and in whichever two orders two runs
    meet the entries, the JSON bytes of [ToByte] and the big-endian field
    element of [ToBigEndian] are the same, as is what the runs print. *)
Theorem canonical_encoding_is_deterministic img e1 e2 :
  enumerates img e1 → enumerates img e2 →
  image.ToByte_with e1 img = image.ToByte_with e2 img ∧
  image.ToBigEndian_with e1 img = image.ToBigEndian_with e2 img.
Proof.
  intros H1 H2.
  assert (image.ToByte_with e1 img = image.ToByte_with e2 img) as Heq.
  { unfold image.ToByte_with, image.Marshal.
    by rewrite (json_map_enumeration img e1 e2 H1 H2). }
  split; [done|]. unfold image.ToBigEndian_with. by rewrite Heq.
Qed.

(** The metadata of the all-white image, enumerated forwards and
    backwards. *)
Lemma canonical_encoding_is_deterministic_witness :
  image.ToByte_with (image.entries_of image.AllWhiteImage) image.AllWhiteImage
  = image.ToByte_with (reverse <$> image.entries_of image.AllWhiteImage)
      image.AllWhiteImage ∧
  image.ToBigEndian_with (image.entries_of image.AllWhiteImage) image.AllWhiteImage
  = image.ToBigEndian_with (reverse <$> image.entries_of image.AllWhiteImage)
      image.AllWhiteImage.
Proof.
  apply (canonical_encoding_is_deterministic image.AllWhiteImage
           (image.entries_of image.AllWhiteImage)
           (reverse <$> image.entries_of image.AllWhiteImage)).
  - apply enumerates_entries_of.
  - unfold enumerates, image.entries_of.
    destruct (image.M image.AllWhiteImage); cbn; [apply reverse_Permutation|done].
Defined.

(** C10. On a proof that carries a circuit proof, a transformation whose
    tag is neither Identity (0) nor Crop (1) makes the Prover return the
    zero value of [Proof]: no circuit proof, the zero image and key, no
    signature, no public witness; nothing is printed and nothing derived
    from the input. *)
Theorem Prover_unknown_transformation {T} (B : Backend T) pk vk
    (proof_in : prover.Proof T) t rnd pcd :
  prover.PCD_proof proof_in = Some pcd →
  transformations.T t ≠ transformations.Identity →
  transformations.T t ≠ transformations.Crop →
  prover.Prover B pk vk proof_in t rnd = mret (prover.zero_Proof T).
Proof.
  intros Hpcd Hid Hcrop. unfold prover.Prover. rewrite Hpcd.
  rewrite decide_False by tauto. reflexivity.
Qed.

Lemma Prover_unknown_transformation_witness :
  prover.Prover (sample_Backend true true) sample_PK (Some tt) proven_proof
    {| transformations.T := 2; transformations.Params := ∅ |} tt
  = mret (prover.zero_Proof sample_Types).
Proof.
  apply (Prover_unknown_transformation (sample_Backend true true) sample_PK (Some tt)
           proven_proof {| transformations.T := 2; transformations.Params := ∅ |} tt tt).
  - reflexivity.
  - discriminate.
  - discriminate.
Defined.

(** * Further properties

    Properties of the code beside the claims: the functions of [image] the
    claims do not reach, the earlier [Crop], the Crop circuit on the APIs of
    gnark, and how [Sign], [Generator], [Prover], [Verifier] and the camera
    end and compose. Lemmas come first in each part; the theorems numbered X1, X2,
    ... are the properties themselves. *)

(** ** Pixels *)

Lemma GetPixel_cells img f x y :
  cells (image.Pixels img) f → 0 ≤ x < image.N → 0 ≤ y < image.N →
  image.GetPixel img x y = f y x.
Proof.
  intros [_ Hf] Hx Hy. unfold image.GetPixel.
  rewrite decide_True by lia. by rewrite Hf.
Qed.

Lemma GetPixel_outside img x y :
  ¬ (0 ≤ x < image.N ∧ 0 ≤ y < image.N) → image.GetPixel img x y = image.zero_RGBPixel.
Proof. intros. unfold image.GetPixel. rewrite decide_False; [done|lia]. Qed.

Lemma cells_SetPixel img f x y color :
  cells (image.Pixels img) f → 0 ≤ x < image.N → 0 ≤ y < image.N →
  cells (image.Pixels (image.SetPixel img x y color)) (upd f y x color).
Proof.
  intros [[Hl Hr] Hf] Hx Hy. unfold image.SetPixel.
  rewrite decide_True by lia. cbn [image.Pixels]. split.
  - split; [by rewrite length_alter|].
    apply Forall_forall. intros row Hrow.
    apply list_elem_of_lookup in Hrow as [i Hi].
    destruct (decide (i = Z.to_nat y)) as [->|Hne].
    + rewrite list_lookup_alter_eq in Hi.
      destruct (image.Pixels img !! Z.to_nat y) as [r|] eqn:Hy'; [|done].
      cbn in Hi. injection Hi as <-. rewrite length_insert.
      by eapply (Forall_lookup_1 _ _ _ _ Hr).
    + rewrite list_lookup_alter_ne in Hi by done.
      by eapply (Forall_lookup_1 _ _ _ _ Hr).
  - intros i j Hi Hj. unfold upd, at2.
    rewrite at1_lookup by (rewrite length_alter; lia).
    pose proof (Hf i j Hi Hj) as Hij. unfold at2 in Hij.
    rewrite at1_lookup in Hij by lia.
    destruct (image.Pixels img !! Z.to_nat i) as [row|] eqn:Hrow; [|done].
    cbn in Hij.
    assert (length row = Z.to_nat image.N)
      by (by eapply (Forall_lookup_1 _ _ _ _ Hr)).
    rewrite at1_lookup in Hij by lia.
    destruct (decide (i = y)) as [->|Hne].
    + rewrite list_lookup_alter_eq, Hrow. cbn.
      rewrite at1_lookup by (rewrite length_insert; lia).
      destruct (decide (j = x)) as [->|Hnej].
      * rewrite list_lookup_insert_eq by lia. by rewrite decide_True.
      * rewrite list_lookup_insert_ne by lia. by rewrite decide_False by tauto.
    + rewrite list_lookup_alter_ne by lia. rewrite Hrow. cbn.
      rewrite at1_lookup by lia. by rewrite decide_False by tauto.
Qed.

Lemma SetPixel_outside img x y color :
  ¬ (0 ≤ x < image.N ∧ 0 ≤ y < image.N) → image.SetPixel img x y color = img.
Proof. intros. unfold image.SetPixel. rewrite decide_False; [done|lia]. Qed.

Lemma M_SetPixel img x y color : image.M (image.SetPixel img x y color) = image.M img.
Proof. unfold image.SetPixel. by case_decide. Qed.

Lemma I_eq (a b : image.I) :
  image.Pixels a = image.Pixels b → image.M a = image.M b → a = b.
Proof. destruct a, b; cbn; by intros -> ->. Qed.

(** X1. [GetPixel] reads what [SetPixel] wrote. A pixel set within the grid
    is the pixel read at its coordinate, and every other coordinate reads
    as before; a [SetPixel] outside the grid changes nothing, and a
    [GetPixel] outside the grid reads the zero pixel. The array keeps its
    size and the metadata is untouched. *)
Theorem SetPixel_then_GetPixel img x y color x' y' :
  image.wf_array (image.Pixels img) →
  image.wf_array (image.Pixels (image.SetPixel img x y color)) ∧
  image.M (image.SetPixel img x y color) = image.M img ∧
  image.GetPixel (image.SetPixel img x y color) x' y'
  = (if decide (0 ≤ x < image.N ∧ 0 ≤ y < image.N ∧ x' = x ∧ y' = y) then color
     else image.GetPixel img x' y') ∧
  (¬ (0 ≤ x' < image.N ∧ 0 ≤ y' < image.N) →
   image.GetPixel (image.SetPixel img x y color) x' y' = image.zero_RGBPixel).
Proof.
  intros Hwf. destruct (wf_array_cells image.zero_RGBPixel _ Hwf) as [f Hf].
  split; [|split; [apply M_SetPixel|split; [|apply GetPixel_outside]]].
  - destruct (decide (0 ≤ x < image.N ∧ 0 ≤ y < image.N)) as [[Hx Hy]|Hout].
    + apply (cells_SetPixel img f x y color Hf Hx Hy).
    + by rewrite SetPixel_outside.
  - destruct (decide (0 ≤ x < image.N ∧ 0 ≤ y < image.N)) as [[Hx Hy]|Hout].
    + pose proof (cells_SetPixel img f x y color Hf Hx Hy) as Hc.
      destruct (decide (0 ≤ x' < image.N ∧ 0 ≤ y' < image.N)) as [Hin'|Hout'].
      * rewrite (GetPixel_cells _ _ x' y' Hc), (GetPixel_cells _ _ x' y' Hf) by tauto.
        unfold upd. repeat case_decide; (done || lia).
      * rewrite !GetPixel_outside by done. case_decide; [lia|done].
    + rewrite SetPixel_outside by done. rewrite decide_False; [done|tauto].
Qed.

Lemma SetPixel_then_GetPixel_witness :
  image.wf_array (image.Pixels (image.SetPixel image.NewImage 3 5 (px 1 2 3))) ∧
  image.M (image.SetPixel image.NewImage 3 5 (px 1 2 3)) = image.M image.NewImage ∧
  image.GetPixel (image.SetPixel image.NewImage 3 5 (px 1 2 3)) 3 5
  = (if decide (0 ≤ 3 < image.N ∧ 0 ≤ 5 < image.N ∧ 3 = 3 ∧ 5 = 5) then px 1 2 3
     else image.GetPixel image.NewImage 3 5) ∧
  (¬ (0 ≤ 3 < image.N ∧ 0 ≤ 5 < image.N) →
   image.GetPixel (image.SetPixel image.NewImage 3 5 (px 1 2 3)) 3 5
   = image.zero_RGBPixel).
Proof.
  apply (SetPixel_then_GetPixel image.NewImage 3 5 (px 1 2 3) 3 5).
  apply (cells_zero_array image.zero_RGBPixel).
Defined.

(** ** Metadata *)

Lemma M_lookup_M_store img key v key' :
  is_Some (image.M img) →
  image.M_lookup (image.M_store img key v) key'
  = if decide (key = key') then Some v else image.M_lookup img key'.
Proof.
  intros [m Hm]. unfold image.M_lookup, image.M_store. cbn. rewrite Hm. cbn.
  case_decide as Hk.
  - subst. by rewrite lookup_insert_eq.
  - by rewrite lookup_insert_ne.
Qed.

Lemma M_lookup_is_Some img key v :
  image.M_lookup img key = Some v → is_Some (image.M img).
Proof. unfold image.M_lookup. destruct (image.M img); [eauto|done]. Qed.

Lemma M_M_store_is_Some img key v :
  is_Some (image.M img) → is_Some (image.M (image.M_store img key v)).
Proof. intros [m Hm]. unfold image.M_store. cbn. rewrite Hm. by eexists. Qed.

(** ** [image.Crop] *)

(** The accepted call in terms of the cells and of the metadata read back. *)
Lemma Crop_within img f x0 y0 x1 y1 width height :
  cells (image.Pixels img) f →
  image.M_lookup img "width" = Some (image.int_ width) →
  image.M_lookup img "height" = Some (image.int_ height) →
  0 ≤ x0 ≤ x1 → x1 < width → x1 < image.N →
  0 ≤ y0 ≤ y1 → y1 < height → y1 < image.N →
  ∃ out,
    image.Crop img x0 y0 x1 y1 = mret (out, None) ∧
    cells (image.Pixels out) (cropped f x0 y0 x1 y1) ∧
    ∀ key, image.M_lookup out key
           = if decide (key = "height") then Some (image.int_ (y1 - y0 + 1))
             else if decide (key = "width") then Some (image.int_ (x1 - x0 + 1))
             else image.M_lookup img key.
Proof.
  intros Hf Hw Hh Hx Hxw HxN Hy Hyh HyN.
  destruct (Crop_accepts img _ x0 y0 x1 y1 width height Hf) as (pixels & HCrop & Hc);
    [by rewrite Hw|by rewrite Hh|done..|].
  eexists. split; [exact HCrop|].
  assert (is_Some (image.M img)) as HM by (by eapply M_lookup_is_Some).
  split; [apply Hc|].
  intros key. rewrite M_lookup_M_store by (by apply M_M_store_is_Some).
  rewrite M_lookup_M_store by done.
  repeat case_decide; (done || congruence).
Qed.

(** X2. An accepted [Crop] moves the rectangle to the top left corner: the
    pixel at (x, y) of the result is the pixel at (x0 + x, y0 + y) of the
    input inside the new width and height and black outside; the metadata
    records the new width and height and keeps every other entry; the call
    prints nothing and returns the nil error. *)
Theorem Crop_moves_the_rectangle img x0 y0 x1 y1 width height :
  image.wf_array (image.Pixels img) →
  image.M_lookup img "width" = Some (image.int_ width) →
  image.M_lookup img "height" = Some (image.int_ height) →
  0 ≤ x0 ≤ x1 → x1 < width → x1 < image.N →
  0 ≤ y0 ≤ y1 → y1 < height → y1 < image.N →
  ∃ out,
    image.Crop img x0 y0 x1 y1 = mret (out, None) ∧
    image.wf_array (image.Pixels out) ∧
    (∀ x y, 0 ≤ x < image.N → 0 ≤ y < image.N →
       image.GetPixel out x y
       = if decide (x ≤ x1 - x0 ∧ y ≤ y1 - y0) then image.GetPixel img (x0 + x) (y0 + y)
         else image.zero_RGBPixel) ∧
    image.M_lookup out "width" = Some (image.int_ (x1 - x0 + 1)) ∧
    image.M_lookup out "height" = Some (image.int_ (y1 - y0 + 1)) ∧
    (∀ key, key ≠ "width" → key ≠ "height" →
       image.M_lookup out key = image.M_lookup img key).
Proof.
  intros Hwf Hw Hh Hx Hxw HxN Hy Hyh HyN.
  pose proof (cells_self image.zero_RGBPixel _ Hwf) as Hf.
  destruct (Crop_within img _ x0 y0 x1 y1 width height Hf Hw Hh)
    as (out & HCrop & Hc & HM); [done..|].
  exists out. split; [done|]. split; [apply Hc|]. split; [|split; [|split]].
  - intros x y Hx' Hy'.
    rewrite (GetPixel_cells _ (cropped _ x0 y0 x1 y1) x y) by done.
    unfold cropped. repeat case_decide; try lia; [|done].
    by rewrite (GetPixel_cells _ _ (x0 + x) (y0 + y) Hf) by lia.
  - by rewrite HM.
  - by rewrite HM.
  - intros key ??. rewrite HM. by rewrite !decide_False.
Qed.

Lemma Crop_moves_the_rectangle_witness :
  ∃ out,
    image.Crop image.AllWhiteImage 3 3 6 6 = mret (out, None) ∧
    image.wf_array (image.Pixels out) ∧
    (∀ x y, 0 ≤ x < image.N → 0 ≤ y < image.N →
       image.GetPixel out x y
       = if decide (x ≤ 6 - 3 ∧ y ≤ 6 - 3)
         then image.GetPixel image.AllWhiteImage (3 + x) (3 + y)
         else image.zero_RGBPixel) ∧
    image.M_lookup out "width" = Some (image.int_ (6 - 3 + 1)) ∧
    image.M_lookup out "height" = Some (image.int_ (6 - 3 + 1)) ∧
    (∀ key, key ≠ "width" → key ≠ "height" →
       image.M_lookup out key = image.M_lookup image.AllWhiteImage key).
Proof.
  apply (Crop_moves_the_rectangle image.AllWhiteImage 3 3 6 6 16 16).
  - apply wf_AllWhiteImage.
  - reflexivity.
  - reflexivity.
  - lia.
  - lia.
  - unfold image.N; lia.
  - lia.
  - lia.
  - unfold image.N; lia.
Defined.

(** The three ways a call of [Crop] on an image of the data model ends. *)
Lemma Crop_cases img x0 y0 x1 y1 :
  dims_within img →
  (image.Crop img x0 y0 x1 y1
     = mret (img, Some "invalid image metadata for width and height") ∧
   ¬ ∃ width height, image.M_lookup img "width" = Some (image.int_ width) ∧
                     image.M_lookup img "height" = Some (image.int_ height)) ∨
  (image.Crop img x0 y0 x1 y1 = mret (img, Some "invalid crop dimensions: out of bounds") ∧
   ∃ width height, image.M_lookup img "width" = Some (image.int_ width) ∧
                   image.M_lookup img "height" = Some (image.int_ height) ∧
                   ¬ (0 ≤ x0 ≤ x1 ∧ x1 < width ∧ 0 ≤ y0 ≤ y1 ∧ y1 < height)) ∨
  (∃ width height, image.M_lookup img "width" = Some (image.int_ width) ∧
                   image.M_lookup img "height" = Some (image.int_ height) ∧
                   width ≤ image.N ∧ height ≤ image.N ∧
                   0 ≤ x0 ≤ x1 ∧ x1 < width ∧ 0 ≤ y0 ≤ y1 ∧ y1 < height).
Proof.
  intros Hdims.
  destruct (image.as_int (image.M_lookup img "width")) as [width|] eqn:Hw.
  2:{ left. split; [unfold image.Crop; by rewrite Hw|].
      intros (w & h & Hw' & _). by rewrite Hw' in Hw. }
  destruct (image.as_int (image.M_lookup img "height")) as [height|] eqn:Hh.
  2:{ left. split; [unfold image.Crop; by rewrite Hw, Hh|].
      intros (w & h & _ & Hh'). by rewrite Hh' in Hh. }
  right. apply as_int_Some in Hw as Hw', Hh as Hh'.
  destruct (decide (0 ≤ x0 ≤ x1 ∧ x1 < width ∧ 0 ≤ y0 ≤ y1 ∧ y1 < height)) as [Hok|Hbad].
  - right. exists width, height.
    pose proof (Hdims "width" width (or_introl eq_refl) Hw').
    pose proof (Hdims "height" height (or_intror eq_refl) Hh').
    tauto.
  - left. split; [|by exists width, height].
    apply (Crop_rejects _ _ _ _ _ width height); [done..|lia].
Qed.

(** On an image of the data model [Crop] returns. *)
Lemma Crop_returns img x0 y0 x1 y1 :
  image.wf_array (image.Pixels img) → dims_within img →
  ∃ out err, image.Crop img x0 y0 x1 y1 = mret (out, err).
Proof.
  intros Hwf Hdims.
  destruct (Crop_cases img x0 y0 x1 y1 Hdims)
    as [[HCrop _]|[[HCrop _]|(w & h & Hw & Hh & HwN & HhN & Hok)]]; [by eexists _, _..|].
  destruct (Crop_within img _ x0 y0 x1 y1 w h (cells_self image.zero_RGBPixel _ Hwf)
              Hw Hh) as (out & HCrop & _); [lia..|].
  by exists out, None.
Qed.

(** X3. On an image of the data model (N by N pixels, recorded width and
    height at most N) [Crop] always returns, printing nothing. It returns
    the nil error exactly when the metadata holds an integer width and an
    integer height and the rectangle satisfies 0 <= x0 <= x1 < width and
    0 <= y0 <= y1 < height; whenever it returns an error the image is
    unchanged. *)
Theorem Crop_fails_exactly_when img x0 y0 x1 y1 :
  image.wf_array (image.Pixels img) → dims_within img →
  ∃ out err,
    image.Crop img x0 y0 x1 y1 = mret (out, err) ∧
    (err = None ↔
     ∃ width height, image.M_lookup img "width" = Some (image.int_ width) ∧
                     image.M_lookup img "height" = Some (image.int_ height) ∧
                     0 ≤ x0 ≤ x1 ∧ x1 < width ∧ 0 ≤ y0 ≤ y1 ∧ y1 < height) ∧
    (err ≠ None → out = img).
Proof.
  intros Hwf Hdims.
  destruct (Crop_cases img x0 y0 x1 y1 Hdims)
    as [[HCrop Hno]|[[HCrop (w & h & Hw & Hh & Hbad)]|(w & h & Hw & Hh & HwN & HhN & Hok)]].
  - eexists _, _. split; [exact HCrop|]. split; [|done]. split; [done|].
    intros (w & h & Hw & Hh & _). destruct Hno. by exists w, h.
  - eexists _, _. split; [exact HCrop|]. split; [|done]. split; [done|].
    intros (w' & h' & Hw' & Hh' & Hok). rewrite Hw in Hw'. rewrite Hh in Hh'.
    simplify_eq. tauto.
  - destruct (Crop_within img _ x0 y0 x1 y1 w h (cells_self image.zero_RGBPixel _ Hwf)
                Hw Hh) as (out & HCrop & _); [lia..|].
    exists out, None. split; [exact HCrop|]. split; [|done]. split; [|done].
    intros _. exists w, h. tauto.
Qed.

Lemma Crop_fails_exactly_when_witness :
  ∃ out err,
    image.Crop image.AllWhiteImage 5 5 3 3 = mret (out, err) ∧
    (err = None ↔
     ∃ width height,
       image.M_lookup image.AllWhiteImage "width" = Some (image.int_ width) ∧
       image.M_lookup image.AllWhiteImage "height" = Some (image.int_ height) ∧
       0 ≤ 5 ≤ 3 ∧ 3 < width ∧ 0 ≤ 5 ≤ 3 ∧ 3 < height) ∧
    (err ≠ None → out = image.AllWhiteImage).
Proof.
  apply (Crop_fails_exactly_when image.AllWhiteImage 5 5 3 3).
  - apply wf_AllWhiteImage.
  - apply dims_AllWhiteImage.
Defined.

(** X4. [Crop] keeps the invariants of the data model: called on an image
    of N by N pixels whose recorded width and height are at most N, it
    returns an image of N by N pixels whose recorded width and height are at
    most N, whatever the rectangle and whether or not it reports an error. *)
Theorem Crop_keeps_the_invariants img x0 y0 x1 y1 :
  image.wf_array (image.Pixels img) → dims_within img →
  ∃ out err,
    image.Crop img x0 y0 x1 y1 = mret (out, err) ∧
    image.wf_array (image.Pixels out) ∧ dims_within out.
Proof.
  intros Hwf Hdims.
  destruct (Crop_cases img x0 y0 x1 y1 Hdims)
    as [[HCrop Hno]|[[HCrop _]|(w & h & Hw & Hh & HwN & HhN & Hok)]].
  - by eexists _, _.
  - by eexists _, _.
  - destruct (Crop_within img _ x0 y0 x1 y1 w h (cells_self image.zero_RGBPixel _ Hwf)
                Hw Hh) as (out & HCrop & Hc & HM); [lia..|].
    exists out, None. split; [exact HCrop|]. split; [apply Hc|].
    intros key n [-> | ->]; rewrite HM; cbn; intros [= <-]; lia.
Qed.

Lemma Crop_keeps_the_invariants_witness :
  ∃ out err,
    image.Crop image.AllWhiteImage 3 3 6 6 = mret (out, err) ∧
    image.wf_array (image.Pixels out) ∧ dims_within out.
Proof.
  apply (Crop_keeps_the_invariants image.AllWhiteImage 3 3 6 6).
  - apply wf_AllWhiteImage.
  - apply dims_AllWhiteImage.
Defined.

(** X5. Crops compose: cropping to (x0, y0, x1, y1) and then cropping the
    result to (a0, b0, a1, b1), a rectangle inside the first one, is the
    single crop to (x0 + a0, y0 + b0, x0 + a1, y0 + b1), pixels and
    metadata alike. *)
Theorem Crop_composes img x0 y0 x1 y1 a0 b0 a1 b1 width height :
  image.wf_array (image.Pixels img) →
  image.M_lookup img "width" = Some (image.int_ width) →
  image.M_lookup img "height" = Some (image.int_ height) →
  0 ≤ x0 ≤ x1 → x1 < width → x1 < image.N →
  0 ≤ y0 ≤ y1 → y1 < height → y1 < image.N →
  0 ≤ a0 ≤ a1 → a1 ≤ x1 - x0 → 0 ≤ b0 ≤ b1 → b1 ≤ y1 - y0 →
  ('(mid, _) ← image.Crop img x0 y0 x1 y1; image.Crop mid a0 b0 a1 b1)
  = image.Crop img (x0 + a0) (y0 + b0) (x0 + a1) (y0 + b1).
Proof.
  intros Hwf Hw Hh Hx Hxw HxN Hy Hyh HyN Ha Ha1 Hb Hb1.
  pose proof (cells_self image.zero_RGBPixel _ Hwf) as Hf.
  set (f := λ i j, default image.zero_RGBPixel (at2 (image.Pixels img) i j)) in Hf.
  assert (is_Some (image.M img)) as [m Hm] by (by eapply M_lookup_is_Some).
  destruct (Crop_accepts img f x0 y0 x1 y1 width height Hf) as (p1 & HC1 & Hc1);
    [by rewrite Hw|by rewrite Hh|done..|].
  rewrite HC1, bind_mret.
  set (mid := image.M_store (image.M_store _ "width" _) "height" _).
  assert (image.Pixels mid = p1) as Hp1 by reflexivity.
  destruct (Crop_accepts mid (cropped f x0 y0 x1 y1) a0 b0 a1 b1
              (x1 - x0 + 1) (y1 - y0 + 1)) as (p2 & HC2 & Hc2);
    [by rewrite Hp1| | |lia..|].
  { unfold mid. rewrite M_lookup_M_store by (apply M_M_store_is_Some; cbn; by rewrite Hm).
    rewrite M_lookup_M_store by (cbn; by rewrite Hm). reflexivity. }
  { unfold mid. rewrite M_lookup_M_store by (apply M_M_store_is_Some; cbn; by rewrite Hm).
    reflexivity. }
  destruct (Crop_accepts img f (x0 + a0) (y0 + b0) (x0 + a1) (y0 + b1) width height Hf)
    as (p3 & HC3 & Hc3); [by rewrite Hw|by rewrite Hh|lia..|].
  rewrite HC2, HC3. do 2 f_equal.
  assert (p2 = p3) as ->.
  { eapply cells_eq; [exact Hc2|]. eapply cells_ext; [|exact Hc3].
    intros i j ??. unfold cropped. repeat case_decide; try lia; try done.
    f_equal; lia. }
  unfold mid, image.M_store. cbn [image.Pixels image.M]. rewrite Hm. cbn.
  do 2 f_equal.
  replace (x0 + a1 - (x0 + a0) + 1) with (a1 - a0 + 1) by lia.
  replace (y0 + b1 - (y0 + b0) + 1) with (b1 - b0 + 1) by lia.
  apply map_eq. intros key.
  destruct (decide (key = "height")) as [->|Hkh].
  { by rewrite !lookup_insert_eq. }
  rewrite !(lookup_insert_ne _ "height") by congruence.
  destruct (decide (key = "width")) as [->|Hkw].
  { by rewrite !lookup_insert_eq. }
  by rewrite !lookup_insert_ne by congruence.
Qed.

Lemma Crop_composes_witness :
  ('(mid, _) ← image.Crop image.AllWhiteImage 2 2 9 9; image.Crop mid 1 1 4 4)
  = image.Crop image.AllWhiteImage (2 + 1) (2 + 1) (2 + 4) (2 + 4).
Proof.
  apply (Crop_composes image.AllWhiteImage 2 2 9 9 1 1 4 4 16 16).
  - apply wf_AllWhiteImage.
  - reflexivity.
  - reflexivity.
  - lia.
  - lia.
  - unfold image.N; lia.
  - lia.
  - lia.
  - unfold image.N; lia.
  - lia.
  - lia.
  - lia.
  - lia.
Defined.

(** ** Loops that panic *)

Lemma for_range_ends {St} (body : Z → St → Run St) msg count start s :
  (∀ i t, start ≤ i < start + Z.of_nat count →
          (∃ t', res (body i t) = Ret t') ∨ res (body i t) = Panic msg) →
  (∃ s', res (for_range start count body s) = Ret s')
  ∨ res (for_range start count body s) = Panic msg.
Proof.
  revert start s. induction count as [|c IH]; intros start s Hbody.
  - left. by exists s.
  - cbn [for_range]. rewrite res_bind.
    destruct (Hbody start s) as [[t' ->]| ->]; [lia| |by right].
    apply IH. intros i t Hi. apply Hbody. lia.
Qed.

(** A loop panics when one of its rounds does, however the rounds before
    it end, as long as they keep what that round relies on. *)
Lemma for_range_panics {St} (Q : St → Prop) (body : Z → St → Run St) msg k
    count start s :
  start ≤ k < start + Z.of_nat count →
  Q s →
  (∀ i t, start ≤ i < k → Q t →
          (∃ t', res (body i t) = Ret t' ∧ Q t') ∨ res (body i t) = Panic msg) →
  (∀ t, Q t → res (body k t) = Panic msg) →
  res (for_range start count body s) = Panic msg.
Proof.
  revert start s. induction count as [|c IH]; intros start s Hk Hs Hbefore Hat; [lia|].
  cbn [for_range]. rewrite res_bind.
  destruct (decide (start = k)) as [->|Hne]; [by rewrite Hat|].
  destruct (Hbefore start s) as [(t' & -> & Ht')| ->]; [lia|done| |done].
  apply IH; [lia|done| |done]. intros i t Hi. apply Hbefore. lia.
Qed.

Lemma index2_ends {A} (a : list (list A)) i j :
  (∃ v, res (index2 a i j) = Ret v) ∨ res (index2 a i j) = Panic "index out of range".
Proof. unfold index2. destruct (at2 a i j); [left; by eexists|by right]. Qed.

Lemma modify2_ends {A} (a : list (list A)) i j g :
  (∃ a', res (modify2 a i j g) = Ret a')
  ∨ res (modify2 a i j g) = Panic "index out of range".
Proof.
  unfold modify2. destruct (at1 a i) as [row|]; [|by right].
  destruct (at1 row j); [left; by eexists|by right].
Qed.

Lemma copy_body_ends {A} (src t : list (list A)) i j y x :
  (∃ t', res (p ← index2 src i j; store2 t y x p) = Ret t' ∧ True)
  ∨ res (p ← index2 src i j; store2 t y x p) = Panic "index out of range".
Proof.
  rewrite res_bind. destruct (index2_ends src i j) as [[v ->]| ->]; [|by right].
  destruct (modify2_ends t y x (λ _, v)) as [[t' Ht']|Hp]; [left|right]; eauto.
Qed.

Lemma index2_outside {A} (a : list (list A)) i j :
  image.wf_array a → ¬ (0 ≤ i < image.N ∧ 0 ≤ j < image.N) →
  index2 a i j = panic "index out of range".
Proof.
  intros Hwf Hout. unfold index2, at2.
  destruct (at1 a i) as [row|] eqn:Hrow; [|done]. cbn.
  pose proof (wf_array_row _ _ _ Hwf Hrow) as Hlen.
  rewrite at1_None; [done|].
  unfold at1 in Hrow. case_decide as Hi; [|done].
  destruct Hwf as [Hl _]. lia.
Qed.

(** X6. [Crop] trusts the recorded size. When the metadata records a width
    or a height beyond N and the rectangle, valid for that size, reaches
    beyond the grid, the copy of the pixels reads outside the array and the
    call panics with an index out of range. *)
Theorem Crop_panics_beyond_the_grid img x0 y0 x1 y1 width height :
  image.wf_array (image.Pixels img) →
  image.M_lookup img "width" = Some (image.int_ width) →
  image.M_lookup img "height" = Some (image.int_ height) →
  0 ≤ x0 ≤ x1 → x1 < width → 0 ≤ y0 ≤ y1 → y1 < height →
  image.N ≤ x1 ∨ image.N ≤ y1 →
  res (image.Crop img x0 y0 x1 y1) = Panic "index out of range".
Proof.
  intros Hwf Hw Hh Hx Hxw Hy Hyh Hbig.
  unfold image.Crop. rewrite Hw, Hh. cbn [image.as_int].
  rewrite decide_False by lia. rewrite res_bind.
  set (inner := λ (y : Z) (temp : list (list image.RGBPixel)),
         for_upto (x1 - x0 + 1)
           (λ x temp, p ← index2 (image.Pixels img) (y0 + y) (x0 + x);
                      store2 temp y x p) temp).
  assert (∀ y t, (∃ t', res (inner y t) = Ret t' ∧ True)
                 ∨ res (inner y t) = Panic "index out of range") as Hinner.
  { intros y t.
    destruct (for_range_ends
                (λ x temp, p ← index2 (image.Pixels img) (y0 + y) (x0 + x);
                           store2 temp y x p)
                "index out of range" (Z.to_nat (x1 - x0 + 1)) 0 t) as [[t' Ht']|Hp];
      [|left; by exists t'|by right].
    intros i u _. destruct (copy_body_ends (image.Pixels img) u (y0 + y) (x0 + i) y i)
      as [(u' & Hu' & _)|Hp]; [left; by exists u'|by right]. }
  enough (res (for_upto (y1 - y0 + 1) inner (image.zero_array image.zero_RGBPixel))
          = Panic "index out of range") as -> by done.
  unfold for_upto.
  destruct (decide (image.N ≤ y0)) as [Hy0|Hy0].
  { (* the first cell read lies below the grid *)
    apply (for_range_panics (λ _, True) inner _ 0); [lia|done|intros; lia|].
    intros t _. unfold inner, for_upto.
    apply (for_range_panics (λ _, True) _ _ 0); [lia|done|intros; lia|].
    intros u _. rewrite index2_outside; [done|done|lia]. }
  destruct (decide (image.N ≤ x1)) as [Hx1|Hx1].
  - (* the first row of the copy leaves the grid on the right *)
    apply (for_range_panics (λ _, True) inner _ 0); [lia|done|intros; lia|].
    intros t _. unfold inner, for_upto.
    apply (for_range_panics (λ _, True) _ _ (Z.max 0 (image.N - x0))); [lia|done| |].
    + intros. apply copy_body_ends.
    + intros u _. rewrite index2_outside; [done|done|lia].
  - (* a later row leaves it at the bottom *)
    apply (for_range_panics (λ _, True) inner _ (image.N - y0)); [lia|done|by intros|].
    intros t _. unfold inner, for_upto.
    apply (for_range_panics (λ _, True) _ _ 0); [lia|done|intros; lia|].
    intros u _. rewrite index2_outside; [done|done|lia].
Qed.

Lemma Crop_panics_beyond_the_grid_witness :
  res (image.Crop oversized 0 0 16 16) = Panic "index out of range".
Proof.
  apply (Crop_panics_beyond_the_grid oversized 0 0 16 16 20 20).
  - apply wf_AllWhiteImage.
  - reflexivity.
  - reflexivity.
  - lia.
  - lia.
  - lia.
  - lia.
  - left. unfold image.N. lia.
Defined.

(** ** Field elements as bytes *)

Lemma byte_val_val_byte z : fr.byte_val (fr.val_byte z) = z mod 2 ^ 8.
Proof.
  unfold fr.byte_val, fr.val_byte.
  change 255 with (Z.ones 8). rewrite Z.land_ones by done.
  pose proof (Z.mod_pos_bound z (2 ^ 8) eq_refl) as Hb.
  destruct (Byte.of_N (Z.to_N (z mod 2 ^ 8))) as [b|] eqn:Hof.
  - apply Byte.to_of_N in Hof. unfold default. cbn [from_option id]. rewrite Hof. lia.
  - apply Byte.of_N_None_iff in Hof. lia.
Qed.

Lemma big_endian_snoc bs b :
  fr.big_endian (bs ++ [b]) = Z.lor (Z.shiftl (fr.big_endian bs) 8) (fr.byte_val b).
Proof. unfold fr.big_endian. by rewrite foldl_app. Qed.

Lemma lor_shiftl_mod z n :
  0 ≤ n →
  Z.lor (Z.shiftl ((Z.shiftr z 8) mod 2 ^ n) 8) (z mod 2 ^ 8) = z mod 2 ^ (n + 8).
Proof.
  intros Hn. apply Z.bits_inj'. intros k Hk.
  rewrite Z.lor_spec, !Z.testbit_mod_pow2 by lia.
  destruct (Z.ltb_spec k 8) as [Hlt|Hge].
  - rewrite Z.shiftl_spec_low by lia. cbn.
    destruct (Z.ltb_spec k (n + 8)); [done|lia].
  - rewrite Z.shiftl_spec by lia. rewrite Z.testbit_mod_pow2 by lia.
    rewrite Z.shiftr_spec by lia. replace (k - 8 + 8) with k by lia.
    rewrite orb_false_r.
    destruct (Z.ltb_spec (k - 8) n), (Z.ltb_spec k (n + 8)); (done || lia).
Qed.

(** The [n] low bytes of [z], most significant first, denote [z] modulo
    256 to the [n]. *)
Lemma big_endian_bytes (n : nat) z :
  fr.big_endian ((λ i, fr.val_byte (Z.shiftr z (8 * (Z.of_nat n - 1 - i))))
                   <$> seqZ 0 (Z.of_nat n))
  = z mod 2 ^ (8 * Z.of_nat n).
Proof.
  revert z. induction n as [|n IH]; intros z.
  - cbn. by rewrite Z.mod_1_r.
  - replace (Z.of_nat (S n)) with (Z.of_nat n + 1) by lia.
    rewrite seqZ_app by lia. rewrite fmap_app, Z.add_0_l.
    change (seqZ (Z.of_nat n) 1) with [Z.of_nat n]. cbn [fmap list_fmap].
    rewrite big_endian_snoc.
    replace (8 * (Z.of_nat n + 1 - 1 - Z.of_nat n)) with 0 by lia.
    rewrite Z.shiftr_0_r, byte_val_val_byte.
    assert ((λ i, fr.val_byte (Z.shiftr z (8 * (Z.of_nat n + 1 - 1 - i))))
              <$> seqZ 0 (Z.of_nat n)
            = (λ i, fr.val_byte (Z.shiftr (Z.shiftr z 8) (8 * (Z.of_nat n - 1 - i))))
              <$> seqZ 0 (Z.of_nat n)) as ->.
    { apply list_fmap_ext. intros i x Hx. apply lookup_seqZ in Hx as [-> Hi].
      f_equal. rewrite Z.shiftr_shiftr by lia. f_equal. lia. }
    rewrite IH. replace (8 * (Z.of_nat n + 1)) with (8 * Z.of_nat n + 8) by lia.
    apply lor_shiftl_mod. lia.
Qed.

Lemma big_endian_Marshal z : 0 ≤ z < fr.Modulus → fr.big_endian (fr.Marshal z) = z.
Proof.
  intros Hz. unfold fr.Marshal.
  pose proof (big_endian_bytes 32 z) as H.
  change (Z.of_nat 32) with fr.Bytes in H. rewrite H.
  apply Z.mod_small. split; [lia|].
  eapply Z.lt_trans; [apply Hz|]. reflexivity.
Qed.

Lemma SetBytes_range e : 0 ≤ fr.SetBytes e < fr.Modulus.
Proof. unfold fr.SetBytes. apply Z.mod_pos_bound. reflexivity. Qed.

Lemma length_Marshal z : length (fr.Marshal z) = 32%nat.
Proof. unfold fr.Marshal. rewrite length_fmap, length_seqZ. reflexivity. Qed.

(** X7. [ToBigEndian] always returns, and what it returns is the field
    element of the JSON bytes written on 32 bytes: read back as a big-endian
    integer the 32 bytes are [SetBytes] of the bytes of [ToByte], a value
    below the modulus, and setting an element from them and marshalling it
    again, as the Verifier does, gives the same 32 bytes. *)
Theorem ToBigEndian_is_the_field_element img :
  ∃ b, res (image.ToBigEndian img) = Ret b ∧
       length b = 32%nat ∧
       fr.big_endian b = fr.SetBytes (returned [] (image.ToByte img)) ∧
       0 ≤ fr.big_endian b < fr.Modulus ∧
       fr.Marshal (fr.SetBytes b) = b.
Proof.
  exists (returned [] (image.ToBigEndian img)).
  split; [apply res_ToBigEndian|]. rewrite ToBigEndian_ToByte.
  split; [apply length_Marshal|].
  assert (fr.big_endian (fr.Marshal (fr.SetBytes (returned [] (image.ToByte img))))
          = fr.SetBytes (returned [] (image.ToByte img))) as Hround
    by apply big_endian_Marshal, SetBytes_range.
  split; [done|]. split; [rewrite Hround; apply SetBytes_range|].
  unfold fr.SetBytes at 1. rewrite Hround.
  rewrite Z.mod_small by apply SetBytes_range. done.
Qed.

(** ** Metadata that cannot be encoded *)

Lemma json_members_error (l : list (string * image.any)) k e :
  (k, image.other (inr e)) ∈ l → ∃ e', image.json_members l = inr e'.
Proof.
  induction l as [|[k' v] l IH]; intros Hin; [by apply elem_of_nil in Hin|].
  apply elem_of_cons in Hin as [Heq|Hin].
  - injection Heq as <- <-. cbn. by eexists.
  - cbn. destruct (image.json_any v); [|by eexists].
    destruct (IH Hin) as [e' ->]. by eexists.
Qed.

Lemma Marshal_error img m k e :
  image.M img = Some m → m !! k = Some (image.other (inr e)) →
  ∃ e', image.Marshal (image.entries_of img) img = inr e'.
Proof.
  intros Hm Hk. unfold image.Marshal, image.json_map, image.entries_of.
  rewrite Hm. cbn [fmap option_fmap option_map].
  destruct (json_members_error (merge_sort image.key_le (map_to_list m)) k e) as [e' ->].
  { rewrite merge_sort_Permutation. by apply elem_of_map_to_list. }
  by eexists.
Qed.

(** X8. When the metadata holds a value [json.Marshal] cannot encode,
    [ToByte] prints the error and returns no byte, and [ToBigEndian] then
    returns 32 zero bytes: the bytes that are signed and verified no longer
    depend on the pixels or on the rest of the metadata. *)
Theorem ToBigEndian_of_unencodable img m key e :
  image.M img = Some m → m !! key = Some (image.other (inr e)) →
  ∃ e', image.ToByte img = (["Error while encoding image: " +:+ e'], Ret []) ∧
        image.ToBigEndian img
        = (["Error while encoding image: " +:+ e'], Ret (replicate 32 x00)).
Proof.
  intros Hm Hk. destruct (Marshal_error img m key e Hm Hk) as [e' He'].
  exists e'.
  assert (image.ToByte img = (["Error while encoding image: " +:+ e'], Ret [])) as HB.
  { unfold image.ToByte, image.ToByte_with. rewrite He'. reflexivity. }
  split; [done|].
  unfold image.ToBigEndian, image.ToBigEndian_with. fold (image.ToByte img).
  rewrite HB. vm_compute. reflexivity.
Qed.

Lemma ToBigEndian_of_unencodable_witness :
  ∃ e', image.ToByte unencodable = (["Error while encoding image: " +:+ e'], Ret []) ∧
        image.ToBigEndian unencodable
        = (["Error while encoding image: " +:+ e'], Ret (replicate 32 x00)).
Proof.
  eapply (ToBigEndian_of_unencodable unencodable _ "Sensor"
            "json: unsupported type: chan int").
  - reflexivity.
  - vm_compute. reflexivity.
Defined.

(** ** Images with the same bytes *)

Lemma bind_assoc {A B' C} (m : Run A) (f : A → Run B') (g : B' → Run C) :
  (m ≫= f) ≫= g = m ≫= (λ a, f a ≫= g).
Proof.
  destruct m as [l [a|msg]]; [|reflexivity]. cbn.
  destruct (f a) as [l1 [b|msg]]; cbn; [|reflexivity].
  destruct (g b) as [l2 r]. by rewrite app_assoc.
Qed.

Lemma bind_ext {A C} (m : Run A) (f g : A → Run C) :
  (∀ a, f a = g a) → m ≫= f = m ≫= g.
Proof. intros H. destruct m as [l [a|msg]]; [|reflexivity]. cbn. by rewrite H. Qed.

(** On a proof without circuit proof the Verifier reads the image through
    [ToBigEndian] alone. *)
Lemma Verifier_reads_ToBigEndian {T} (B : Backend T) vk_pp (proof : prover.Proof T) :
  prover.PCD_proof proof = None →
  verifier.Verifier B vk_pp proof
  = (msg ← image.ToBigEndian (image.Image (prover.Z proof));
     publicKey ← deref (generator.VK_PublicKey vk_pp);
     let '(isVerified, err) :=
       PublicKey_Verify B publicKey (prover.ImageSignature proof) msg in
     print_err "" err "";;
     if isVerified then
       Println "SUCCESS: Image verified against original image's Digital Signature.";;
       mret true
     else
       Println "FAIL: Image did not pass verification against original image's Digital Signature.";;
       mret false).
Proof.
  intros Hpcd. unfold verifier.Verifier. rewrite Hpcd.
  unfold image.ToBigEndian, image.ToBigEndian_with.
  fold (image.ToByte (image.Image (prover.Z proof))).
  rewrite bind_assoc. apply bind_ext. intros msg. by rewrite bind_mret.
Qed.

Lemma wf_picture_a : image.wf_array (image.Pixels (picture first_rows_a)).
Proof. split; [reflexivity|]. repeat (constructor; [reflexivity|]). constructor. Qed.

Lemma wf_picture_b : image.wf_array (image.Pixels (picture first_rows_b)).
Proof. split; [reflexivity|]. repeat (constructor; [reflexivity|]). constructor. Qed.

Lemma pictures_collide :
  image.ToBigEndian (picture first_rows_a) = image.ToBigEndian (picture first_rows_b).
Proof. vm_compute. reflexivity. Qed.

(** X9. The bytes that are signed do not determine the image. [ToBigEndian]
    keeps the JSON bytes only modulo the order of the scalar field, so
    images with different pixels can have the same 32 bytes: the two
    pictures below differ (already in their first pixel) and have the same
    [ToBigEndian]. Hence [Sign] gives them the same signature under every
    key, and the Verifier gives them the same verdict for every signature,
    key and backend. *)
Theorem ToBigEndian_does_not_determine_the_image {T} (B : Backend T) vk_pp publicKey
    signature secretKey :
  let a := picture first_rows_a in
  let b := picture first_rows_b in
  image.wf_array (image.Pixels a) ∧ image.wf_array (image.Pixels b) ∧
  image.M a = image.M b ∧
  image.GetPixel a 0 0 ≠ image.GetPixel b 0 0 ∧
  image.ToBigEndian a = image.ToBigEndian b ∧
  image_signing.Sign B a secretKey = image_signing.Sign B b secretKey ∧
  verifier.Verifier B vk_pp (signed a publicKey signature)
  = verifier.Verifier B vk_pp (signed b publicKey signature).
Proof.
  intros a b. subst a b.
  split; [apply wf_picture_a|]. split; [apply wf_picture_b|].
  split; [reflexivity|]. split; [vm_compute; discriminate|].
  split; [apply pictures_collide|]. split.
  - unfold image_signing.Sign. by rewrite pictures_collide.
  - rewrite !Verifier_reads_ToBigEndian by done.
    cbn [signed prover.Z prover.ImageSignature image.Image].
    by rewrite pictures_collide.
Qed.

(** ** The earlier [Crop] *)

(** A loop written as a fold keeps an invariant its body keeps. *)
Lemma foldl_seqZ_range {St} (P : Z → St → Prop) (body : St → Z → St) (count : nat) :
  ∀ start s,
    P start s →
    (∀ i t, start ≤ i < start + Z.of_nat count → P i t → P (i + 1) (body t i)) →
    P (start + Z.of_nat count) (foldl body s (seqZ start (Z.of_nat count))).
Proof.
  induction count as [|c IH]; intros start s Hs Hbody.
  - rewrite seqZ_nil by lia. cbn. by replace (start + Z.of_nat 0) with start by lia.
  - rewrite seqZ_cons by lia. cbn [foldl].
    replace (Z.pred (Z.of_nat (S c))) with (Z.of_nat c) by lia.
    replace (start + Z.of_nat (S c)) with (Z.succ start + Z.of_nat c) by lia.
    apply IH.
    + replace (Z.succ start) with (start + 1) by lia. apply Hbody; [lia|done].
    + intros i t Hi. apply Hbody. lia.
Qed.

Lemma foldl_seqZ_inv {St} (P : Z → St → Prop) (body : St → Z → St) n s :
  0 ≤ n → P 0 s →
  (∀ i t, 0 ≤ i < n → P i t → P (i + 1) (body t i)) →
  P n (foldl body s (seqZ 0 n)).
Proof.
  intros Hn Hs Hbody.
  pose proof (foldl_seqZ_range P body (Z.to_nat n) 0 s Hs) as H.
  rewrite Z2Nat.id in H by done. apply H. intros i t Hi. apply Hbody. lia.
Qed.

Lemma Crop0_accepts img f x0 y0 x1 y1 :
  cells (image.Pixels img) f →
  0 ≤ x0 ≤ x1 → x1 < image.N → 0 ≤ y0 ≤ y1 → y1 < image.N →
  ∃ out, image0.Crop img x0 y0 x1 y1 = (out, None) ∧
         cells (image.Pixels out) (masked f x0 y0 x1 y1) ∧
         image.M out = image.M img.
Proof.
  intros Hf Hx HxN Hy HyN. unfold image0.Crop.
  rewrite decide_False by lia. eexists. split; [reflexivity|].
  set (black := {| image.R := 0; image.G := 0; image.B := 0 |}).
  set (out x y := x < x0 ∨ x > x1 ∨ y < y0 ∨ y > y1).
  set (inner y := λ u x, if decide (out x y) then image.SetPixel u x y black else u).
  set (outer := λ t y, foldl (inner y) t (seqZ 0 image.N)).
  change (cells (image.Pixels (foldl outer img (seqZ 0 image.N))) (masked f x0 y0 x1 y1)
          ∧ image.M (foldl outer img (seqZ 0 image.N)) = image.M img).
  assert ((λ y t, cells (image.Pixels t)
                    (λ i j, if decide (i < y ∧ out j i) then black else f i j)
                  ∧ image.M t = image.M img)
            image.N (foldl outer img (seqZ 0 image.N))) as [Hall HM].
  { apply foldl_seqZ_inv; [done| |].
    { split; [|done]. eapply cells_ext; [|exact Hf]. intros i j ??.
      unfold out. rewrite decide_False; [done|lia]. }
    intros y t Hy' [Ht HM]. unfold outer.
    assert ((λ x u, cells (image.Pixels u)
                      (λ i j, if decide ((i < y ∨ (i = y ∧ j < x)) ∧ out j i)
                              then black else f i j)
                    ∧ image.M u = image.M img)
              image.N (foldl (inner y) t (seqZ 0 image.N))) as [Hrow HM'].
    { apply foldl_seqZ_inv; [done| |].
      - split; [|done]. eapply cells_ext; [|exact Ht]. intros i j ??. unfold out.
        repeat case_decide; (done || lia).
      - intros x u Hx' [Hu HMu]. unfold inner, out. case_decide as Hout.
        + split; [|by rewrite M_SetPixel].
          eapply cells_ext; [|by apply cells_SetPixel]. intros i j ??. unfold upd, out.
          repeat case_decide; (done || lia).
        + split; [|done]. eapply cells_ext; [|exact Hu]. intros i j ??. unfold out in *.
          repeat case_decide; try done; try lia.
          all: assert (i = y ∧ j = x) as [-> ->] by lia; tauto. }
    split; [|done]. eapply cells_ext; [|exact Hrow]. intros i j ??. unfold out.
    repeat case_decide; (done || lia). }
  split; [|done]. eapply cells_ext; [|exact Hall]. intros i j ??.
  unfold masked, out. cbv beta. repeat case_decide; (done || lia).
Qed.

(** X10. The earlier [Crop] blackens the outside of the rectangle and
    moves nothing: for a rectangle inside the grid it returns the nil error
    and an image whose pixel at (x, y) is the pixel of the input inside the
    rectangle and black outside; for any other rectangle it returns the
    error and the image unchanged. The metadata is never touched. *)
Theorem Crop0_blackens_the_outside img x0 y0 x1 y1 :
  image.wf_array (image.Pixels img) →
  ∃ out err,
    image0.Crop img x0 y0 x1 y1 = (out, err) ∧
    image.wf_array (image.Pixels out) ∧ image.M out = image.M img ∧
    if decide (0 ≤ x0 ≤ x1 ∧ x1 < image.N ∧ 0 ≤ y0 ≤ y1 ∧ y1 < image.N)
    then err = None ∧
         ∀ x y, image.GetPixel out x y
                = if decide (x0 ≤ x ≤ x1 ∧ y0 ≤ y ≤ y1) then image.GetPixel img x y
                  else image.zero_RGBPixel
    else err = Some "invalid crop dimensions" ∧ out = img.
Proof.
  intros Hwf. pose proof (cells_self image.zero_RGBPixel _ Hwf) as Hf.
  case_decide as Hok.
  - destruct (Crop0_accepts img _ x0 y0 x1 y1 Hf) as (out & HCrop & Hc & HM); [lia..|].
    exists out, None. split; [done|]. split; [apply Hc|]. split; [done|].
    split; [done|]. intros x y.
    destruct (decide (0 ≤ x < image.N ∧ 0 ≤ y < image.N)) as [Hin|Hout].
    + rewrite (GetPixel_cells _ _ x y Hc), (GetPixel_cells _ _ x y Hf) by tauto.
      unfold masked. repeat case_decide; (done || lia).
    + rewrite GetPixel_outside by done. rewrite decide_False; [done|lia].
  - exists img, (Some "invalid crop dimensions").
    split; [|done]. unfold image0.Crop. rewrite decide_True; [done|lia].
Qed.

Lemma Crop0_blackens_the_outside_witness :
  ∃ out err,
    image0.Crop image.AllWhiteImage 3 3 6 6 = (out, err) ∧
    image.wf_array (image.Pixels out) ∧ image.M out = image.M image.AllWhiteImage ∧
    if decide (0 ≤ 3 ≤ 6 ∧ 6 < image.N ∧ 0 ≤ 3 ≤ 6 ∧ 6 < image.N)
    then err = None ∧
         ∀ x y, image.GetPixel out x y
                = if decide (3 ≤ x ≤ 6 ∧ 3 ≤ y ≤ 6)
                  then image.GetPixel image.AllWhiteImage x y
                  else image.zero_RGBPixel
    else err = Some "invalid crop dimensions" ∧ out = image.AllWhiteImage.
Proof.
  apply (Crop0_blackens_the_outside image.AllWhiteImage 3 3 6 6).
  apply wf_AllWhiteImage.
Defined.

(** X11. The earlier [Crop] is idempotent and two of its crops commute:
    cropping again to the same rectangle changes nothing, and cropping to
    two rectangles of the grid gives the same image in either order. *)
Theorem Crop0_twice img a0 b0 a1 b1 x0 y0 x1 y1 :
  image.wf_array (image.Pixels img) →
  0 ≤ a0 ≤ a1 → a1 < image.N → 0 ≤ b0 ≤ b1 → b1 < image.N →
  0 ≤ x0 ≤ x1 → x1 < image.N → 0 ≤ y0 ≤ y1 → y1 < image.N →
  image0.Crop (image0.Crop img x0 y0 x1 y1).1 x0 y0 x1 y1 = image0.Crop img x0 y0 x1 y1 ∧
  image0.Crop (image0.Crop img a0 b0 a1 b1).1 x0 y0 x1 y1
  = image0.Crop (image0.Crop img x0 y0 x1 y1).1 a0 b0 a1 b1.
Proof.
  intros Hwf Ha HaN Hb HbN Hx HxN Hy HyN.
  pose proof (cells_self image.zero_RGBPixel _ Hwf) as Hf.
  destruct (Crop0_accepts img _ x0 y0 x1 y1 Hf) as (ox & HCx & Hcx & HMx); [lia..|].
  destruct (Crop0_accepts img _ a0 b0 a1 b1 Hf) as (oa & HCa & Hca & HMa); [lia..|].
  destruct (Crop0_accepts ox _ x0 y0 x1 y1 Hcx) as (oxx & HCxx & Hcxx & HMxx); [lia..|].
  destruct (Crop0_accepts oa _ x0 y0 x1 y1 Hca) as (oax & HCax & Hcax & HMax); [lia..|].
  destruct (Crop0_accepts ox _ a0 b0 a1 b1 Hcx) as (oxa & HCxa & Hcxa & HMxa); [lia..|].
  rewrite HCx, HCa. cbn [fst]. rewrite HCxx, HCax, HCxa. split; f_equal.
  - apply I_eq; [|congruence].
    eapply cells_eq; [exact Hcxx|]. eapply cells_ext; [|exact Hcx].
    intros i j ??. unfold masked. repeat case_decide; (done || lia).
  - apply I_eq; [|congruence].
    eapply cells_eq; [exact Hcax|]. eapply cells_ext; [|exact Hcxa].
    intros i j ??. unfold masked. repeat case_decide; (done || lia).
Qed.

Lemma Crop0_twice_witness :
  image0.Crop (image0.Crop image.AllWhiteImage 3 3 6 6).1 3 3 6 6
  = image0.Crop image.AllWhiteImage 3 3 6 6 ∧
  image0.Crop (image0.Crop image.AllWhiteImage 1 2 9 4).1 3 3 6 6
  = image0.Crop (image0.Crop image.AllWhiteImage 3 3 6 6).1 1 2 9 4.
Proof.
  apply (Crop0_twice image.AllWhiteImage 1 2 9 4 3 3 6 6).
  - apply wf_AllWhiteImage.
  - lia.
  - unfold image.N; lia.
  - lia.
  - unfold image.N; lia.
  - lia.
  - unfold image.N; lia.
  - lia.
  - unfold image.N; lia.
Defined.

(** X12. The two revisions of [Crop] keep the same pixels: where both
    accept the rectangle, the pixel at (x, y) of the current result is the
    pixel at (x0 + x, y0 + y) of the earlier result. The current [Crop] is
    the earlier one followed by the move to the top left corner. *)
Theorem Crop_translates_what_Crop0_keeps img x0 y0 x1 y1 width height :
  image.wf_array (image.Pixels img) →
  image.M_lookup img "width" = Some (image.int_ width) →
  image.M_lookup img "height" = Some (image.int_ height) →
  0 ≤ x0 ≤ x1 → x1 < width → x1 < image.N →
  0 ≤ y0 ≤ y1 → y1 < height → y1 < image.N →
  ∃ out,
    image.Crop img x0 y0 x1 y1 = mret (out, None) ∧
    (image0.Crop img x0 y0 x1 y1).2 = None ∧
    ∀ x y, 0 ≤ x → 0 ≤ y →
      image.GetPixel out x y
      = image.GetPixel (image0.Crop img x0 y0 x1 y1).1 (x0 + x) (y0 + y).
Proof.
  intros Hwf Hw Hh Hx Hxw HxN Hy Hyh HyN.
  pose proof (cells_self image.zero_RGBPixel _ Hwf) as Hf.
  destruct (Crop_within img _ x0 y0 x1 y1 width height Hf Hw Hh)
    as (out & HCrop & Hc & _); [done..|].
  destruct (Crop0_accepts img _ x0 y0 x1 y1 Hf) as (out0 & HCrop0 & Hc0 & _); [lia..|].
  exists out. split; [done|]. rewrite HCrop0. split; [done|].
  intros x y Hx' Hy'. cbn [fst].
  destruct (decide (x < image.N ∧ y < image.N)) as [Hin|Hout].
  - rewrite (GetPixel_cells _ _ x y Hc) by lia.
    unfold cropped. case_decide.
    + rewrite (GetPixel_cells _ _ (x0 + x) (y0 + y) Hc0) by lia.
      unfold masked. rewrite decide_True by lia. done.
    + destruct (decide (x0 + x < image.N ∧ y0 + y < image.N)).
      * rewrite (GetPixel_cells _ _ (x0 + x) (y0 + y) Hc0) by lia.
        unfold masked. rewrite decide_False by lia. done.
      * by rewrite GetPixel_outside by lia.
  - rewrite !GetPixel_outside by lia. done.
Qed.

Lemma Crop_translates_what_Crop0_keeps_witness :
  ∃ out,
    image.Crop image.AllWhiteImage 3 3 6 6 = mret (out, None) ∧
    (image0.Crop image.AllWhiteImage 3 3 6 6).2 = None ∧
    ∀ x y, 0 ≤ x → 0 ≤ y →
      image.GetPixel out x y
      = image.GetPixel (image0.Crop image.AllWhiteImage 3 3 6 6).1 (3 + x) (3 + y).
Proof.
  apply (Crop_translates_what_Crop0_keeps image.AllWhiteImage 3 3 6 6 16 16).
  - apply wf_AllWhiteImage.
  - reflexivity.
  - reflexivity.
  - lia.
  - lia.
  - unfold image.N; lia.
  - lia.
  - lia.
  - unfold image.N; lia.
Defined.

(** ** The Crop circuit on the APIs of gnark *)

(** The first round of the loops, on an API whose [Sub] returns no
    [int]. *)
Lemma CropFrontendImage_at_panics (api : frontend.API) old cropArea imageBounds
    blackPixel x y newImage :
  (∀ a b z, frontend.Sub api a b ≠ frontend.int z) →
  ∃ msg, transformations.CropFrontendImage_at api old cropArea imageBounds
           blackPixel x y newImage = panic msg.
Proof.
  intros Hsub. unfold transformations.CropFrontendImage_at.
  destruct (frontend.Sub api (frontend.int x)
              (transformations.X (transformations.topLeft cropArea)))
    as [|z|b|z] eqn:E; [|by destruct (Hsub _ _ _ E)| |]; by eexists.
Qed.

(** X13. On the APIs of gnark the Crop circuit cannot be defined: what
    [api.Sub] returns is no [int] (a linear expression with the builders, a
    [*big.Int] with the test engine), so the call panics, no later than at
    the first type assertion [newXFr.(int)] in the first round of the
    loops, whatever the circuit holds. Nothing is printed and no image is
    returned. *)
Theorem CropFrontendImage_panics_on_gnark (api : frontend.API)
    (circuit : transformations.CropCircuit) :
  (∀ a b z, frontend.Sub api a b ≠ frontend.int z) →
  ∃ msg, transformations.CropFrontendImage circuit api = panic msg.
Proof.
  intros Hsub. unfold transformations.CropFrontendImage, for_upto.
  change (Z.to_nat image.N) with 16%nat.
  match goal with
  | |- ∃ msg, for_range 0 16 (λ y t,
                for_range 0 16 (λ x u,
                  transformations.CropFrontendImage_at api ?old ?crop ?bounds ?black
                    x y u) t) ?new = panic msg =>
      destruct (CropFrontendImage_at_panics api old crop bounds black 0 0 new Hsub)
        as [msg Hmsg]
  end.
  exists msg. apply for_range_first_panics. by apply for_range_first_panics.
Qed.

(** The test engine of gnark on the all-white image, cropped to the full
    bounds. *)
Lemma CropFrontendImage_panics_on_gnark_witness :
  ∃ msg, transformations.CropFrontendImage (white_circuit 0 0 15 15)
           frontend.test_engine = panic msg.
Proof.
  apply (CropFrontendImage_panics_on_gnark frontend.test_engine
           (white_circuit 0 0 15 15)).
  intros a b z. cbn [frontend.Sub frontend.test_engine]. unfold frontend.boxed.
  destruct (frontend.Sub frontend.engine a b); discriminate.
Defined.

(** The panic of that run. *)
Example CropFrontendImage_on_the_test_engine :
  transformations.CropFrontendImage (white_circuit 0 0 15 15) frontend.test_engine
  = panic "interface conversion: interface {} is *big.Int, not int".
Proof. vm_compute. reflexivity. Qed.

(** ** Parameters *)

Lemma Fr_Params_ToFr t t' :
  param t "x0" = param t' "x0" → param t "y0" = param t' "y0" →
  param t "x1" = param t' "x1" → param t "y1" = param t' "y1" →
  transformations.Fr_Params (transformations.ToFr t)
  = transformations.Fr_Params (transformations.ToFr t').
Proof.
  unfold transformations.ToFr, param. cbn. by intros -> -> -> ->.
Qed.

(** X14. The Prover reads of a transformation its tag and the four entries
    "x0", "y0", "x1", "y1" of its parameters, a missing entry as 0; in the
    base case it does not read the tag either. Two transformations that
    agree on these make the Prover, and so [EditorCrop], run alike: other
    entries are ignored and an absent key is not an error. *)
Theorem Prover_reads_four_parameters {T} (B : Backend T) pk vk
    (proof_in : prover.Proof T) t t' rnd :
  prover.PCD_proof proof_in = None ∨ transformations.T t = transformations.T t' →
  param t "x0" = param t' "x0" → param t "y0" = param t' "y0" →
  param t "x1" = param t' "x1" → param t "y1" = param t' "y1" →
  prover.Prover B pk vk proof_in t rnd = prover.Prover B pk vk proof_in t' rnd ∧
  editor.EditorCrop B pk vk proof_in (transformations.Params t) rnd
  = editor.EditorCrop B pk vk proof_in (transformations.Params t') rnd.
Proof.
  intros Hcase H1 H2 H3 H4.
  assert (∀ u u', prover.PCD_proof proof_in = None
                  ∨ transformations.T u = transformations.T u' →
                  param u "x0" = param u' "x0" → param u "y0" = param u' "y0" →
                  param u "x1" = param u' "x1" → param u "y1" = param u' "y1" →
                  prover.Prover B pk vk proof_in u rnd
                  = prover.Prover B pk vk proof_in u' rnd) as Hgen.
  { intros u u' Hc E1 E2 E3 E4.
    pose proof (Fr_Params_ToFr u u' E1 E2 E3 E4) as Hp. unfold prover.Prover.
    destruct (prover.PCD_proof proof_in) as [pcd|].
    - destruct Hc as [|Ht]; [done|]. rewrite Ht.
      case_decide; [|done]. case_decide.
      + reflexivity.
      + by rewrite Hp.
    - by rewrite Hp. }
  split; [by apply Hgen|].
  unfold editor.EditorCrop. apply Hgen; [by right|done..].
Qed.

Lemma Prover_reads_four_parameters_witness :
  prover.Prover (sample_Backend true true) sample_PK (Some tt) proven_proof
    (crop_of 3 0 6 6) tt
  = prover.Prover (sample_Backend true true) sample_PK (Some tt) proven_proof
      sparse_crop tt ∧
  editor.EditorCrop (sample_Backend true true) sample_PK (Some tt) proven_proof
    (transformations.Params (crop_of 3 0 6 6)) tt
  = editor.EditorCrop (sample_Backend true true) sample_PK (Some tt) proven_proof
      (transformations.Params sparse_crop) tt.
Proof.
  apply (Prover_reads_four_parameters (sample_Backend true true) sample_PK (Some tt)
           proven_proof (crop_of 3 0 6 6) sparse_crop tt).
  - right. reflexivity.
  - reflexivity.
  - reflexivity.
  - reflexivity.
  - reflexivity.
Defined.

(** ** Generator and Sign *)

Section more_backend_facts.
Context {T : Types} (B : Backend T).

(** Without a signer, [Sign] prints the error of the key generation and
    panics on the nil signer. *)
Lemma Sign_no_key img rnd msg :
  ceddsa_New B rnd = (None, Some msg) →
  generator.Sign B img rnd = ([msg], Panic nil_dereference).
Proof.
  intros Hnew. unfold generator.Sign. rewrite Hnew.
  cbn [print_err]. rewrite append_empty_r. reflexivity.
Qed.

(** With a key pair and a constraint system, [Generator] returns the keys
    of the setup and the error of the setup. *)
Lemma res_Generator img t rnd sk e cs e1 :
  ceddsa_New B rnd = (Some sk, e) →
  let big := returned [] (image.ToBigEndian img) in
  let params :=
    if decide (transformations.T t = transformations.Identity) then
      {| transformations.N := frontend.nil;
         transformations.X0 := frontend.int 0;
         transformations.Y0 := frontend.int 0;
         transformations.X1 := frontend.int (image.N - 1);
         transformations.Y1 := frontend.int (image.N - 1) |}
    else transformations.Fr_Params (transformations.ToFr t) in
  let c := crop_witness (PublicKey_Bytes B (Signer_Public B sk))
             (Signer_Sign B sk big).1 big img img params in
  frontend_Compile B c = (Some cs, e1) →
  res (generator.Generator B img t rnd)
  = Ret ({| generator.ProvingKey := (groth16_Setup B cs).1.1;
            generator.PK_PublicKey := Some (Signer_Public B sk) |},
         {| generator.VerifyingKey := (groth16_Setup B cs).1.2;
            generator.VK_PublicKey := Some (Signer_Public B sk) |},
         {| generator.SecretKey := Some sk |},
         (groth16_Setup B cs).2).
Proof.
  intros Hnew big params c Hcompile. unfold generator.Generator.
  rewrite (res_bind_Ret _ _ _ (res_Sign B img rnd sk e Hnew)).
  subst c big params. unfold crop_witness in Hcompile.
  destruct (decide (transformations.T t = transformations.Identity));
    cbn [transformations.Fr_Params transformations.ToFr transformations.N];
    cbn [transformations.Fr_Params transformations.ToFr transformations.N] in Hcompile;
    rewrite Hcompile, res_print_err_bind, bind_mret;
    destruct (groth16_Setup B cs) as [[p v] e2]; by rewrite res_print_err_bind.
Qed.

End more_backend_facts.

(** X15. The Generator treats Identity as the crop to the full bounds: run
    with a transformation tagged Identity, whatever its parameters, it runs
    as with Crop(0, 0, N-1, N-1), printing and returning the same. *)
Theorem Generator_Identity_is_full_Crop {T} (B : Backend T) img t rnd :
  transformations.T t = transformations.Identity →
  generator.Generator B img t rnd = generator.Generator B img full_bounds rnd.
Proof.
  intros Ht. unfold generator.Generator.
  rewrite (decide_True (P := transformations.T t = transformations.Identity)) by done.
  rewrite (decide_False (P := transformations.T full_bounds = transformations.Identity))
    by done.
  reflexivity.
Qed.

Lemma Generator_Identity_is_full_Crop_witness :
  generator.Generator (sample_Backend true true) image.AllWhiteImage identity_t tt
  = generator.Generator (sample_Backend true true) image.AllWhiteImage full_bounds tt.
Proof.
  apply (Generator_Identity_is_full_Crop (sample_Backend true true) image.AllWhiteImage
           identity_t tt).
  reflexivity.
Defined.

(** X16. When the key generation fails, [Sign] prints its error and then
    panics on the nil signer, and so does the Generator: neither returns,
    and the Generator returns no error value for the failure. *)
Theorem Sign_panics_without_a_key {T} (B : Backend T) img t rnd msg :
  ceddsa_New B rnd = (None, Some msg) →
  generator.Sign B img rnd = ([msg], Panic nil_dereference) ∧
  generator.Generator B img t rnd = ([msg], Panic nil_dereference).
Proof.
  intros Hnew. split; [by apply Sign_no_key|].
  unfold generator.Generator. by rewrite (Sign_no_key B img rnd msg Hnew).
Qed.

Lemma Sign_panics_without_a_key_witness :
  generator.Sign keyless_Backend image.AllWhiteImage tt
  = (["no entropy"], Panic nil_dereference) ∧
  generator.Generator keyless_Backend image.AllWhiteImage identity_t tt
  = (["no entropy"], Panic nil_dereference).
Proof.
  apply (Sign_panics_without_a_key keyless_Backend image.AllWhiteImage identity_t tt
           "no entropy").
  reflexivity.
Defined.

(** ** Prover *)

(** X17. In its second branch the Prover crops and then signs with a key
    pair of its own; when that key generation fails it panics on the nil
    signer, after the crop and before any witness or proof is made. *)
Theorem Prover_panics_without_a_key {T} (B : Backend T) pk vk
    (proof_in : prover.Proof T) t rnd pcd msg :
  prover.PCD_proof proof_in = Some pcd →
  transformations.T t = transformations.Crop
  ∨ transformations.T t = transformations.Identity →
  image.wf_array (image.Pixels (image.Image (prover.Z proof_in))) →
  dims_within (image.Image (prover.Z proof_in)) →
  ceddsa_New B rnd = (None, Some msg) →
  res (prover.Prover B pk vk proof_in t rnd) = Panic nil_dereference.
Proof.
  intros Hpcd Ht Hwf Hdims Hnew. unfold prover.Prover. rewrite Hpcd.
  rewrite decide_True by done. rewrite res_report_bind.
  set (frT := if decide (transformations.T t = transformations.Identity) then _ else _).
  assert (∃ x0 y0 x1 y1,
            transformations.Fr_Params frT
            = {| transformations.N := frontend.nil;
                 transformations.X0 := frontend.int x0;
                 transformations.Y0 := frontend.int y0;
                 transformations.X1 := frontend.int x1;
                 transformations.Y1 := frontend.int y1 |}) as (x0 & y0 & x1 & y1 & ->).
  { unfold frT. case_decide; by eexists _, _, _, _. }
  cbn [assert_int transformations.X0 transformations.Y0 transformations.X1
       transformations.Y1]. rewrite !bind_mret.
  destruct (Crop_returns _ x0 y0 x1 y1 Hwf Hdims) as (out & err & ->).
  rewrite bind_mret.
  rewrite res_bind. by rewrite (Sign_no_key B out rnd msg Hnew).
Qed.

Lemma Prover_panics_without_a_key_witness :
  res (prover.Prover keyless_Backend sample_PK (Some tt) proven_proof (crop_of 3 3 6 6) tt)
  = Panic nil_dereference.
Proof.
  apply (Prover_panics_without_a_key keyless_Backend sample_PK (Some tt) proven_proof
           (crop_of 3 3 6 6) tt tt "no entropy").
  - reflexivity.
  - left. reflexivity.
  - apply wf_AllWhiteImage.
  - apply dims_AllWhiteImage.
  - reflexivity.
Defined.

(** X18. All the Prover ever returns is the zero value of [Proof]. Under
    the rule of gnark for assignments it returns exactly when the input
    carries a circuit proof and the tag is neither Crop nor Identity, and
    then it returns [Proof{}]; on every other input, in the base case and in
    the second branch alike, the call panics, for [ToFr] leaves [N]
    unset and no witness is made. *)
Theorem Prover_returns_only_the_zero_Proof {T} (B : Backend T) pk vk
    (proof_in : prover.Proof T) t rnd :
  wants_every_variable B →
  if decide (is_Some (prover.PCD_proof proof_in)
             ∧ transformations.T t ≠ transformations.Crop
             ∧ transformations.T t ≠ transformations.Identity)
  then prover.Prover B pk vk proof_in t rnd = mret (prover.zero_Proof T)
  else ∃ msg, res (prover.Prover B pk vk proof_in t rnd) = Panic msg.
Proof.
  intros Hrule. case_decide as Hcase.
  - destruct Hcase as ([pcd Hpcd] & Hcrop & Hid).
    unfold prover.Prover. rewrite Hpcd. by rewrite decide_False by tauto.
  - destruct (prover.PCD_proof proof_in) as [pcd|] eqn:Hpcd.
    + apply (Prover_transition_panics B pk vk proof_in t rnd pcd Hrule Hpcd).
      destruct (decide (transformations.T t = transformations.Crop)); [by left|].
      destruct (decide (transformations.T t = transformations.Identity)); [by right|].
      destruct Hcase. by eauto.
    + by apply Prover_base_panics.
Qed.

Lemma Prover_returns_only_the_zero_Proof_witness :
  if decide (is_Some (prover.PCD_proof proven_proof)
             ∧ transformations.T (crop_of 3 3 6 6) ≠ transformations.Crop
             ∧ transformations.T (crop_of 3 3 6 6) ≠ transformations.Identity)
  then prover.Prover strict_Backend sample_PK (Some tt) proven_proof (crop_of 3 3 6 6) tt
       = mret (prover.zero_Proof sample_Types)
  else ∃ msg, res (prover.Prover strict_Backend sample_PK (Some tt) proven_proof
                     (crop_of 3 3 6 6) tt) = Panic msg.
Proof.
  apply (Prover_returns_only_the_zero_Proof strict_Backend sample_PK (Some tt)
           proven_proof (crop_of 3 3 6 6) tt).
  intros c Hc. cbn. rewrite Hc. reflexivity.
Defined.

(** The crop of that run is made and signed before the call panics. *)
Example Prover_crops_and_panics :
  prover.Prover strict_Backend sample_PK (Some tt) proven_proof (crop_of 3 3 6 6) tt
  = (["SUCCESS: Image verified against PCD Proof.";
      witness_error "missing assignment"], Panic nil_dereference).
Proof. vm_compute. reflexivity. Qed.

(** X19. When [frontend.NewWitness] yields no witness, the base case of
    the Prover prints the error, still compiles and calls [groth16.Prove]
    with the nil witness, and then panics where it asks the nil witness for
    its public part: it returns no proof. *)
Theorem Prover_panics_without_a_witness {T} (B : Backend T) pk vk
    (proof_in : prover.Proof T) t rnd publicKey e :
  prover.PCD_proof proof_in = None →
  generator.PK_PublicKey pk = Some publicKey →
  let img := image.Image (prover.Z proof_in) in
  let c := crop_witness (PublicKey_Bytes B publicKey) (prover.ImageSignature proof_in)
             (returned [] (image.ToBigEndian img)) img img
             (transformations.Fr_Params (transformations.ToFr t)) in
  frontend_NewWitness B c = (None, e) →
  res (prover.Prover B pk vk proof_in t rnd) = Panic nil_dereference.
Proof.
  intros Hpcd Hpk img c Hw. unfold prover.Prover. rewrite Hpcd, Hpk.
  cbn [deref]. rewrite bind_mret.
  rewrite (res_bind_Ret _ _ _ (res_ToBigEndian _)).
  subst c img. unfold crop_witness in Hw. rewrite Hw.
  rewrite res_print_err_bind.
  destruct (frontend_Compile B _) as [cs e1]. rewrite res_print_err_bind.
  destruct (groth16_Prove B cs _ None) as [p e2].
  rewrite res_print_err_bind. reflexivity.
Qed.

Lemma Prover_panics_without_a_witness_witness :
  res (prover.Prover witnessless_Backend sample_PK (Some tt) signed_proof identity_t tt)
  = Panic nil_dereference.
Proof.
  apply (Prover_panics_without_a_witness witnessless_Backend sample_PK (Some tt)
           signed_proof identity_t tt tt (Some "witness is missing an assignment")).
  - reflexivity.
  - reflexivity.
  - reflexivity.
Defined.

(** ** Verifier *)

(** X20. On a proof that carries a circuit proof the Verifier looks at the
    circuit proof, the verifying key and the public witness only: the
    image, the signature and the public keys have no part in what it prints
    and returns. Replacing the image of a proven proof by any other image
    leaves the verdict as it was. *)
Theorem Verifier_does_not_look_at_the_image {T} (B : Backend T) vk_pp vk_pp'
    (proof proof' : prover.Proof T) pcd :
  prover.PCD_proof proof = Some pcd →
  prover.PCD_proof proof' = Some pcd →
  prover.Public_Witness proof' = prover.Public_Witness proof →
  generator.VerifyingKey vk_pp' = generator.VerifyingKey vk_pp →
  verifier.Verifier B vk_pp' proof' = verifier.Verifier B vk_pp proof.
Proof.
  intros Hp Hp' Hw Hvk. unfold verifier.Verifier. by rewrite Hp, Hp', Hw, Hvk.
Qed.

Lemma Verifier_does_not_look_at_the_image_witness :
  verifier.Verifier (sample_Backend true true)
    (generator.Build_VK_PP sample_Types (Some tt) None) forged_proof
  = verifier.Verifier (sample_Backend true true) sample_VK proven_proof.
Proof.
  apply (Verifier_does_not_look_at_the_image (sample_Backend true true) sample_VK
           (generator.Build_VK_PP sample_Types (Some tt) None)
           proven_proof forged_proof tt).
  - reflexivity.
  - reflexivity.
  - reflexivity.
  - reflexivity.
Defined.

(** X21. A nil public key makes the first branches panic: the base case of
    the Prover at once, where it asks the key of the proving material for
    its bytes, and the Verifier on a proof without circuit proof after it
    has encoded the image, where it calls the key of the verifying
    material. Neither returns. *)
Theorem nil_public_key_panics {T} (B : Backend T) pk vk vk_pp
    (proof : prover.Proof T) t rnd :
  prover.PCD_proof proof = None →
  generator.PK_PublicKey pk = None →
  generator.VK_PublicKey vk_pp = None →
  prover.Prover B pk vk proof t rnd = panic nil_dereference ∧
  res (verifier.Verifier B vk_pp proof) = Panic nil_dereference.
Proof.
  intros Hp Hpk Hvk. split.
  - unfold prover.Prover. by rewrite Hp, Hpk.
  - unfold verifier.Verifier. rewrite Hp, Hvk.
    by rewrite (res_bind_Ret _ _ _ (res_ToByte _)).
Qed.

Lemma nil_public_key_panics_witness :
  prover.Prover (sample_Backend true true)
    (generator.Build_PK_PP sample_Types (Some tt) None) (Some tt) signed_proof
    identity_t tt
  = panic nil_dereference ∧
  res (verifier.Verifier (sample_Backend true true)
         (generator.Build_VK_PP sample_Types (Some tt) None) signed_proof)
  = Panic nil_dereference.
Proof.
  apply (nil_public_key_panics (sample_Backend true true)
           (generator.Build_PK_PP sample_Types (Some tt) None) (Some tt)
           (generator.Build_VK_PP sample_Types (Some tt) None) signed_proof
           identity_t tt).
  - reflexivity.
  - reflexivity.
  - reflexivity.
Defined.

(** X22. The Verifier ends its report with its verdict. Where the
    verifying material holds the public key and, for a proof that carries a
    circuit proof, the verifying key and the proof its public witness, the
    last line the Verifier prints names the check it ran (digital signature
    or PCD proof) and says SUCCESS exactly when it returns true and FAIL
    exactly when it returns false, the value being the verdict of that
    check. *)
Theorem Verifier_reports_its_verdict {T} (B : Backend T) vk_pp
    (proof : prover.Proof T) publicKey :
  generator.VK_PublicKey vk_pp = Some publicKey →
  (is_Some (prover.PCD_proof proof) →
   is_Some (generator.VerifyingKey vk_pp) ∧ is_Some (prover.Public_Witness proof)) →
  ∃ l, verifier.Verifier B vk_pp proof
       = (l ++ [report (bool_decide (is_Some (prover.PCD_proof proof)))
                  (verdict B vk_pp publicKey proof)],
          Ret (verdict B vk_pp publicKey proof)).
Proof.
  intros Hk Hthere. unfold verifier.Verifier, verdict.
  destruct (prover.PCD_proof proof) as [pcd|].
  - destruct Hthere as [[vk ->] [w ->]]; [by eexists|]. cbn [deref].
    rewrite !bind_mret.
    destruct (groth16_Verify B pcd _ _); by exists [].
  - rewrite Hk. rewrite ToBigEndian_ToByte.
    pose proof (res_ToByte (image.Image (prover.Z proof))) as Hb.
    destruct (image.ToByte (image.Image (prover.Z proof))) as [l1 [b|msg]];
      [clear Hb|done].
    change (returned [] (l1, Ret b)) with b. cbn [deref].
    destruct (PublicKey_Verify B publicKey (prover.ImageSignature proof)
                (fr.Marshal (fr.SetBytes b))) as [ok [e|]] eqn:Hv.
    + exists (l1 ++ ["" +:+ e +:+ ""]). cbn. rewrite Hv.
      destruct ok; cbn; by rewrite <- !app_assoc.
    + exists l1. cbn. rewrite Hv. destruct ok; cbn; by rewrite ?app_nil_r.
Qed.

Lemma Verifier_reports_its_verdict_witness :
  ∃ l, verifier.Verifier (sample_Backend true false) sample_VK proven_proof
       = (l ++ [report (bool_decide (is_Some (prover.PCD_proof proven_proof)))
                  (verdict (sample_Backend true false) sample_VK tt proven_proof)],
          Ret (verdict (sample_Backend true false) sample_VK tt proven_proof)).
Proof.
  apply (Verifier_reports_its_verdict (sample_Backend true false) sample_VK
           proven_proof tt).
  - reflexivity.
  - intros _. split; by eexists.
Defined.

(** ** Prover, Verifier and camera together *)

Section pipeline_facts.
Context {T : Types} (B : Backend T).

Lemma res_image_Sign img sk :
  res (image_signing.Sign B img (Some sk))
  = Ret (Signer_Sign B sk (returned [] (image.ToBigEndian img))).1.
Proof.
  unfold image_signing.Sign.
  rewrite (res_bind_Ret _ _ _ (res_ToBigEndian img)). cbn [deref]. rewrite bind_mret.
  destruct (Signer_Sign B sk _) as [sig e]. by rewrite res_print_err_bind.
Qed.

Lemma res_Verifier_signed vk_pp (proof : prover.Proof T) publicKey :
  prover.PCD_proof proof = None →
  generator.VK_PublicKey vk_pp = Some publicKey →
  res (verifier.Verifier B vk_pp proof)
  = Ret (PublicKey_Verify B publicKey (prover.ImageSignature proof)
           (returned [] (image.ToBigEndian (image.Image (prover.Z proof))))).1.
Proof.
  intros Hpcd Hpk. unfold verifier.Verifier. rewrite Hpcd.
  rewrite (res_bind_Ret _ _ _ (res_ToByte _)). rewrite Hpk. cbn [deref].
  rewrite bind_mret. rewrite ToBigEndian_ToByte.
  destruct (PublicKey_Verify B publicKey _ _) as [[|] e];
    rewrite res_print_err_bind; by rewrite res_Println_bind.
Qed.

End pipeline_facts.

(** X24. Signing and verifying read the same bytes. The verdict of the
    Verifier on an image with the signature [image.Sign] made under a key
    is the verdict of the signature scheme on that signature, the public
    key of the signer and the 32 bytes of [ToBigEndian]: a scheme that
    accepts its own signatures makes the Verifier accept every image signed
    this way. *)
Theorem signed_image_verifies {T} (B : Backend T) img sk vk publicKey :
  let big := returned [] (image.ToBigEndian img) in
  res (signature ← image_signing.Sign B img (Some sk);
       verifier.Verifier B
         {| generator.VerifyingKey := vk;
            generator.VK_PublicKey := Some (Signer_Public B sk) |}
         (signed img publicKey signature))
  = Ret (PublicKey_Verify B (Signer_Public B sk) (Signer_Sign B sk big).1 big).1.
Proof.
  intros big. rewrite (res_bind_Ret _ _ _ (res_image_Sign B img sk)).
  by rewrite (res_Verifier_signed B _ _ (Signer_Public B sk)).
Qed.

(** X25. A camera without a secret key cannot make a proof: [CameraProver]
    encodes the picture and panics on the nil signer. This is the camera
    before [CameraGenerator] has run, whether or not a picture was taken. *)
Theorem CameraProver_panics_without_keys {T} (B : Backend T)
    (cam : camera.SecureCamera T) rnd :
  generator.SecretKey (camera.secretKey cam) = None →
  res (camera.CameraProver B cam rnd) = Panic nil_dereference.
Proof.
  intros Hsk. unfold camera.CameraProver. rewrite Hsk, res_bind.
  unfold image_signing.Sign. by rewrite (res_bind_Ret _ _ _ (res_ToBigEndian _)).
Qed.

Lemma CameraProver_panics_without_keys_witness :
  res (camera.CameraProver (sample_Backend true true)
         (camera.TakePicture (camera.zero_SecureCamera sample_Types)) tt)
  = Panic nil_dereference.
Proof.
  apply (CameraProver_panics_without_keys (sample_Backend true true)
           (camera.TakePicture (camera.zero_SecureCamera sample_Types)) tt).
  reflexivity.
Defined.

(** X26. The camera makes no proof. Under the rule of gnark for
    assignments [CameraProver] never returns, whatever keys and picture the
    camera holds: it signs the picture, or panics on the nil signer, and
    hands the Identity transformation to the base case of the Prover, which
    leaves [N] unset. *)
Theorem CameraProver_makes_no_proof {T} (B : Backend T)
    (cam : camera.SecureCamera T) rnd :
  wants_every_variable B →
  ∃ msg, res (camera.CameraProver B cam rnd) = Panic msg.
Proof.
  intros Hrule. unfold camera.CameraProver. rewrite res_bind.
  destruct (res (image_signing.Sign B _ _)) as [signedImage|msg]; [|by eexists].
  by apply Prover_base_panics.
Qed.

(** A camera with the sample keys and the picture it took. *)
Lemma CameraProver_makes_no_proof_witness :
  ∃ msg, res (camera.CameraProver strict_Backend
                (camera.Build_SecureCamera sample_Types
                   (generator.Build_SK_PP sample_Types (Some tt)) sample_PK sample_VK
                   image.AllWhiteImage) tt) = Panic msg.
Proof.
  apply (CameraProver_makes_no_proof strict_Backend
           (camera.Build_SecureCamera sample_Types
              (generator.Build_SK_PP sample_Types (Some tt)) sample_PK sample_VK
              image.AllWhiteImage) tt).
  intros c Hc. cbn. rewrite Hc. reflexivity.
Defined.

(** X27. [TakePicture] leaves the keys of the camera alone and gives it a
    picture of the data model: N by N pixels, every one white, recorded as
    N wide and N high. *)
Theorem TakePicture_takes_a_white_picture {T} (cam : camera.SecureCamera T) :
  let taken := camera.TakePicture cam in
  camera.secretKey taken = camera.secretKey cam ∧
  camera.provingKey taken = camera.provingKey cam ∧
  camera.verifyingKey taken = camera.verifyingKey cam ∧
  image.wf_array (image.Pixels (camera.picture taken)) ∧
  dims_within (camera.picture taken) ∧
  (∀ x y, 0 ≤ x < image.N → 0 ≤ y < image.N →
     image.GetPixel (camera.picture taken) x y = px 255 255 255) ∧
  image.M_lookup (camera.picture taken) "width" = Some (image.int_ image.N) ∧
  image.M_lookup (camera.picture taken) "height" = Some (image.int_ image.N).
Proof.
  intros taken. subst taken. cbn [camera.TakePicture camera.secretKey
    camera.provingKey camera.verifyingKey camera.picture].
  do 3 (split; [reflexivity|]).
  split; [apply wf_AllWhiteImage|]. split; [apply dims_AllWhiteImage|].
  split; [|split; reflexivity].
  intros x y Hx Hy.
  assert (cells (image.Pixels image.AllWhiteImage) (λ _ _, px 255 255 255)) as Hc.
  { assert (image.Pixels image.AllWhiteImage = image.zero_array (px 255 255 255)) as ->
      by (vm_compute; reflexivity).
    apply cells_zero_array. }
  by rewrite (GetPixel_cells _ _ x y Hc).
Qed.
